(** * nodecast-tv: the channel list engine and the JSON store

    A shallow embedding of two source files of the repository:

    - [server/db.js], the JSON-file persistence layer (module [Db]);
    - the [ChannelList] browser component (module [ChannelList]): source
      merging, filter/group/sort, batched rendering, optimistic favorite
      toggling.

    Conventions of the embedding.
    - JavaScript strings are [string]; numbers that the code only uses as
      integer identifiers are [Z]; [`${n}`] on such a number is [pretty n].
    - A JavaScript [Set] that the code only drives through [has]/[add]/
      [delete] is a [gset string].
    - A JavaScript object used as a dictionary whose key order is observed
      ([Object.keys]) is an association list in property-creation order.
    - The DOM below [this.container] is a tree of records; every rendered
      row carries a node identity so that element handles captured by the
      code ([querySelectorAll] results) keep denoting the same elements.
    - Host functions whose behaviour the code does not fix
      ([String.prototype.toLowerCase], [String.prototype.localeCompare])
      are section variables.

    Scope of the embedding.
    - The document is what [this.container] holds; markup is kept as
      structure.  The tree of records is the document that the browser
      builds when the texts written into markup or pasted into selectors
      without escaping (ids, group titles, URLs, logos, program titles)
      are plain text, [Js.plain]; [markupSafe], [safeEvent] and
      [plainPrograms] say so in the statements that need it.
    - The object that [render] groups into is created by [{}], so a
      lookup sees the properties of [Object.prototype] too: on a group
      title such as "constructor" the grouping loop throws, and [render]
      is a [Completion].
    - An [async] method runs to its end before the next one starts; the
      result of each awaited call is an argument of the method.  The EPG
      guide's [syncFavorite] is taken not to throw. *)

From Stdlib Require Import ZArith List String Ascii Permutation Sorted Lia Bool.
From stdpp Require Import base gmap strings list pretty.

Local Open Scope string_scope.
Local Open Scope list_scope.
Local Open Scope Z_scope.

(* ===================================================================== *)
(** * Part I: definitions                                                 *)
(* ===================================================================== *)

(** ** [server/db.js] *)

Module Db.

(** Records of the three collections.  Only the fields that [db.js]
    itself reads are kept; the remaining payload of a source (name, url,
    credentials) travels in [src_name].  The time stamps [created_at] and
    [updated_at], which [create], [update] and [toggleEnabled] write from
    the clock and nothing in [db.js] reads, are not fields of [Source]:
    the properties of Part II speak of the four fields below only. *)
Record Source := mkSource {
  src_id : Z;
  src_type : string;
  src_name : string;
  src_enabled : bool
}.

Record HiddenItem := mkHidden {
  hid_id : Z;
  hid_source_id : Z;
  hid_item_type : string;
  hid_item_id : string
}.

Record Favorite := mkFavorite {
  fav_id : Z;
  fav_source_id : Z;
  fav_item_id : string;
  fav_item_type : string
}.

(** The parsed content of [db.json]: every key may be missing. *)
Record Data := mkData {
  d_sources : option (list Source);
  d_hiddenItems : option (list HiddenItem);
  d_favorites : option (list Favorite);
  d_nextId : option Z
}.

(** The file itself: [None] when it does not exist or does not parse. *)
Definition File := option Data.

(** What [loadDb] returns. *)
Record T := mkDb {
  sources : list Source;
  hiddenItems : list HiddenItem;
  favorites : list Favorite;
  nextId : Z
}.

(** [x || d] on an optional array. *)
Definition or_default {A} (x : option A) (d : A) : A :=
  match x with Some v => v | None => d end.

(** [data.nextId || 1]: [0] is falsy. *)
Definition or_one (x : option Z) : Z :=
  match x with
  | Some v => if v =? 0 then 1 else v
  | None => 1
  end.

Definition loadDb (f : File) : T :=
  match f with
  | Some data =>
      {| sources := or_default (d_sources data) [];
         hiddenItems := or_default (d_hiddenItems data) [];
         favorites := or_default (d_favorites data) [];
         nextId := or_one (d_nextId data) |}
  | None =>
      {| sources := []; hiddenItems := []; favorites := []; nextId := 1 |}
  end.

Definition saveDb (db : T) : File :=
  Some {| d_sources := Some (sources db);
          d_hiddenItems := Some (hiddenItems db);
          d_favorites := Some (favorites db);
          d_nextId := Some (nextId db) |}.

(** The value of [parseInt(id)]: an integer, or [NaN] ([None]). *)
Definition ParsedInt := option Z.

(** [x !== parseInt(id)] for a number [x]; [NaN] differs from everything. *)
Definition strict_neq (x : Z) (p : ParsedInt) : bool :=
  match p with
  | Some y => negb (x =? y)
  | None => true
  end.

Definition strict_eq (x : Z) (p : ParsedInt) : bool := negb (strict_neq x p).

(** [sources.delete(id)] *)
Definition sources_delete (id : ParsedInt) (f : File) : File :=
  let db := loadDb f in
  let db1 :=
    {| sources := List.filter (fun s => strict_neq (src_id s) id) (sources db);
       hiddenItems := hiddenItems db;
       favorites := favorites db;
       nextId := nextId db |} in
  (* Also delete related hidden items *)
  let db2 :=
    {| sources := sources db1;
       hiddenItems :=
         List.filter (fun h => strict_neq (hid_source_id h) id) (hiddenItems db1);
       favorites := favorites db1;
       nextId := nextId db1 |} in
  saveDb db2.

(** *** The other operations on sources

    Where an operation takes [parseInt(x)] and stores the result, [x] is
    taken to parse to an integer, and the argument is that integer. *)

(** [sources.getById(id)] *)
Definition sources_getById (id : ParsedInt) (f : File) : option Source :=
  List.find (fun s => strict_eq (src_id s) id) (sources (loadDb f)).

(** [sources.getByType(type)] *)
Definition sources_getByType (type : string) (f : File) : list Source :=
  List.filter (fun s => String.eqb (src_type s) type && src_enabled s)
    (sources (loadDb f)).

(** The object handed to [sources.create]; it may carry an [id] of its
    own, which the spread then puts over the allocated one. *)
Record SourceInput := mkInput {
  in_id : option Z;
  in_type : string;
  in_name : string
}.

(** [sources.create(source)]: the file written and the source returned. *)
Definition sources_create (source : SourceInput) (f : File) : File * Source :=
  let db := loadDb f in
  let newSource :=
    {| src_id := or_default (in_id source) (nextId db);
       src_type := in_type source;
       src_name := in_name source;
       src_enabled := true |} in
  (saveDb {| sources := sources db ++ [newSource];
             hiddenItems := hiddenItems db;
             favorites := favorites db;
             nextId := nextId db + 1 |},
   newSource).

(** The object handed to [sources.update]: any field may be absent. *)
Record SourceUpdates := mkUpdates {
  up_id : option Z;
  up_type : option string;
  up_name : option string;
  up_enabled : option bool
}.

(** [{...source, ...updates}] *)
Definition applyUpdates (s : Source) (u : SourceUpdates) : Source :=
  {| src_id := or_default (up_id u) (src_id s);
     src_type := or_default (up_type u) (src_type s);
     src_name := or_default (up_name u) (src_name s);
     src_enabled := or_default (up_enabled u) (src_enabled s) |}.

(** [findIndex] followed by an assignment at that index: the list with the
    first element satisfying [p] replaced, and the replacement. *)
Fixpoint replaceFirst (p : Source -> bool) (g : Source -> Source)
    (l : list Source) : option (list Source * Source) :=
  match l with
  | [] => None
  | s :: r =>
      if p s then Some (g s :: r, g s)
      else match replaceFirst p g r with
           | Some (r', s') => Some (s :: r', s')
           | None => None
           end
  end.

(** [sources.update(id, updates)]: [null] and no write when no source has
    the id. *)
Definition sources_update (id : ParsedInt) (updates : SourceUpdates)
    (f : File) : File * option Source :=
  let db := loadDb f in
  match replaceFirst (fun s => strict_eq (src_id s) id)
          (fun s => applyUpdates s updates) (sources db) with
  | None => (f, None)
  | Some (l, s) =>
      (saveDb {| sources := l; hiddenItems := hiddenItems db;
                 favorites := favorites db; nextId := nextId db |},
       Some s)
  end.

(** [source.enabled = !source.enabled]; the [updated_at] written on the
    next line is outside [Source]. *)
Definition flipEnabled (s : Source) : Source :=
  {| src_id := src_id s; src_type := src_type s; src_name := src_name s;
     src_enabled := negb (src_enabled s) |}.

(** [sources.toggleEnabled(id)]: the found source is changed in place. *)
Definition sources_toggleEnabled (id : ParsedInt) (f : File)
    : File * option Source :=
  let db := loadDb f in
  match replaceFirst (fun s => strict_eq (src_id s) id) flipEnabled
          (sources db) with
  | None => (f, None)
  | Some (l, s) =>
      (saveDb {| sources := l; hiddenItems := hiddenItems db;
                 favorites := favorites db; nextId := nextId db |},
       Some s)
  end.

(** *** Hidden items *)

(** [h.source_id === parseInt(sourceId) && h.item_type === itemType
     && h.item_id === itemId] *)
Definition sameHidden (sourceId : Z) (itemType itemId : string)
    (h : HiddenItem) : bool :=
  (hid_source_id h =? sourceId)
  && String.eqb (hid_item_type h) itemType
  && String.eqb (hid_item_id h) itemId.

(** [hiddenItems.hide(sourceId, itemType, itemId)] *)
Definition hiddenItems_hide (sourceId : Z) (itemType itemId : string)
    (f : File) : File :=
  let db := loadDb f in
  if existsb (sameHidden sourceId itemType itemId) (hiddenItems db) then f
  else saveDb {| sources := sources db;
                 hiddenItems :=
                   hiddenItems db
                   ++ [{| hid_id := nextId db; hid_source_id := sourceId;
                          hid_item_type := itemType;
                          hid_item_id := itemId |}];
                 favorites := favorites db;
                 nextId := nextId db + 1 |}.

(** [hiddenItems.show(sourceId, itemType, itemId)] *)
Definition hiddenItems_show (sourceId : Z) (itemType itemId : string)
    (f : File) : File :=
  let db := loadDb f in
  saveDb {| sources := sources db;
            hiddenItems :=
              List.filter
                (fun h => negb (sameHidden sourceId itemType itemId h))
                (hiddenItems db);
            favorites := favorites db;
            nextId := nextId db |}.

(** [hiddenItems.isHidden(sourceId, itemType, itemId)] *)
Definition hiddenItems_isHidden (sourceId : Z) (itemType itemId : string)
    (f : File) : bool :=
  existsb (sameHidden sourceId itemType itemId) (hiddenItems (loadDb f)).

(** An element of the array handed to [bulkHide] and [bulkShow]. *)
Record BulkItem := mkBulk {
  bi_sourceId : Z;
  bi_itemType : string;
  bi_itemId : string
}.

(** The loop of [bulkHide] over the loaded database, with its flag. *)
Fixpoint bulkHideLoop (items : list BulkItem) (db : T) (modified : bool)
    : T * bool :=
  match items with
  | [] => (db, modified)
  | item :: rest =>
      if existsb (sameHidden (bi_sourceId item) (bi_itemType item)
                    (bi_itemId item)) (hiddenItems db)
      then bulkHideLoop rest db modified
      else bulkHideLoop rest
             {| sources := sources db;
                hiddenItems :=
                  hiddenItems db
                  ++ [{| hid_id := nextId db;
                         hid_source_id := bi_sourceId item;
                         hid_item_type := bi_itemType item;
                         hid_item_id := bi_itemId item |}];
                favorites := favorites db;
                nextId := nextId db + 1 |}
             true
  end.

(** [hiddenItems.bulkHide(items)]: one write, and only if something was
    added. *)
Definition hiddenItems_bulkHide (items : list BulkItem) (f : File) : File :=
  let '(db, modified) := bulkHideLoop items (loadDb f) false in
  if modified then saveDb db else f.

(** [`${sourceId}:${itemType}:${itemId}`] *)
Definition signature (sourceId : Z) (itemType itemId : string) : string :=
  pretty sourceId ++ ":" ++ itemType ++ ":" ++ itemId.

(** [hiddenItems.bulkShow(items)] *)
Definition hiddenItems_bulkShow (items : list BulkItem) (f : File) : File :=
  let db := loadDb f in
  let toRemove : gset string :=
    list_to_set
      (map (fun i => signature (bi_sourceId i) (bi_itemType i) (bi_itemId i))
         items) in
  let kept :=
    List.filter
      (fun h => negb (bool_decide
                        (signature (hid_source_id h) (hid_item_type h)
                           (hid_item_id h) ∈ toRemove)))
      (hiddenItems db) in
  if (length kept =? length (hiddenItems db))%nat then f
  else saveDb {| sources := sources db; hiddenItems := kept;
                 favorites := favorites db; nextId := nextId db |}.

(** *** Favorites *)

(** [f.source_id === parseInt(sourceId) && f.item_id === String(itemId)
     && f.item_type === itemType] *)
Definition sameFavorite (sourceId : Z) (itemId itemType : string)
    (x : Favorite) : bool :=
  (fav_source_id x =? sourceId)
  && String.eqb (fav_item_id x) itemId
  && String.eqb (fav_item_type x) itemType.

(** [favorites.add(sourceId, itemId, itemType)] *)
Definition favorites_add (sourceId : Z) (itemId itemType : string)
    (f : File) : File :=
  let db := loadDb f in
  if existsb (sameFavorite sourceId itemId itemType) (favorites db) then f
  else saveDb {| sources := sources db;
                 hiddenItems := hiddenItems db;
                 favorites :=
                   favorites db
                   ++ [{| fav_id := nextId db; fav_source_id := sourceId;
                          fav_item_id := itemId;
                          fav_item_type := itemType |}];
                 nextId := nextId db + 1 |}.

(** [favorites.remove(sourceId, itemId, itemType)] *)
Definition favorites_remove (sourceId : Z) (itemId itemType : string)
    (f : File) : File :=
  let db := loadDb f in
  saveDb {| sources := sources db;
            hiddenItems := hiddenItems db;
            favorites :=
              List.filter
                (fun x => negb (sameFavorite sourceId itemId itemType x))
                (favorites db);
            nextId := nextId db |}.

(** [favorites.isFavorite(sourceId, itemId, itemType)] *)
Definition favorites_isFavorite (sourceId : Z) (itemId itemType : string)
    (f : File) : bool :=
  existsb (sameFavorite sourceId itemId itemType) (favorites (loadDb f)).

(** *** Vocabulary of the properties *)

(** Two (source, text, text) triples are the same. *)
Definition sameTriple (s : Z) (t i : string) (s' : Z) (t' i' : string)
    : bool :=
  (s =? s') && String.eqb t t' && String.eqb i i'.

(** The ids of all records of the three collections. *)
Definition allIds (db : T) : list Z :=
  map src_id (sources db) ++ map hid_id (hiddenItems db)
  ++ map fav_id (favorites db).

(** Ids are pairwise different, positive counter above all of them: what
    allocation by [nextId++] maintains. *)
Definition wellNumbered (db : T) : Prop :=
  NoDup (allIds db) /\ 0 < nextId db /\ Forall (fun i => i < nextId db) (allIds db).

(** A call of the store's interface in which the caller supplies no [id]
    field of its own for the record. *)
Inductive Call :=
| call_create (type name : string)
| call_update (id : ParsedInt) (type name : option string)
    (enabled : option bool)
| call_delete (id : ParsedInt)
| call_toggleEnabled (id : ParsedInt)
| call_hide (sourceId : Z) (itemType itemId : string)
| call_show (sourceId : Z) (itemType itemId : string)
| call_bulkHide (items : list BulkItem)
| call_bulkShow (items : list BulkItem)
| call_add (sourceId : Z) (itemId itemType : string)
| call_remove (sourceId : Z) (itemId itemType : string).

(** The file after the call. *)
Definition perform (c : Call) (f : File) : File :=
  match c with
  | call_create type name => fst (sources_create (mkInput None type name) f)
  | call_update id type name enabled =>
      fst (sources_update id (mkUpdates None type name enabled) f)
  | call_delete id => sources_delete id f
  | call_toggleEnabled id => fst (sources_toggleEnabled id f)
  | call_hide s t i => hiddenItems_hide s t i f
  | call_show s t i => hiddenItems_show s t i f
  | call_bulkHide items => hiddenItems_bulkHide items f
  | call_bulkShow items => hiddenItems_bulkShow items f
  | call_add s i t => favorites_add s i t f
  | call_remove s i t => favorites_remove s i t f
  end.

End Db.

(** ** JavaScript library behaviour the component relies on *)

Module Js.

(** [Array.prototype.sort(cmp)]: a stable sort; [cmp a b <= 0] keeps [a]
    before [b].  Stable insertion is the reference behaviour: for a
    consistent comparator every stable sort returns the same array. *)
Fixpoint insertBy {A} (cmp : A -> A -> Z) (x : A) (l : list A) : list A :=
  match l with
  | [] => [x]
  | y :: l' => if cmp x y <=? 0 then x :: y :: l' else y :: insertBy cmp x l'
  end.

Fixpoint sortBy {A} (cmp : A -> A -> Z) (l : list A) : list A :=
  match l with
  | [] => []
  | x :: l' => insertBy cmp x (sortBy cmp l')
  end.

(** [Array.prototype.slice(start, end)] for in-range non-negative bounds. *)
Definition slice {A} (l : list A) (start stop : nat) : list A :=
  firstn (stop - start) (skipn start l).

(** [s.includes(sub)] *)
Definition includes (s sub : string) : bool :=
  match String.index 0 sub s with
  | Some _ => true
  | None => false
  end.

(** [`${x}`] for a value that may be [undefined]. *)
Definition template (x : option string) : string :=
  match x with
  | Some s => s
  | None => "undefined"
  end.

(** [x || d] for a value that is a string or [undefined]: the empty
    string is falsy. *)
Definition or_else (x : option string) (d : string) : string :=
  match x with
  | Some s => if String.eqb s "" then d else s
  | None => d
  end.

(** *** Plain objects used as dictionaries

    Properties are kept in creation order.  [Object.keys] lists the
    array-index keys first, in ascending numeric order, then the other
    keys in creation order. *)
Definition Obj (V : Type) := list (string * V).

Fixpoint get {V} (o : Obj V) (k : string) : option V :=
  match o with
  | [] => None
  | (k', v) :: o' => if String.eqb k' k then Some v else get o' k
  end.

(** [o[k] = v]: an existing property keeps its place. *)
Fixpoint set {V} (o : Obj V) (k : string) (v : V) : Obj V :=
  match o with
  | [] => [(k, v)]
  | (k', v') :: o' =>
      if String.eqb k' k then (k', v) :: o' else (k', v') :: set o' k v
  end.

Definition digit_of (a : ascii) : option N :=
  let n := N_of_ascii a in
  if ((48 <=? n) && (n <=? 57))%N then Some (n - 48)%N else None.

Fixpoint parse_digits (acc : N) (s : string) : option N :=
  match s with
  | EmptyString => Some acc
  | String a s' =>
      match digit_of a with
      | Some d => parse_digits (10 * acc + d)%N s'
      | None => None
      end
  end.

(** A canonical numeric string below [2^32 - 1]. *)
Definition array_index (s : string) : option N :=
  match s with
  | EmptyString => None
  | String a rest =>
      if Ascii.eqb a "0"%char
      then (if String.eqb rest "" then Some 0%N else None)
      else match parse_digits 0 s with
           | Some n => if (n <? 4294967295)%N then Some n else None
           | None => None
           end
  end.

Fixpoint index_entries (ks : list string) : list (N * string) :=
  match ks with
  | [] => []
  | k :: rest =>
      match array_index k with
      | Some n => (n, k) :: index_entries rest
      | None => index_entries rest
      end
  end.

Definition is_index (k : string) : bool :=
  match array_index k with Some _ => true | None => false end.

Definition keys {V} (o : Obj V) : list string :=
  let ks := map fst o in
  map snd (sortBy (fun a b => Z.of_N (fst a) - Z.of_N (fst b)) (index_entries ks))
  ++ List.filter (fun k => negb (is_index k)) ks.

(** [Array.prototype.findIndex]; [None] is [-1]. *)
Fixpoint findIndex {A} (p : A -> bool) (l : list A) : option nat :=
  match l with
  | [] => None
  | x :: r => if p x then Some 0%nat else option_map S (findIndex p r)
  end.

(** [text.replace(/c/g, by)] for a pattern of one character. *)
Fixpoint replaceAll (c : ascii) (by_ : string) (text : string) : string :=
  match text with
  | EmptyString => EmptyString
  | String x rest =>
      if Ascii.eqb x c then (by_ ++ replaceAll c by_ rest)%string
      else String x (replaceAll c by_ rest)
  end.

(** [s.split(sep)] for a separator of one character. *)
Fixpoint split (sep : ascii) (s : string) : list string :=
  match s with
  | EmptyString => [EmptyString]
  | String c rest =>
      if Ascii.eqb c sep then EmptyString :: split sep rest
      else match split sep rest with
           | w :: ws => String c w :: ws
           | [] => [String c EmptyString]
           end
  end.

(** [parseInt(s)] without a radix, on integers in the exact range; [None]
    is [NaN].  Leading white space is the ASCII one. *)
Definition isSpace (c : ascii) : bool :=
  let n := N_of_ascii c in
  ((n =? 32) || ((9 <=? n) && (n <=? 13)))%N.

Fixpoint trimStart (s : string) : string :=
  match s with
  | EmptyString => EmptyString
  | String c rest => if isSpace c then trimStart rest else s
  end.

(** The value of a digit of the radix. *)
Definition digitIn (radix : Z) (c : ascii) : option Z :=
  let n := Z.of_N (N_of_ascii c) in
  let v :=
    if (48 <=? n) && (n <=? 57) then Some (n - 48)
    else if (97 <=? n) && (n <=? 122) then Some (n - 87)
    else if (65 <=? n) && (n <=? 90) then Some (n - 55)
    else None in
  match v with
  | Some d => if d <? radix then Some d else None
  | None => None
  end.

(** The value of the longest prefix of digits; [acc] is [None] while no
    digit has been read. *)
Fixpoint digitsPrefix (radix : Z) (acc : option Z) (s : string) : option Z :=
  match s with
  | EmptyString => acc
  | String c rest =>
      match digitIn radix c with
      | Some d =>
          digitsPrefix radix
            (Some (radix * match acc with Some a => a | None => 0 end + d))
            rest
      | None => acc
      end
  end.

Definition parseInt (s : string) : option Z :=
  let s1 := trimStart s in
  let '(sign, s2) :=
    match s1 with
    | String c rest =>
        if Ascii.eqb c "-" then (-1, rest)
        else if Ascii.eqb c "+" then (1, rest)
        else (1, s1)
    | EmptyString => (1, s1)
    end in
  let '(radix, s3) :=
    match s2 with
    | String c (String x rest) =>
        if Ascii.eqb c "0" && (Ascii.eqb x "x" || Ascii.eqb x "X")
        then (16, rest) else (10, s2)
    | _ => (10, s2)
    end in
  option_map (Z.mul sign) (digitsPrefix radix None s3).

(** *** Inherited properties

    An object created by [{}] inherits the properties of
    [Object.prototype] (ECMAScript, with the accessors of Annex B), and
    [o[k]] finds them when [o] has no property [k] of its own.  Each of
    them is truthy, and none is an array. *)
Definition objectPrototype : list string :=
  ["constructor"; "__defineGetter__"; "__defineSetter__"; "hasOwnProperty";
   "__lookupGetter__"; "__lookupSetter__"; "isPrototypeOf";
   "propertyIsEnumerable"; "toString"; "valueOf"; "__proto__";
   "toLocaleString"].

Definition inherited (k : string) : bool :=
  existsb (String.eqb k) objectPrototype.

(** *** Text written into markup and selectors

    A text is plain when it has no control character and none of the
    double quote, [&], [<], [>] and the backslash.  A plain text written
    between double quotes in markup, as element content, or between double
    quotes in an attribute selector is read back as it was written. *)
Definition plainChar (c : ascii) : bool :=
  let n := N_of_ascii c in
  ((32 <=? n) && negb (n =? 127))%N
  && negb (Ascii.eqb c "034" || Ascii.eqb c "&" || Ascii.eqb c "<"
           || Ascii.eqb c ">" || Ascii.eqb c "\").

Definition plain (s : string) : bool :=
  forallb plainChar (list_ascii_of_string s).

End Js.

(** ** The [ChannelList] component *)

Module ChannelList.

(** *** Data *)

Inductive SourceType := xtream | m3u.

(** A channel as [loadXtreamChannels] and [loadM3uChannels] build it. *)
Record Channel := mkChannel {
  ch_id : string;
  ch_streamId : option Z;
  ch_name : string;
  ch_tvgId : option string;
  ch_tvgLogo : option string;
  ch_groupId : string;
  ch_groupTitle : option string;
  ch_sourceId : Z;
  ch_sourceType : SourceType;
  ch_url : option string
}.

Record Group := mkGroup {
  g_id : string;
  g_name : string;
  g_sourceId : Z;
  g_sourceType : SourceType
}.

(** What the Xtream proxy returns. *)
Record Category := mkCategory {
  category_id : string;
  category_name : string
}.

Record Stream := mkStream {
  stream_id : Z;
  stream_name : string;
  epg_channel_id : option string;
  stream_icon : option string;
  stream_category_id : string
}.

Global Instance SourceType_eq_dec : EqDecision SourceType.
Proof. solve_decision. Defined.

Global Instance Channel_eq_dec : EqDecision Channel.
Proof. solve_decision. Defined.

(** *** The rendered tree *)

(** The two glyphs of the favorite button. *)
Inductive Heart := heart_full | heart_empty.

Record FavBtn := mkBtn {
  btn_active : bool;          (* class [active] *)
  btn_html : Heart;           (* [innerHTML] *)
  btn_title : string          (* [title] *)
}.

(** A [.channel-item] row. *)
Record ChannelItem := mkItem {
  node : nat;                 (* identity of the element *)
  item_active : bool;         (* class [active] *)
  item_hidden : bool;         (* class [hidden] *)
  data_channel_id : string;
  data_source_id : Z;
  data_source_type : SourceType;
  data_stream_id : string;
  data_url : string;
  item_name : string;
  item_btn : FavBtn
}.

(** A [.group-header]. *)
Record GroupHeader := mkHeader {
  gh_group : string;          (* [data-group] and the shown name *)
  gh_hidden : bool;           (* class [hidden] *)
  gh_collapsed : bool;        (* class [collapsed] *)
  gh_favorites : bool;        (* class [favorites-group] *)
  gh_count : nat;             (* text of [.group-count] *)
  gh_display_none : bool      (* [style.display = 'none'] *)
}.

(** A [.channel-group]: the header and its [.group-channels]. *)
Record GroupEl := mkGroupEl {
  header : GroupHeader;
  items : list ChannelItem
}.

(** The [.batch-loader] sentinel. *)
Record Loader := mkLoader {
  loader_opacity : Z;
  loader_display_none : bool
}.

(** What [this.container] holds. *)
Inductive Container :=
| c_blank                        (* [innerHTML = ''] *)
| c_loading                      (* the loading placeholder *)
| c_empty_state (searching : bool)
| c_error (msg : string)
| c_list.                        (* [this.listContainer], [this.loader] *)

(** *** Component state *)

Record State := mkState {
  channels : list Channel;
  groups : list Group;
  hiddenItems : gset string;          (* "type:sourceId:itemId" *)
  collapsedGroups : gset string;
  visibleFavorites : gset string;     (* "sourceId:channelId" *)
  currentChannel : option Channel;
  (* controls read by [render] *)
  searchInput : string;               (* [this.searchInput.value] *)
  showHiddenCheckbox : option bool;   (* [None]: the element is missing *)
  (* fields assigned by [render] *)
  currentBatch : nat;
  batchSize : nat;
  filteredChannels : list Channel;
  sortedGroups : list string;
  groupedChannels : option (Js.Obj (list Channel)); (* [None]: undefined *)
  showHidden : bool;
  listContainer : option (list GroupEl);            (* [None]: undefined *)
  loader : option Loader;                           (* [None]: undefined *)
  (* the document *)
  container : Container;
  nextNode : nat                      (* next unused element identity *)
}.

(** The component as the constructor leaves it. *)
Definition initial (collapsed : gset string) (search : string)
    (checkbox : option bool) : State :=
  {| channels := []; groups := []; hiddenItems := ∅;
     collapsedGroups := collapsed; visibleFavorites := ∅;
     currentChannel := None; searchInput := search;
     showHiddenCheckbox := checkbox; currentBatch := 0%nat;
     batchSize := 0%nat; filteredChannels := []; sortedGroups := [];
     groupedChannels := None; showHidden := false; listContainer := None;
     loader := None; container := c_blank; nextNode := 0%nat |}.

(** Field updates. *)
Definition set_channels (v : list Channel) (st : State) : State :=
  mkState v (groups st) (hiddenItems st) (collapsedGroups st)
    (visibleFavorites st) (currentChannel st) (searchInput st)
    (showHiddenCheckbox st) (currentBatch st) (batchSize st)
    (filteredChannels st) (sortedGroups st) (groupedChannels st)
    (showHidden st) (listContainer st) (loader st) (container st)
    (nextNode st).

Definition set_groups (v : list Group) (st : State) : State :=
  mkState (channels st) v (hiddenItems st) (collapsedGroups st)
    (visibleFavorites st) (currentChannel st) (searchInput st)
    (showHiddenCheckbox st) (currentBatch st) (batchSize st)
    (filteredChannels st) (sortedGroups st) (groupedChannels st)
    (showHidden st) (listContainer st) (loader st) (container st)
    (nextNode st).

Definition set_hiddenItems (v : gset string) (st : State) : State :=
  mkState (channels st) (groups st) v (collapsedGroups st)
    (visibleFavorites st) (currentChannel st) (searchInput st)
    (showHiddenCheckbox st) (currentBatch st) (batchSize st)
    (filteredChannels st) (sortedGroups st) (groupedChannels st)
    (showHidden st) (listContainer st) (loader st) (container st)
    (nextNode st).

Definition set_visibleFavorites (v : gset string) (st : State) : State :=
  mkState (channels st) (groups st) (hiddenItems st) (collapsedGroups st)
    v (currentChannel st) (searchInput st)
    (showHiddenCheckbox st) (currentBatch st) (batchSize st)
    (filteredChannels st) (sortedGroups st) (groupedChannels st)
    (showHidden st) (listContainer st) (loader st) (container st)
    (nextNode st).

Definition set_currentChannel (v : option Channel) (st : State) : State :=
  mkState (channels st) (groups st) (hiddenItems st) (collapsedGroups st)
    (visibleFavorites st) v (searchInput st)
    (showHiddenCheckbox st) (currentBatch st) (batchSize st)
    (filteredChannels st) (sortedGroups st) (groupedChannels st)
    (showHidden st) (listContainer st) (loader st) (container st)
    (nextNode st).

Definition set_searchInput (v : string) (st : State) : State :=
  mkState (channels st) (groups st) (hiddenItems st) (collapsedGroups st)
    (visibleFavorites st) (currentChannel st) v
    (showHiddenCheckbox st) (currentBatch st) (batchSize st)
    (filteredChannels st) (sortedGroups st) (groupedChannels st)
    (showHidden st) (listContainer st) (loader st) (container st)
    (nextNode st).

Definition set_showHiddenCheckbox (v : option bool) (st : State) : State :=
  mkState (channels st) (groups st) (hiddenItems st) (collapsedGroups st)
    (visibleFavorites st) (currentChannel st) (searchInput st)
    v (currentBatch st) (batchSize st)
    (filteredChannels st) (sortedGroups st) (groupedChannels st)
    (showHidden st) (listContainer st) (loader st) (container st)
    (nextNode st).

Definition set_currentBatch (v : nat) (st : State) : State :=
  mkState (channels st) (groups st) (hiddenItems st) (collapsedGroups st)
    (visibleFavorites st) (currentChannel st) (searchInput st)
    (showHiddenCheckbox st) v (batchSize st)
    (filteredChannels st) (sortedGroups st) (groupedChannels st)
    (showHidden st) (listContainer st) (loader st) (container st)
    (nextNode st).

Definition set_groupedChannels (v : option (Js.Obj (list Channel)))
    (st : State) : State :=
  mkState (channels st) (groups st) (hiddenItems st) (collapsedGroups st)
    (visibleFavorites st) (currentChannel st) (searchInput st)
    (showHiddenCheckbox st) (currentBatch st) (batchSize st)
    (filteredChannels st) (sortedGroups st) v
    (showHidden st) (listContainer st) (loader st) (container st)
    (nextNode st).

Definition set_listContainer (v : option (list GroupEl)) (st : State)
    : State :=
  mkState (channels st) (groups st) (hiddenItems st) (collapsedGroups st)
    (visibleFavorites st) (currentChannel st) (searchInput st)
    (showHiddenCheckbox st) (currentBatch st) (batchSize st)
    (filteredChannels st) (sortedGroups st) (groupedChannels st)
    (showHidden st) v (loader st) (container st)
    (nextNode st).

Definition set_loader (v : option Loader) (st : State) : State :=
  mkState (channels st) (groups st) (hiddenItems st) (collapsedGroups st)
    (visibleFavorites st) (currentChannel st) (searchInput st)
    (showHiddenCheckbox st) (currentBatch st) (batchSize st)
    (filteredChannels st) (sortedGroups st) (groupedChannels st)
    (showHidden st) (listContainer st) v (container st)
    (nextNode st).

Definition set_container (v : Container) (st : State) : State :=
  mkState (channels st) (groups st) (hiddenItems st) (collapsedGroups st)
    (visibleFavorites st) (currentChannel st) (searchInput st)
    (showHiddenCheckbox st) (currentBatch st) (batchSize st)
    (filteredChannels st) (sortedGroups st) (groupedChannels st)
    (showHidden st) (listContainer st) (loader st) v
    (nextNode st).

Definition set_nextNode (v : nat) (st : State) : State :=
  mkState (channels st) (groups st) (hiddenItems st) (collapsedGroups st)
    (visibleFavorites st) (currentChannel st) (searchInput st)
    (showHiddenCheckbox st) (currentBatch st) (batchSize st)
    (filteredChannels st) (sortedGroups st) (groupedChannels st)
    (showHidden st) (listContainer st) (loader st) (container st)
    v.

(** *** Flag cache *)

(** [`${type}:${sourceId}:${itemId}`] *)
Definition hiddenKey (type : string) (sourceId : Z) (itemId : string)
    : string :=
  type ++ ":" ++ pretty sourceId ++ ":" ++ itemId.

(** [`${sourceId}:${channelId}`] *)
Definition favoriteKey (sourceId : Z) (channelId : string) : string :=
  pretty sourceId ++ ":" ++ channelId.

Definition isHidden (st : State) (type : string) (sourceId : Z)
    (itemId : string) : bool :=
  bool_decide (hiddenKey type sourceId itemId ∈ hiddenItems st).

Definition isFavorite (st : State) (sourceId : Z) (channelId : string)
    : bool :=
  bool_decide (favoriteKey sourceId channelId ∈ visibleFavorites st).

(** [loadHiddenItems()], given what the flag store returned ([None]: the
    call failed and the cache is left as it was). *)
Definition loadHiddenItems (items : option (list Db.HiddenItem)) (st : State)
    : State :=
  match items with
  | Some l =>
      set_hiddenItems
        (list_to_set
           (map (fun i => hiddenKey (Db.hid_item_type i) (Db.hid_source_id i)
                            (Db.hid_item_id i)) l))
        st
  | None => st
  end.

(** [loadFavorites()]: channel favorites and legacy records without a
    type; a record without [item_id] falls back to the absent
    [channel_id]. *)
Definition loadFavorites (allFavs : option (list Db.Favorite)) (st : State)
    : State :=
  match allFavs with
  | Some l =>
      let channelFavs :=
        List.filter
          (fun f => String.eqb (Db.fav_item_type f) ""
                    || String.eqb (Db.fav_item_type f) "channel") l in
      set_visibleFavorites
        (list_to_set
           (map (fun f =>
                   (pretty (Db.fav_source_id f) ++ ":"
                    ++ Js.template
                         (if String.eqb (Db.fav_item_id f) "" then None
                          else Some (Db.fav_item_id f)))%string)
              channelFavs))
        st
  | None => st
  end.

(** *** Entity merge layer: [loadXtreamChannels] *)

(** [`xtream_${sourceId}_${native}`] *)
Definition xtreamId (sourceId : Z) (native : string) : string :=
  "xtream_" ++ pretty sourceId ++ "_" ++ native.

Definition categoryGroup (sourceId : Z) (cat : Category) : Group :=
  {| g_id := xtreamId sourceId (category_id cat);
     g_name := category_name cat;
     g_sourceId := sourceId;
     g_sourceType := xtream |}.

(** [categories.find(c => c.category_id === id)?.category_name] *)
Definition categoryNameOf (categories : list Category) (id : string)
    : option string :=
  match List.find (fun c => String.eqb (category_id c) id) categories with
  | Some c => Some (category_name c)
  | None => None
  end.

Definition streamChannel (sourceId : Z) (categories : list Category)
    (s : Stream) : Channel :=
  {| ch_id := xtreamId sourceId (pretty (stream_id s));
     ch_streamId := Some (stream_id s);
     ch_name := stream_name s;
     ch_tvgId := epg_channel_id s;
     ch_tvgLogo := stream_icon s;
     ch_groupId := xtreamId sourceId (stream_category_id s);
     ch_groupTitle :=
       Some (Js.or_else (categoryNameOf categories (stream_category_id s))
                        "Uncategorized");
     ch_sourceId := sourceId;
     ch_sourceType := xtream;
     ch_url := None |}.

(** [`${ch.groupTitle}|${ch.name}`] *)
Definition dedupKey (ch : Channel) : string :=
  Js.template (ch_groupTitle ch) ++ "|" ++ ch_name ch.

(** The deduplication loop, with its two accumulators. *)
Fixpoint dedupLoop (seen : gset string) (uniqueChannels : list Channel)
    (channelList : list Channel) : list Channel :=
  match channelList with
  | [] => uniqueChannels
  | ch :: rest =>
      let key := dedupKey ch in
      if bool_decide (key ∈ seen)
      then dedupLoop seen uniqueChannels rest
      else dedupLoop ({[key]} ∪ seen) (uniqueChannels ++ [ch]) rest
  end.

Definition uniqueChannels (sourceId : Z) (categories : list Category)
    (streams : list Stream) : list Channel :=
  dedupLoop ∅ [] (map (streamChannel sourceId categories) streams).

(** [loadXtreamChannels(sourceId, append)], given what the two proxy
    calls returned. *)
Definition loadXtreamChannels (sourceId : Z) (append : bool)
    (categories : list Category) (streams : list Stream) (st : State)
    : State :=
  let st0 := if append then st else set_groups [] (set_channels [] st) in
  let st1 :=
    set_groups (groups st0 ++ map (categoryGroup sourceId) categories) st0 in
  set_channels (channels st1 ++ uniqueChannels sourceId categories streams)
    st1.

(** *** Windowed renderer: one batch *)

(** [ch.groupTitle || 'Uncategorized'] *)
Definition groupKey (ch : Channel) : string :=
  Js.or_else (ch_groupTitle ch) "Uncategorized".

(** [this.currentChannel?.id === channel.id] *)
Definition isActive (st : State) (channel : Channel) : bool :=
  match currentChannel st with
  | Some c => String.eqb (ch_id c) (ch_id channel)
  | None => false
  end.

Definition favBtn (isFav : bool) : FavBtn :=
  {| btn_active := isFav;
     btn_html := if isFav then heart_full else heart_empty;
     btn_title := if isFav then "Remove from Favorites"
                  else "Add to Favorites" |}.

(** [`${channel.streamId || ''}`]: [0] is falsy. *)
Definition streamIdAttr (channel : Channel) : string :=
  match ch_streamId channel with
  | Some z => if z =? 0 then "" else pretty z
  | None => ""
  end.

Definition urlAttr (channel : Channel) : string :=
  Js.or_else (ch_url channel) "".

Definition channelHiddenIn (st : State) (isFavoritesGroup : bool)
    (channel : Channel) : bool :=
  negb isFavoritesGroup
  && isHidden st "channel" (ch_sourceId channel) (ch_id channel).

(** The row of one member, or nothing when the member is skipped.  The
    id, the URL and the logo go into the markup unescaped: the row has
    these attributes when they are plain text. *)
Definition renderItem (st : State) (isFavoritesGroup : bool) (n : nat)
    (channel : Channel) : option ChannelItem :=
  let channelHidden := channelHiddenIn st isFavoritesGroup channel in
  if channelHidden && negb (showHidden st) then None
  else Some
    {| node := n;
       item_active := isActive st channel;
       item_hidden := channelHidden;
       data_channel_id := ch_id channel;
       data_source_id := ch_sourceId channel;
       data_source_type := ch_sourceType channel;
       data_stream_id := streamIdAttr channel;
       data_url := urlAttr channel;
       item_name := ch_name channel;
       item_btn :=
         favBtn (isFavorite st (ch_sourceId channel) (ch_id channel)) |}.

(** The inner loop over the members; [n] is the next element identity. *)
Fixpoint renderItems (st : State) (isFavoritesGroup : bool) (n : nat)
    (chs : list Channel) : list ChannelItem * nat :=
  match chs with
  | [] => ([], n)
  | channel :: rest =>
      match renderItem st isFavoritesGroup n channel with
      | None => renderItems st isFavoritesGroup n rest
      | Some it =>
          let '(its, n') := renderItems st isFavoritesGroup (S n) rest in
          (it :: its, n')
      end
  end.

(** [this.groupedChannels[groupName]].  Every name in [sortedGroups] is
    a key of [groupedChannels] once [render] has run, which is the only
    situation in which a batch is rendered. *)
Definition membersOf (st : State) (groupName : string) : list Channel :=
  match groupedChannels st with
  | Some o => default [] (Js.get o groupName)
  | None => []
  end.

Definition groupHiddenIn (st : State) (groupName : string) : bool :=
  match membersOf st groupName with
  | [] => false
  | first :: _ =>
      negb (String.eqb groupName "Favorites")
      && isHidden st "group" (ch_sourceId first) groupName
  end.

(** The element of one group, or nothing when the group is skipped.
    The group name goes into [data-group] and into the header text
    unescaped: the header carries that name when it is plain text. *)
Definition renderGroup (st : State) (n : nat) (groupName : string)
    : option GroupEl * nat :=
  let chs := membersOf st groupName in
  match chs with
  | [] => (None, n)
  | _ :: _ =>
      let isFavoritesGroup := String.eqb groupName "Favorites" in
      let groupHidden := groupHiddenIn st groupName in
      if groupHidden && negb (showHidden st) then (None, n)
      else
        let '(its, n') := renderItems st isFavoritesGroup n chs in
        (Some {| header :=
                   {| gh_group := groupName;
                      gh_hidden := groupHidden;
                      gh_collapsed :=
                        bool_decide (groupName ∈ collapsedGroups st);
                      gh_favorites := isFavoritesGroup;
                      gh_count := length chs;
                      gh_display_none := false |};
                 items := its |}, n')
  end.

Fixpoint renderGroups (st : State) (n : nat) (names : list string)
    : list GroupEl * nat :=
  match names with
  | [] => ([], n)
  | g :: rest =>
      let '(el, n1) := renderGroup st n g in
      let '(els, n2) := renderGroups st n1 rest in
      (match el with Some e => e :: els | None => els end, n2)
  end.

Definition retireLoader (st : State) : State :=
  set_loader
    (option_map (fun l => {| loader_opacity := loader_opacity l;
                             loader_display_none := true |}) (loader st))
    st.

Definition showLoader (st : State) : State :=
  set_loader
    (option_map (fun l => {| loader_opacity := 1;
                             loader_display_none := loader_display_none l |})
                (loader st))
    st.

(** [renderNextBatch()].  It runs only from [render] and from the
    observer armed by [render], hence with [this.loader] and
    [this.listContainer] assigned. *)
Definition renderNextBatch (st : State) : State :=
  let start := (currentBatch st * batchSize st)%nat in
  let stop := (start + batchSize st)%nat in
  let groupsToRender := Js.slice (sortedGroups st) start stop in
  match groupsToRender with
  | [] => retireLoader st
  | _ :: _ =>
      let st1 := showLoader st in
      let '(els, n') := renderGroups st1 (nextNode st1) groupsToRender in
      let st2 :=
        set_nextNode n'
          (set_listContainer
             (option_map (fun lc => lc ++ els) (listContainer st1)) st1) in
      let st3 := set_currentBatch (S (currentBatch st2)) st2 in
      if (length (sortedGroups st3) <=? stop)%nat then retireLoader st3
      else st3
  end.

(** *** Effects and completions *)

(** Calls that leave the component. *)
Inductive Effect :=
| api_favorites_add (sourceId : Z) (channelId : string)
| api_favorites_remove (sourceId : Z) (channelId : string)
| api_getStreamUrl (sourceId : Z) (streamId : option Z)
| epg_syncFavorite (sourceId : Z) (channelId : string) (isFav : bool)
| player_play (channel : Channel) (streamUrl : option string)
| console_error (what : string).

(** How a synchronous method ends: normally, or by throwing, with the
    state as it stands at that point. *)
Inductive Completion :=
| Normal (st : State)
| Throw (st : State).

(** Where a completion ends. *)
Definition stateOf (c : Completion) : State :=
  match c with Normal st => st | Throw st => st end.

(** How an [async] method ends: the final state, the calls it issued in
    order, and whether its promise rejected. *)
Record Outcome := mkOutcome {
  final : State;
  effects : list Effect;
  rejected : bool
}.

Section Engine.

(** [String.prototype.toLowerCase] and [String.prototype.localeCompare]. *)
Variable toLowerCase : string -> string.
Variable localeCompare : string -> string -> Z.

(** Whether [window.app.epgGuide] and [window.app.player] exist. *)
Variable hasEpgGuide : bool.
Variable hasPlayer : bool.

(** The message of the TypeError raised by calling a [push] that is not
    a function; engines word it differently. *)
Variable notAFunction : string.

(** The title of the program that the guide reports for a channel:
    [window.app.epgGuide.getCurrentProgram(tvgId, name)?.title]. *)
Variable programTitle : Channel -> option string.

(** [getProgramInfo(channel)]: [null] without a guide. *)
Definition getProgramInfo (channel : Channel) : option string :=
  if hasEpgGuide then programTitle channel else None.

(** *** Filter / group / sort: [render] *)

Definition matchesSearch (searchTerm : string) (ch : Channel) : bool :=
  Js.includes (toLowerCase (ch_name ch)) searchTerm
  || match ch_groupTitle ch with
     | Some g =>
         if String.eqb g "" then false
         else Js.includes (toLowerCase g) searchTerm
     | None => false
     end.

Definition filterChannels (searchTerm : string) (chs : list Channel)
    : list Channel :=
  if String.eqb searchTerm "" then chs
  else List.filter (matchesSearch searchTerm) chs.

(** One turn of the grouping loop.  [groupedChannels] is created by
    [{}]: for a key that names an inherited property the guard
    [!groupedChannels[groupKey]] sees that property, no array is stored,
    and [groupedChannels[groupKey].push] is not a function.  [None] is
    the TypeError. *)
Definition pushChannel (grouped : Js.Obj (list Channel)) (ch : Channel)
    : option (Js.Obj (list Channel)) :=
  let key := groupKey ch in
  match Js.get grouped key with
  | Some members => Some (Js.set grouped key (members ++ [ch]))
  | None =>
      if Js.inherited key then None
      else Some (Js.set grouped key [ch])
  end.

(** [filteredChannels.forEach(ch => …)], from the object built so far. *)
Fixpoint groupLoop (grouped : Js.Obj (list Channel)) (chs : list Channel)
    : option (Js.Obj (list Channel)) :=
  match chs with
  | [] => Some grouped
  | ch :: rest =>
      match pushChannel grouped ch with
      | Some grouped' => groupLoop grouped' rest
      | None => None
      end
  end.

Definition groupChannels (chs : list Channel)
    : option (Js.Obj (list Channel)) :=
  groupLoop [] chs.

Definition compareNames (a b : Channel) : Z :=
  localeCompare (ch_name a) (ch_name b).

Definition favoritedChannels (st : State) : list Channel :=
  List.filter (fun ch => isFavorite st (ch_sourceId ch) (ch_id ch))
    (channels st).

Definition addFavorites (st : State) (grouped : Js.Obj (list Channel))
    : Js.Obj (list Channel) :=
  match favoritedChannels st with
  | [] => grouped
  | favs => Js.set grouped "Favorites" (Js.sortBy compareNames favs)
  end.

Definition compareGroups (a b : string) : Z :=
  if String.eqb a "Favorites" then -1
  else if String.eqb b "Favorites" then 1
  else localeCompare a b.

(** The loop that renders the initial batches. *)
Fixpoint initialBatches (maxInitialBatches : nat) (st : State) : State :=
  match maxInitialBatches with
  | O => st
  | S k =>
      if (length (sortedGroups st)
            <=? currentBatch st * batchSize st)%nat
      then st
      else initialBatches k (renderNextBatch st)
  end.

(** The start of [render]: the batching is reset, the container is
    cleared and the filtered list is stored. *)
Definition clearView (st : State) : State :=
  let searchTerm := toLowerCase (searchInput st) in
  {| channels := channels st; groups := groups st;
     hiddenItems := hiddenItems st;
     collapsedGroups := collapsedGroups st;
     visibleFavorites := visibleFavorites st;
     currentChannel := currentChannel st;
     searchInput := searchInput st;
     showHiddenCheckbox := showHiddenCheckbox st;
     currentBatch := 0%nat;
     batchSize := 100%nat;
     filteredChannels := filterChannels searchTerm (channels st);
     sortedGroups := sortedGroups st;
     groupedChannels := groupedChannels st;
     showHidden := showHidden st;
     listContainer := listContainer st;
     loader := loader st;
     container := c_blank;
     nextNode := nextNode st |}.

(** Steps 3 and 4 of [render], on the object that the grouping loop
    built: the Favorites group is added, the keys are sorted, and the
    view is stored. *)
Definition storeView (grouped : Js.Obj (list Channel)) (st : State) : State :=
  let grouped' := addFavorites st grouped in
  {| channels := channels st; groups := groups st;
     hiddenItems := hiddenItems st;
     collapsedGroups := collapsedGroups st;
     visibleFavorites := visibleFavorites st;
     currentChannel := currentChannel st;
     searchInput := searchInput st;
     showHiddenCheckbox := showHiddenCheckbox st;
     currentBatch := currentBatch st;
     batchSize := batchSize st;
     filteredChannels := filteredChannels st;
     sortedGroups := Js.sortBy compareGroups (Js.keys grouped');
     groupedChannels := Some grouped';
     showHidden := default false (showHiddenCheckbox st);
     listContainer := listContainer st;
     loader := loader st;
     container := container st;
     nextNode := nextNode st |}.

(** The empty state shown when there is no group at all. *)
Definition showEmptyState (st : State) : State :=
  set_container
    (c_empty_state (negb (String.eqb (toLowerCase (searchInput st)) ""))) st.

(** A new, empty list element and a new loader are put in the container. *)
Definition newList (st : State) : State :=
  set_container c_list
    (set_loader (Some {| loader_opacity := 0; loader_display_none := false |})
       (set_listContainer (Some []) st)).

(** The end of [render]: the empty state, or the list with its initial
    batches. *)
Definition showView (st : State) : State :=
  match sortedGroups st with
  | [] => showEmptyState st
  | _ :: _ => initialBatches 10 (newList st)
  end.

(** [render()].  The TypeError of the grouping loop leaves the component
    with the batching reset, the container cleared and the filtered list
    stored; the grouped view, the sorted groups and the list element are
    those of the last completed call. *)
Definition render (st : State) : Completion :=
  let st0 := clearView st in
  match groupChannels (filteredChannels st0) with
  | None => Throw st0
  | Some grouped => Normal (showView (storeView grouped st0))
  end.

(** The rows that are in the document. *)
Definition renderedGroups (st : State) : list GroupEl :=
  match container st with
  | c_list => default [] (listContainer st)
  | _ => []
  end.

Definition renderedItems (st : State) : list ChannelItem :=
  flat_map items (renderedGroups st).

(** Whether the sentinel can still come into view. *)
Definition loaderRetired (st : State) : bool :=
  match container st, loader st with
  | c_list, Some l => loader_display_none l
  | _, _ => true
  end.

(** The observer callback with an intersecting entry. *)
Definition sentinelReached (st : State) : State :=
  if loaderRetired st then st else renderNextBatch st.

(** Scrolling on: the sentinel fires until the loader is retired. *)
Fixpoint scrollToEnd (fuel : nat) (st : State) : State :=
  match fuel with
  | O => st
  | S k =>
      if loaderRetired st then st else scrollToEnd k (renderNextBatch st)
  end.

(** [getVisibleChannels()] *)
Definition getVisibleChannels (st : State) : list Channel :=
  let showHidden' := default false (showHiddenCheckbox st) in
  List.filter
    (fun ch =>
       if showHidden' then true
       else
         let channelHidden :=
           isHidden st "channel" (ch_sourceId ch) (ch_id ch) in
         let groupHidden :=
           isHidden st "group" (ch_sourceId ch)
             (Js.template (ch_groupTitle ch)) in
         negb channelHidden && negb groupHidden)
    (channels st).

(** *** Optimistic mutation controller *)

Definition with_active (b : bool) (it : ChannelItem) : ChannelItem :=
  mkItem (node it) b (item_hidden it) (data_channel_id it)
    (data_source_id it) (data_source_type it) (data_stream_id it)
    (data_url it) (item_name it) (item_btn it).

Definition with_btn (f : FavBtn -> FavBtn) (it : ChannelItem)
    : ChannelItem :=
  mkItem (node it) (item_active it) (item_hidden it) (data_channel_id it)
    (data_source_id it) (data_source_type it) (data_stream_id it)
    (data_url it) (item_name it) (f (item_btn it)).

Definition with_items (f : list ChannelItem -> list ChannelItem)
    (g : GroupEl) : GroupEl :=
  {| header := header g; items := f (items g) |}.

(** [.channel-item[data-channel-id="…"][data-source-id="…"]] *)
Definition itemMatches (channelId : string) (sourceId : Z)
    (it : ChannelItem) : bool :=
  String.eqb (data_channel_id it) channelId
  && (data_source_id it =? sourceId).

(** [c.id === channel.id && c.sourceId === channel.sourceId] *)
Definition sameChannel (channel c : Channel) : bool :=
  String.eqb (ch_id c) (ch_id channel)
  && (ch_sourceId c =? ch_sourceId channel).

(** [this.channels.find(c => c.sourceId == sourceId && c.id == channelId)] *)
Definition findChannel (st : State) (sourceId : Z) (channelId : string)
    : option Channel :=
  List.find (fun c => (ch_sourceId c =? sourceId)
                      && String.eqb (ch_id c) channelId) (channels st).

(** Removal of the first element that satisfies [p]
    ([findIndex] then [splice], [querySelector] then [remove]). *)
Fixpoint removeFirst {A} (p : A -> bool) (l : list A) : list A :=
  match l with
  | [] => []
  | x :: r => if p x then r else x :: removeFirst p r
  end.

(** Step 1 of [updateFavoritesGroup], on the array itself. *)
Definition updateFavArray (favArray : list Channel) (channel : Channel)
    (isAdded : bool) : list Channel :=
  let existing := existsb (sameChannel channel) favArray in
  if isAdded
  then (if existing then favArray else favArray ++ [channel])
  else removeFirst (sameChannel channel) favArray.

(** [createChannelElement(channel)] with identity [n].  The data
    attributes are set through [dataset]; the logo and the program title
    go into [innerHTML] unescaped, and the row is this one when they are
    plain text. *)
Definition createChannelElement (st : State) (n : nat)
    (channel : Channel) : ChannelItem :=
  {| node := n;
     item_active := isActive st channel;
     item_hidden := false;
     data_channel_id := ch_id channel;
     data_source_id := ch_sourceId channel;
     data_source_type := ch_sourceType channel;
     data_stream_id := streamIdAttr channel;
     data_url := urlAttr channel;
     item_name := ch_name channel;
     item_btn := {| btn_active := true; btn_html := heart_full;
                    btn_title := "Remove from Favorites" |} |}.

(** Step 2 of [updateFavoritesGroup] on the Favorites element: the
    member rows, the count, and the visibility of the header.  The row
    is looked up by a selector with [channel.id] pasted between double
    quotes, which finds the row of that id when the id is plain text. *)
Definition patchFavoritesEl (st : State) (channel : Channel)
    (isAdded : bool) (favLength : nat) (g : GroupEl) : GroupEl :=
  let sel := itemMatches (ch_id channel) (ch_sourceId channel) in
  let its :=
    if isAdded
    then (if existsb sel (items g) then items g
          else items g ++ [createChannelElement st (nextNode st) channel])
    else removeFirst sel (items g) in
  let empty := (favLength =? 0)%nat in
  {| header :=
       {| gh_group := gh_group (header g);
          gh_hidden := empty;
          gh_collapsed := gh_collapsed (header g);
          gh_favorites := gh_favorites (header g);
          gh_count := favLength;
          gh_display_none := empty |};
     items := its |}.

(** [listContainer.querySelector('.group-header[data-group="Favorites"]')]:
    applies [f] to the first such group, or fails when there is none. *)
Fixpoint onFavoritesEl (f : GroupEl -> GroupEl) (lc : list GroupEl)
    : option (list GroupEl) :=
  match lc with
  | [] => None
  | g :: r =>
      if String.eqb (gh_group (header g)) "Favorites"
      then Some (f g :: r)
      else option_map (cons g) (onFavoritesEl f r)
  end.

(** [updateFavoritesGroup(channel, isAdded)] *)
Definition updateFavoritesGroup (channel : Channel) (isAdded : bool)
    (st : State) : Completion :=
  match groupedChannels st with
  | None => Throw st
  | Some grouped =>
      let grouped1 :=
        match Js.get grouped "Favorites" with
        | None => Js.set grouped "Favorites" []
        | Some _ => grouped
        end in
      let favArray :=
        updateFavArray (default [] (Js.get grouped1 "Favorites"))
          channel isAdded in
      let st1 :=
        set_groupedChannels
          (Some (Js.set grouped1 "Favorites" favArray)) st in
      match listContainer st1 with
      | None => Throw st1
      | Some lc =>
          match onFavoritesEl
                  (patchFavoritesEl st1 channel isAdded (length favArray))
                  lc with
          | None =>
              if isAdded && (length favArray =? 1)%nat
              then render st1
              else Normal st1
          | Some lc' =>
              Normal (set_nextNode (S (nextNode st1))
                        (set_listContainer (Some lc') st1))
          end
      end
  end.

(** [document.querySelectorAll('.channel-item[…][…] .favorite-btn')]:
    the handles of the matching rows that are in the document.  The id
    is pasted between double quotes: the selector matches the rows of
    that id when the id is plain text (a double quote in it makes the
    call throw, a backslash makes it match other rows). *)
Definition queryButtons (st : State) (sourceId : Z) (channelId : string)
    : list nat :=
  map node (List.filter (itemMatches channelId sourceId) (renderedItems st)).

(** [btns.forEach(btn => …)]: the handles keep their elements; an
    element that left the tree is patched out of sight. *)
Definition patchButtons (btns : list nat) (f : FavBtn -> FavBtn)
    (st : State) : State :=
  set_listContainer
    (option_map
       (map (with_items
               (map (fun it => if bool_decide (node it ∈ btns)
                               then with_btn f it else it))))
       (listContainer st))
    st.

Definition btnOptimisticOff (b : FavBtn) : FavBtn :=
  {| btn_active := false; btn_html := heart_empty;
     btn_title := "Add to Favorites" |}.

Definition btnOptimisticOn (b : FavBtn) : FavBtn :=
  {| btn_active := true; btn_html := heart_full;
     btn_title := "Remove from Favorites" |}.

Definition btnRevertOn (b : FavBtn) : FavBtn :=
  {| btn_active := true; btn_html := heart_full;
     btn_title := btn_title b |}.

Definition btnRevertOff (b : FavBtn) : FavBtn :=
  {| btn_active := false; btn_html := heart_empty;
     btn_title := btn_title b |}.

(** The [catch] block of [toggleFavorite]. *)
Definition revertFavorite (sourceId : Z) (channelId : string)
    (wasFavorite : bool) (btns : list nat) (issued : list Effect)
    (st : State) : Outcome :=
  let key := favoriteKey sourceId channelId in
  let log := issued ++ [console_error "Error toggling favorite:"] in
  let st1 :=
    if wasFavorite
    then patchButtons btns btnRevertOn
           (set_visibleFavorites ({[key]} ∪ visibleFavorites st) st)
    else patchButtons btns btnRevertOff
           (set_visibleFavorites (visibleFavorites st ∖ {[key]}) st) in
  match findChannel st1 sourceId channelId with
  | Some channel =>
      match updateFavoritesGroup channel wasFavorite st1 with
      | Normal st2 => mkOutcome st2 log false
      | Throw st2 => mkOutcome st2 log true
      end
  | None => mkOutcome st1 log false
  end.

(** [toggleFavorite(sourceId, channelId)]; [remoteOk] tells whether the
    favorites call of the flag store succeeds. *)
Definition toggleFavorite (sourceId : Z) (channelId : string)
    (remoteOk : bool) (st : State) : Outcome :=
  let key := favoriteKey sourceId channelId in
  let wasFavorite := bool_decide (key ∈ visibleFavorites st) in
  let btns := queryButtons st sourceId channelId in
  (* Optimistic update *)
  let st1 :=
    if wasFavorite
    then patchButtons btns btnOptimisticOff
           (set_visibleFavorites (visibleFavorites st ∖ {[key]}) st)
    else patchButtons btns btnOptimisticOn
           (set_visibleFavorites ({[key]} ∪ visibleFavorites st) st) in
  (* Updates Favorites Group DOM *)
  let updated :=
    match findChannel st1 sourceId channelId with
    | Some channel => updateFavoritesGroup channel (negb wasFavorite) st1
    | None => Normal st1
    end in
  match updated with
  | Throw st2 =>
      revertFavorite sourceId channelId wasFavorite btns [] st2
  | Normal st2 =>
      (* Perform API call *)
      let call :=
        if wasFavorite then api_favorites_remove sourceId channelId
        else api_favorites_add sourceId channelId in
      if remoteOk
      then mkOutcome st2
             (call :: (if hasEpgGuide
                       then [epg_syncFavorite sourceId channelId
                               (negb wasFavorite)]
                       else []))
             false
      else revertFavorite sourceId channelId wasFavorite btns [call] st2
  end.

(** [container.querySelector('[data-channel-id="…"]')] then
    [classList.add('active')], on the first match in document order. *)
Fixpoint activateFirstItem (channelId : string) (its : list ChannelItem)
    : option (list ChannelItem) :=
  match its with
  | [] => None
  | it :: r =>
      if String.eqb (data_channel_id it) channelId
      then Some (with_active true it :: r)
      else option_map (cons it) (activateFirstItem channelId r)
  end.

Fixpoint activateFirst (channelId : string) (lc : list GroupEl)
    : list GroupEl :=
  match lc with
  | [] => []
  | g :: r =>
      match activateFirstItem channelId (items g) with
      | Some its => {| header := header g; items := its |} :: r
      | None => g :: activateFirst channelId r
      end
  end.

Definition markActive (channelId : string) (st : State) : State :=
  match container st with
  | c_list =>
      set_listContainer
        (option_map
           (fun lc =>
              activateFirst channelId
                (map (with_items (map (with_active false))) lc))
           (listContainer st))
        st
  | _ => st
  end.

(** [selectChannel(dataset)]; [resolved] is what the stream-URL call
    of an Xtream source returns ([None]: the call fails). *)
Definition selectChannel (channelId : string) (resolved : option string)
    (st : State) : Outcome :=
  match List.find (fun c => String.eqb (ch_id c) channelId) (channels st)
  with
  | None => mkOutcome st [] false
  | Some channel =>
      let st1 :=
        markActive (ch_id channel)
          (set_currentChannel (Some channel) st) in
      let play url :=
        if hasPlayer then [player_play channel url] else [] in
      match ch_sourceType channel with
      | xtream =>
          let call :=
            api_getStreamUrl (ch_sourceId channel) (ch_streamId channel) in
          match resolved with
          | Some url => mkOutcome st1 (call :: play (Some url)) false
          | None => mkOutcome st1 [call] true
          end
      | m3u => mkOutcome st1 (play (ch_url channel)) false
      end
  end.

(** *** Favorites pushed from outside: [syncFavorite] *)

(** [syncFavorite(sourceId, channelId, isFavorite)]: no remote call, and
    an exception of the group update is not caught. *)
Definition syncFavorite (sourceId : Z) (channelId : string) (isFav : bool)
    (st : State) : Completion :=
  let key := favoriteKey sourceId channelId in
  let currentlyFav := bool_decide (key ∈ visibleFavorites st) in
  if Bool.eqb currentlyFav isFav then Normal st (* No change needed *)
  else
    (* Update State *)
    let st1 :=
      set_visibleFavorites
        (if isFav then {[key]} ∪ visibleFavorites st
         else visibleFavorites st ∖ {[key]}) st in
    (* Update DOM (All instances) *)
    let btns := queryButtons st1 sourceId channelId in
    let st2 :=
      patchButtons btns (if isFav then btnOptimisticOn else btnOptimisticOff)
        st1 in
    (* Update Favorites Group *)
    match findChannel st2 sourceId channelId with
    | Some channel => updateFavoritesGroup channel isFav st2
    | None => Normal st2
    end.

(** *** Stepping through the filtered list *)

(** The outcome of a method that does nothing. *)
Definition nothing (st : State) : Outcome := mkOutcome st [] false.

(** [selectChannel] called without [await]: the method that calls it
    returns normally whatever becomes of the promise. *)
Definition detached (o : Outcome) : Outcome :=
  mkOutcome (final o) (effects o) false.

(** [selectNextChannel()] *)
Definition selectNextChannel (resolved : option string) (st : State)
    : Outcome :=
  match currentChannel st with
  | None => nothing st
  | Some cur =>
      match filteredChannels st with
      | [] => nothing st
      | _ :: _ =>
          match Js.findIndex (sameChannel cur) (filteredChannels st) with
          | None => nothing st
          | Some currentIndex =>
              let nextIndex :=
                ((currentIndex + 1) mod length (filteredChannels st))%nat in
              match nth_error (filteredChannels st) nextIndex with
              | Some nextChannel =>
                  detached (selectChannel (ch_id nextChannel) resolved st)
              | None => nothing st
              end
          end
      end
  end.

(** [selectPrevChannel()]; the index is
    [(currentIndex - 1 + length) % length]. *)
Definition selectPrevChannel (resolved : option string) (st : State)
    : Outcome :=
  match currentChannel st with
  | None => nothing st
  | Some cur =>
      match filteredChannels st with
      | [] => nothing st
      | _ :: _ =>
          match Js.findIndex (sameChannel cur) (filteredChannels st) with
          | None => nothing st
          | Some currentIndex =>
              let prevIndex :=
                ((currentIndex + length (filteredChannels st) - 1)
                 mod length (filteredChannels st))%nat in
              match nth_error (filteredChannels st) prevIndex with
              | Some prevChannel =>
                  detached (selectChannel (ch_id prevChannel) resolved st)
              | None => nothing st
              end
          end
      end
  end.

(** *** The context menu *)

(** The [dataset] of the menu element and its class [active].  The source
    id is kept as the number it spells; [None] is the text "undefined". *)
Record Menu := mkMenu {
  menu_type : string;
  menu_sourceId : option Z;
  menu_itemId : string;
  menu_active : bool
}.

(** The element whose [contextmenu] listener fires. *)
Inductive Target :=
| on_header (h : GroupHeader)
| on_item (it : ChannelItem).

(** [showContextMenu(e, type, data)] as [attachGroupListeners] calls it:
    with [header.dataset], which has [group] only, or with
    [item.dataset]. *)
Definition showContextMenu (target : Target) : Menu :=
  match target with
  | on_header h =>
      {| menu_type := "group"; menu_sourceId := None;
         menu_itemId := gh_group h; menu_active := true |}
  | on_item it =>
      {| menu_type := "channel"; menu_sourceId := Some (data_source_id it);
         menu_itemId := data_channel_id it; menu_active := true |}
  end.

Definition hideContextMenu (menu : Menu) : Menu :=
  {| menu_type := menu_type menu; menu_sourceId := menu_sourceId menu;
     menu_itemId := menu_itemId menu; menu_active := false |}.

(** [e.target.dataset.action] *)
Inductive Action := act_play | act_hide | act_epg | act_other.

(** What [handleContextAction] issues. *)
Inductive MenuEffect :=
| api_channels_hide (sourceId : option Z) (type itemId : string)
                                          (* [None]: [NaN] *)
| console_log_epg (channel : Channel)
| of_selectChannel (e : Effect).

Record MenuOutcome := mkMenuOutcome {
  m_final : State;
  m_menu : Menu;
  m_effects : list MenuEffect;
  m_rejected : bool
}.

(** [handleContextAction(e)]; [hideOk] tells whether the hide call of
    the flag store succeeds, [resolved] is as for [selectChannel].  An
    exception of [render] is not caught: the promise rejects and the menu
    stays as it is. *)
Definition handleContextAction (action : Action) (menu : Menu)
    (hideOk : bool) (resolved : option string) (st : State) : MenuOutcome :=
  let type := menu_type menu in
  let itemId := menu_itemId menu in
  let done st' log := mkMenuOutcome st' (hideContextMenu menu) log false in
  match action with
  | act_play =>
      if String.eqb type "channel" then
        match List.find (fun c => String.eqb (ch_id c) itemId) (channels st)
        with
        | Some channel =>
            let o := selectChannel (ch_id channel) resolved st in
            if rejected o
            then mkMenuOutcome (final o) menu
                   (map of_selectChannel (effects o)) true
            else done (final o) (map of_selectChannel (effects o))
        | None => done st []
        end
      else done st []
  | act_hide =>
      let call := api_channels_hide (menu_sourceId menu) type itemId in
      if hideOk then
        let key :=
          (type ++ ":" ++ Js.template (option_map pretty (menu_sourceId menu))
           ++ ":" ++ itemId)%string in
        match render (set_hiddenItems ({[key]} ∪ hiddenItems st) st) with
        | Normal st' => done st' [call]
        | Throw st' => mkMenuOutcome st' menu [call] true
        end
      else mkMenuOutcome st menu [call] true
  | act_epg =>
      match List.find (fun c => String.eqb (ch_id c) itemId) (channels st)
      with
      | Some channel => done st [console_log_epg channel]
      | None => done st []
      end
  | act_other => done st []
  end.

(** *** Collapsed groups *)

Definition set_collapsedGroups (v : gset string) (st : State) : State :=
  mkState (channels st) (groups st) (hiddenItems st) v
    (visibleFavorites st) (currentChannel st) (searchInput st)
    (showHiddenCheckbox st) (currentBatch st) (batchSize st)
    (filteredChannels st) (sortedGroups st) (groupedChannels st)
    (showHidden st) (listContainer st) (loader st) (container st)
    (nextNode st).

(** The item [nodecast_tv_collapsed_groups] of [localStorage]: missing
    or empty, the JSON text of an array of strings, or a text for which
    [JSON.parse] or the [Set] constructor throws. *)
Inductive Item :=
| item_absent
| item_array (l : list string)
| item_other.

(** [loadCollapsedState()] *)
Definition loadCollapsedState (saved : Item) (st : State) : State :=
  match saved with
  | item_array l => set_collapsedGroups (list_to_set l) st
  | item_absent | item_other => st
  end.

(** [saveCollapsedState()]: the item written.  The write is taken to
    succeed; the order of the array is not observed by anything. *)
Definition saveCollapsedState (st : State) : Item :=
  item_array (elements (collapsedGroups st)).

(** The constructor, up to [init]. *)
Definition construct (saved : Item) (search : string)
    (checkbox : option bool) : State :=
  loadCollapsedState saved (initial ∅ search checkbox).

(** [toggleGroup(groupName)]: the state and the item written. *)
Definition toggleGroup (groupName : string) (st : State) : State * Item :=
  let st1 :=
    set_collapsedGroups
      (if bool_decide (groupName ∈ collapsedGroups st)
       then collapsedGroups st ∖ {[groupName]}
       else {[groupName]} ∪ collapsedGroups st) st in
  (st1, saveCollapsedState st1).

Definition with_collapsed (b : bool) (g : GroupEl) : GroupEl :=
  {| header :=
       {| gh_group := gh_group (header g);
          gh_hidden := gh_hidden (header g);
          gh_collapsed := b;
          gh_favorites := gh_favorites (header g);
          gh_count := gh_count (header g);
          gh_display_none := gh_display_none (header g) |};
     items := items g |}.

(** [this.container.querySelectorAll('.group-header').forEach(…)]: the
    headers below the container are those of the list, when the list is
    what the container holds. *)
Definition forEachHeader (f : GroupEl -> GroupEl) (st : State) : State :=
  match container st with
  | c_list => set_listContainer (option_map (map f) (listContainer st)) st
  | _ => st
  end.

(** [expandAll()] *)
Definition expandAll (st : State) : State * Item :=
  let st1 := set_collapsedGroups ∅ st in
  (forEachHeader (with_collapsed false) st1, saveCollapsedState st1).

(** [collapseAll()] *)
Definition collapseAll (st : State) : State * Item :=
  let names := map (fun g => gh_group (header g)) (renderedGroups st) in
  let st1 :=
    set_collapsedGroups (list_to_set names ∪ collapsedGroups st) st in
  (forEachHeader (with_collapsed true) st1, saveCollapsedState st1).

(** [toggleAllGroups()] *)
Definition toggleAllGroups (st : State) : State * Item :=
  let allCollapsed :=
    forallb (fun g => gh_collapsed (header g)) (renderedGroups st) in
  if allCollapsed then expandAll st else collapseAll st.

(** The [click] listener that [attachGroupListeners] puts on a header,
    for the header of the [i]-th group of the list:
    [header.classList.toggle('collapsed')], then [toggleGroup]. *)
Definition toggleNth (i : nat) (lc : list GroupEl) : list GroupEl :=
  match nth_error lc i with
  | Some g =>
      firstn i lc
      ++ with_collapsed (negb (gh_collapsed (header g))) g :: skipn (S i) lc
  | None => lc
  end.

Definition clickHeader (i : nat) (st : State) : option (State * Item) :=
  match nth_error (renderedGroups st) i with
  | Some g =>
      Some (toggleGroup (gh_group (header g))
              (set_listContainer
                 (option_map (toggleNth i) (listContainer st)) st))
  | None => None (* there is no such header to click *)
  end.

(** *** Loading the channels *)

(** What the M3U proxy returns; of a channel, the fields the component
    reads. *)
Record M3uGroup := mkM3uGroup {
  m3u_group_id : string;
  m3u_group_name : string
}.

Record M3uChannel := mkM3uChannel {
  m3u_id : string;
  m3u_name : string;
  m3u_tvgId : option string;
  m3u_tvgLogo : option string;
  m3u_groupTitle : option string;
  m3u_url : option string
}.

Record M3uData := mkM3uData {
  data_groups : list M3uGroup;
  data_channels : list M3uChannel
}.

(** The result of an awaited call: a value, or a rejection with its
    message. *)
Inductive Reply (A : Type) :=
| replied (a : A)
| failed (message : string).

Global Arguments replied {A} a.
Global Arguments failed {A} message.

(** [`m3u_${sourceId}_${g.id}`] *)
Definition m3uGroup (sourceId : Z) (g : M3uGroup) : Group :=
  {| g_id := "m3u_" ++ pretty sourceId ++ "_" ++ m3u_group_id g;
     g_name := m3u_group_name g;
     g_sourceId := sourceId;
     g_sourceType := m3u |}.

(** [`${i}`] for the result of [findIndex]. *)
Definition indexText (i : option nat) : string :=
  match i with
  | Some n => pretty (Z.of_nat n)
  | None => "-1"
  end.

Definition m3uChannel (sourceId : Z) (groups : list M3uGroup)
    (ch : M3uChannel) : Channel :=
  {| ch_id := m3u_id ch;
     ch_streamId := None;
     ch_name := m3u_name ch;
     ch_tvgId := m3u_tvgId ch;
     ch_tvgLogo := m3u_tvgLogo ch;
     ch_groupId :=
       "m3u_" ++ pretty sourceId ++ "_group_"
       ++ indexText
            (Js.findIndex
               (fun g => match m3u_groupTitle ch with
                         | Some t => String.eqb (m3u_group_name g) t
                         | None => false
                         end) groups);
     ch_groupTitle := m3u_groupTitle ch;
     ch_sourceId := sourceId;
     ch_sourceType := m3u;
     ch_url := m3u_url ch |}.

(** [loadM3uChannels(sourceId, append)], given what the proxy call
    returned. *)
Definition loadM3uChannels (sourceId : Z) (append : bool) (data : M3uData)
    (st : State) : State :=
  let st0 := if append then st else set_groups [] (set_channels [] st) in
  let st1 :=
    set_groups (groups st0 ++ map (m3uGroup sourceId) (data_groups data))
      st0 in
  set_channels
    (channels st1
     ++ map (m3uChannel sourceId (data_groups data)) (data_channels data))
    st1.

(** The two proxies: the reply for a source id.  The two calls of
    [loadXtreamChannels] are one reply, failed when either is. *)
Definition XtreamProxy := Z -> Reply (list Category * list Stream).
Definition M3uProxy := Z -> Reply M3uData.

(** The two loops of [loadAllChannels]: the first rejection ends the
    loop. *)
Fixpoint loadEachXtream (proxy : XtreamProxy) (sources : list Db.Source)
    (st : State) : Completion :=
  match sources with
  | [] => Normal st
  | source :: rest =>
      match proxy (Db.src_id source) with
      | replied (categories, streams) =>
          loadEachXtream proxy rest
            (loadXtreamChannels (Db.src_id source) true categories streams st)
      | failed _ => Throw st
      end
  end.

Fixpoint loadEachM3u (proxy : M3uProxy) (sources : list Db.Source)
    (st : State) : Completion :=
  match sources with
  | [] => Normal st
  | source :: rest =>
      match proxy (Db.src_id source) with
      | replied data =>
          loadEachM3u proxy rest
            (loadM3uChannels (Db.src_id source) true data st)
      | failed _ => Throw st
      end
  end.

(** [this.sources.filter(s => s.type === type && s.enabled)] *)
Definition enabledOf (type : string) (sources : list Db.Source)
    : list Db.Source :=
  List.filter (fun s => String.eqb (Db.src_type s) type && Db.src_enabled s)
    sources.

(** [loadAllChannels()]; [sources] is [this.sources], [hidden] and
    [favs] are what the two calls of the flag store return. *)
Definition loadAllChannels (sources : list Db.Source)
    (xtreamProxy : XtreamProxy) (m3uProxy : M3uProxy)
    (hidden : option (list Db.HiddenItem)) (favs : option (list Db.Favorite))
    (st : State) : State :=
  let st0 := set_groups [] (set_channels [] st) in
  let st1 := set_container c_loading st0 in
  match loadEachXtream xtreamProxy (enabledOf "xtream" sources) st1 with
  | Throw st2 => st2
  | Normal st2 =>
      match loadEachM3u m3uProxy (enabledOf "m3u" sources) st2 with
      | Throw st3 => st3
      | Normal st3 =>
          (* an exception of [render] is caught and logged *)
          stateOf (render (loadFavorites favs (loadHiddenItems hidden st3)))
      end
  end.

(** The value of the source select: [""], or [`${type}:${id}`] as
    [loadSources] builds it. *)
Inductive Selected :=
| all_sources
| one_source (type : SourceType) (id : Z).

(** The source select: the options at the top and the option groups. *)
Record SelectOption := mkOption {
  opt_value : string;
  opt_text : string
}.

Record OptGroup := mkOptGroup {
  og_label : string;
  og_options : list SelectOption
}.

Record SourceSelect := mkSelect {
  sel_options : list SelectOption;
  sel_groups : list OptGroup
}.

(** [`${type}:${s.id}`] with the name as text. *)
Definition sourceOption (type : string) (s : Db.Source) : SelectOption :=
  {| opt_value := type ++ ":" ++ pretty (Db.src_id s);
     opt_text := Db.src_name s |}.

Definition optGroup (label type : string) (sources : list Db.Source)
    : list OptGroup :=
  match enabledOf type sources with
  | [] => []
  | enabled => [mkOptGroup label (map (sourceOption type) enabled)]
  end.

(** [loadSources()]: [this.sources] and the content of the select, given
    the reply of the store; a rejection is logged and changes nothing. *)
Definition loadSources (reply : Reply (list Db.Source))
    (old : list Db.Source * SourceSelect) : list Db.Source * SourceSelect :=
  match reply with
  | replied sources =>
      (sources,
       {| sel_options := [mkOption "" "All Sources"];
          sel_groups :=
            optGroup "Xtream" "xtream" sources ++ optGroup "M3U" "m3u" sources |})
  | failed _ => old
  end.

(** How [loadChannels] reads the value of the select: [""] is all
    sources; otherwise [value.split(':')] gives the type and the text of
    the id, which goes through [parseInt].  [None]: the type is neither
    of the two or the id is not a number. *)
Definition selectionOf (value : string) : option Selected :=
  if String.eqb value "" then Some all_sources
  else
    match Js.split ":" value with
    | type :: rest =>
        let id :=
          match rest with
          | text :: _ => Js.parseInt text
          | [] => None
          end in
        if String.eqb type "xtream" then option_map (one_source xtream) id
        else if String.eqb type "m3u" then option_map (one_source m3u) id
        else None
    | [] => None
    end.

(** [loadChannels()], for a value of the select that [selectionOf]
    reads as [selected].  Calls do not overlap, so [isLoading] is
    [false] on entry and on exit. *)
Definition loadChannels (selected : Selected) (sources : list Db.Source)
    (xtreamProxy : XtreamProxy) (m3uProxy : M3uProxy)
    (hidden : option (list Db.HiddenItem)) (favs : option (list Db.Favorite))
    (st : State) : State :=
  match selected with
  | all_sources =>
      loadAllChannels sources xtreamProxy m3uProxy hidden favs st
  | one_source type id =>
      let st0 := set_container c_loading st in
      let cleared := set_groups [] (set_channels [] st0) in
      let loaded : State + string :=
        match type with
        | xtream =>
            match xtreamProxy id with
            | replied (categories, streams) =>
                inl (loadXtreamChannels id false categories streams st0)
            | failed message => inr message
            end
        | m3u =>
            match m3uProxy id with
            | replied data => inl (loadM3uChannels id false data st0)
            | failed message => inr message
            end
        end in
      match loaded with
      | inl st1 =>
          match render (loadFavorites favs (loadHiddenItems hidden st1)) with
          | Normal st2 => st2
          | Throw st2 => set_container (c_error notAFunction) st2
          end
      | inr message => set_container (c_error message) cleared
      end
  end.

(** *** Markup: [escapeHtml] *)

(** The double quote. *)
Definition dquote : ascii := "034"%char.

(** [escapeHtml(text)]; [None] is [null] or [undefined]. *)
Definition escapeHtml (text : option string) : string :=
  match text with
  | None => ""
  | Some t =>
      if String.eqb t "" then ""
      else
        Js.replaceAll "'" "&#039;"
          (Js.replaceAll dquote "&quot;"
             (Js.replaceAll ">" "&gt;"
                (Js.replaceAll "<" "&lt;"
                   (Js.replaceAll "&" "&amp;" t))))
  end.

(** *** Vocabulary of the properties

    Notions that the statements of Part II are written with. *)

(** The search term of a rebuild. *)
Definition searchTerm (st : State) : string := toLowerCase (searchInput st).

(** The grouping loop gets past a channel whose group key names no
    inherited property, and through the filtered list of [st] when every
    channel of it is such. *)
Definition ownTitle (ch : Channel) : bool :=
  negb (Js.inherited (groupKey ch)).

Definition groupable (st : State) : bool :=
  forallb ownTitle (filterChannels (searchTerm st) (channels st)).

(** What the grouping loop builds when it gets through. *)
Definition pushOwn (grouped : Js.Obj (list Channel)) (ch : Channel)
    : Js.Obj (list Channel) :=
  let key := groupKey ch in
  match Js.get grouped key with
  | None => Js.set grouped key [ch]
  | Some members => Js.set grouped key (members ++ [ch])
  end.

Definition groupOwn (chs : list Channel) : Js.Obj (list Channel) :=
  fold_left pushOwn chs [].

(** The grouped view that a completed [render] computes, the state in
    which it has stored the view, and the state it leaves. *)
Definition groupedView (st : State) : Js.Obj (list Channel) :=
  addFavorites st (groupOwn (filterChannels (searchTerm st) (channels st))).

Definition resetView (st : State) : State :=
  storeView (groupOwn (filterChannels (searchTerm st) (channels st)))
    (clearView st).

Definition rendered (st : State) : State := showView (resetView st).

(** [ch] is kept by step 1 of [render]. *)
Definition passesSearch (st : State) (ch : Channel) : bool :=
  String.eqb (searchTerm st) "" || matchesSearch (searchTerm st) ch.

(** [ch] belongs to the group titled [g]. *)
Definition inGroup (g : string) (ch : Channel) : bool :=
  String.eqb (groupKey ch) g.

(** The fields that rendering reads. *)
Definition sameView (a b : State) : Prop :=
  groupedChannels a = groupedChannels b
  /\ hiddenItems a = hiddenItems b
  /\ showHidden a = showHidden b
  /\ collapsedGroups a = collapsedGroups b
  /\ currentChannel a = currentChannel b
  /\ visibleFavorites a = visibleFavorites b.

(** The groups of the next batch. *)
Definition nextSlice (st : State) : list string :=
  Js.slice (sortedGroups st) (currentBatch st * batchSize st)
    (currentBatch st * batchSize st + batchSize st).

(** Whether a member gets a row, and the identity the row carries. *)
Definition rowVisible (st : State) (isFavoritesGroup : bool) (ch : Channel)
    : bool :=
  negb (channelHiddenIn st isFavoritesGroup ch && negb (showHidden st)).

Definition channelKey (ch : Channel) : string * Z := (ch_id ch, ch_sourceId ch).

Definition rowKey (it : ChannelItem) : string * Z :=
  (data_channel_id it, data_source_id it).

(** What one group contributes: its title, the count shown in the header
    and the identities of its rows. *)
Definition groupSummary (st : State) (g : string)
    : option (string * nat * list (string * Z)) :=
  match membersOf st g with
  | [] => None
  | chs =>
      if groupHiddenIn st g && negb (showHidden st) then None
      else Some (g, length chs,
                 map channelKey
                   (List.filter (rowVisible st (String.eqb g "Favorites")) chs))
  end.

Definition elSummary (el : GroupEl) : string * nat * list (string * Z) :=
  (gh_group (header el), gh_count (header el), map rowKey (items el)).

(** The row identities that group [g] contributes. *)
Definition rowsOfGroup (st : State) (g : string) : list (string * Z) :=
  match groupSummary st g with
  | Some t => snd t
  | None => []
  end.

(** [ch] is not suppressed by the hidden rules: the show-hidden box is
    ticked, or neither the entity nor, for the entity's source, its group
    is flagged hidden. *)
Definition unsuppressed (st : State) (ch : Channel) : bool :=
  default false (showHiddenCheckbox st)
  || (negb (isHidden st "channel" (ch_sourceId ch) (ch_id ch))
      && negb (isHidden st "group" (ch_sourceId ch) (groupKey ch))).

(** [ch] gets a row under its own group by the rule of the batch
    renderer: it passes the search filter and neither it nor its group
    is skipped. *)
Definition shownInOwnGroup (st : State) (ch : Channel) : bool :=
  passesSearch st ch
  && rowVisible st false ch
  && negb (groupHiddenIn st (groupKey ch) && negb (showHidden st)).

(** The rows that show the channel [ch]. *)
Definition occurrences (ch : Channel) (rows : list ChannelItem) : nat :=
  length (List.filter (itemMatches (ch_id ch) (ch_sourceId ch)) rows).

Definition keyEqb (k x : string * Z) : bool :=
  String.eqb (fst x) (fst k) && (snd x =? snd k).

Definition countKey (k : string * Z) (l : list (string * Z)) : nat :=
  length (List.filter (keyEqb k) l).

(** The state of the list while batches are appended to the list that
    [origin] started: the rows are those of the groups emitted so far, and
    the loader is retired exactly when every group has been emitted. *)
Record Windowing (origin st : State) : Prop := {
  w_container : container st = c_list;
  w_batchSize : batchSize st = 100%nat;
  w_view : sameView st origin;
  w_sorted : sortedGroups st = sortedGroups origin;
  w_list :
    listContainer st
    = Some (fst (renderGroups origin (nextNode origin)
                   (firstn (currentBatch st * 100) (sortedGroups origin))));
  w_next :
    nextNode st
    = snd (renderGroups origin (nextNode origin)
             (firstn (currentBatch st * 100) (sortedGroups origin)));
  w_loader :
    exists l, loader st = Some l
              /\ (loader_display_none l = true
                  <-> (length (sortedGroups origin) <= currentBatch st * 100)%nat)
}.

(** The entity that stands for one character, and a text with every
    character replaced by what [f] gives for it. *)
Definition escapeChar (c : ascii) : string :=
  if Ascii.eqb c "&" then "&amp;"
  else if Ascii.eqb c "<" then "&lt;"
  else if Ascii.eqb c ">" then "&gt;"
  else if Ascii.eqb c dquote then "&quot;"
  else if Ascii.eqb c "'" then "&#039;"
  else String c "".

Fixpoint expand (f : ascii -> string) (text : string) : string :=
  match text with
  | EmptyString => EmptyString
  | String x rest => (f x ++ expand f rest)%string
  end.

(** A character that is markup in element content or in an attribute
    value. *)
Definition isMarkup (c : ascii) : bool :=
  Ascii.eqb c "<" || Ascii.eqb c ">" || Ascii.eqb c dquote
  || Ascii.eqb c "'".

(** One fetch of [loadAllChannels]: whether it is answered, and the
    channels it contributes. *)
Inductive Job :=
| job_xtream (source : Db.Source)
| job_m3u (source : Db.Source).

Definition jobsOf (sources : list Db.Source) : list Job :=
  map job_xtream (enabledOf "xtream" sources)
  ++ map job_m3u (enabledOf "m3u" sources).

Definition jobSource (j : Job) : Db.Source :=
  match j with job_xtream s => s | job_m3u s => s end.

Definition answered (xtreamProxy : XtreamProxy) (m3uProxy : M3uProxy)
    (j : Job) : bool :=
  match j with
  | job_xtream s =>
      match xtreamProxy (Db.src_id s) with
      | replied _ => true | failed _ => false end
  | job_m3u s =>
      match m3uProxy (Db.src_id s) with
      | replied _ => true | failed _ => false end
  end.

Definition jobChannels (xtreamProxy : XtreamProxy) (m3uProxy : M3uProxy)
    (j : Job) : list Channel :=
  match j with
  | job_xtream s =>
      match xtreamProxy (Db.src_id s) with
      | replied (categories, streams) =>
          uniqueChannels (Db.src_id s) categories streams
      | failed _ => []
      end
  | job_m3u s =>
      match m3uProxy (Db.src_id s) with
      | replied data =>
          map (m3uChannel (Db.src_id s) (data_groups data))
            (data_channels data)
      | failed _ => []
      end
  end.

(** The fetch of [loadChannels] for one selected source. *)
Definition selectedJob (type : SourceType) (id : Z) : Job :=
  match type with
  | xtream => job_xtream (Db.mkSource id "xtream" "" true)
  | m3u => job_m3u (Db.mkSource id "m3u" "" true)
  end.

(** The longest prefix whose elements satisfy [p]. *)
Fixpoint takeWhile {A} (p : A -> bool) (l : list A) : list A :=
  match l with
  | [] => []
  | x :: r => if p x then x :: takeWhile p r else []
  end.

(** The ids within one reply are pairwise different. *)
Definition distinctIds (xtreamProxy : XtreamProxy) (m3uProxy : M3uProxy)
    (j : Job) : Prop :=
  match j with
  | job_xtream s =>
      match xtreamProxy (Db.src_id s) with
      | replied (_, streams) => NoDup (map stream_id streams)
      | failed _ => True
      end
  | job_m3u s =>
      match m3uProxy (Db.src_id s) with
      | replied data => NoDup (map m3u_id (data_channels data))
      | failed _ => True
      end
  end.

(** The type of a source as the store spells it. *)
Definition typeText (type : SourceType) : string :=
  match type with xtream => "xtream" | m3u => "m3u" end.

(** The message of the rejection, if the fetch of the selected source is
    rejected. *)
Definition rejection (type : SourceType) (id : Z)
    (xtreamProxy : XtreamProxy) (m3uProxy : M3uProxy) : option string :=
  match type with
  | xtream =>
      match xtreamProxy id with
      | replied _ => None | failed message => Some message end
  | m3u =>
      match m3uProxy id with
      | replied _ => None | failed message => Some message end
  end.

(** What can happen to the page: the listeners that [init] and
    [attachGroupListeners] install, and the methods called from outside.
    A typed search text reaches [render] when the debounce timer fires. *)
Inductive Event :=
| ev_loadChannels (selected : Selected) (sources : list Db.Source)
    (xtreamProxy : XtreamProxy) (m3uProxy : M3uProxy)
    (hidden : option (list Db.HiddenItem)) (favs : option (list Db.Favorite))
| ev_search (text : string)
| ev_showHidden (checked : bool)
| ev_sentinel
| ev_render
| ev_clickHeader (i : nat)
| ev_expandAll
| ev_collapseAll
| ev_toggleAllGroups
| ev_toggleFavorite (sourceId : Z) (channelId : string) (remoteOk : bool)
| ev_syncFavorite (sourceId : Z) (channelId : string) (isFav : bool)
| ev_selectChannel (channelId : string) (resolved : option string)
| ev_selectNext (resolved : option string)
| ev_selectPrev (resolved : option string)
| ev_contextAction (action : Action) (target : Target) (hideOk : bool)
    (resolved : option string).

(** The component and the stored item after the event. *)
Definition step (w : State * Item) (e : Event) : State * Item :=
  let '(st, saved) := w in
  match e with
  | ev_loadChannels selected sources xtreamProxy m3uProxy hidden favs =>
      (loadChannels selected sources xtreamProxy m3uProxy hidden favs st,
       saved)
  | ev_search text => (stateOf (render (set_searchInput text st)), saved)
  | ev_showHidden checked =>
      match showHiddenCheckbox st with
      | Some _ =>
          (stateOf (render (set_showHiddenCheckbox (Some checked) st)), saved)
      | None => w
      end
  | ev_sentinel => (sentinelReached st, saved)
  | ev_render => (stateOf (render st), saved)
  | ev_clickHeader i => default w (clickHeader i st)
  | ev_expandAll => expandAll st
  | ev_collapseAll => collapseAll st
  | ev_toggleAllGroups => toggleAllGroups st
  | ev_toggleFavorite sourceId channelId remoteOk =>
      (final (toggleFavorite sourceId channelId remoteOk st), saved)
  | ev_syncFavorite sourceId channelId isFav =>
      (stateOf (syncFavorite sourceId channelId isFav st), saved)
  | ev_selectChannel channelId resolved =>
      (final (selectChannel channelId resolved st), saved)
  | ev_selectNext resolved => (final (selectNextChannel resolved st), saved)
  | ev_selectPrev resolved => (final (selectPrevChannel resolved st), saved)
  | ev_contextAction action target hideOk resolved =>
      (m_final (handleContextAction action (showContextMenu target) hideOk
                  resolved st), saved)
  end.

(** The texts of a channel that the renderer writes into markup without
    escaping them, some of which the component pastes into selectors
    too, are plain: rows, headers and selectors then are what the tree of
    records takes them to be. *)
Definition markupSafe (ch : Channel) : bool :=
  Js.plain (ch_id ch) && Js.plain (groupKey ch)
  && Js.plain (urlAttr ch) && Js.plain (Js.or_else (ch_tvgLogo ch) "").

(** The channels that a call of [loadChannels] puts in the collection. *)
Definition loadedBy (selected : Selected) (sources : list Db.Source)
    (xtreamProxy : XtreamProxy) (m3uProxy : M3uProxy) : list Channel :=
  match selected with
  | all_sources =>
      flat_map (jobChannels xtreamProxy m3uProxy)
        (takeWhile (answered xtreamProxy m3uProxy) (jobsOf sources))
  | one_source type id =>
      jobChannels xtreamProxy m3uProxy (selectedJob type id)
  end.

(** What an event brings is plain text where the component writes it
    into markup or into a selector without escaping it: the texts of the
    loaded channels, and the id that [toggleFavorite] and [syncFavorite]
    are called with. *)
Definition safeEvent (e : Event) : bool :=
  match e with
  | ev_loadChannels selected sources xtreamProxy m3uProxy _ _ =>
      forallb markupSafe (loadedBy selected sources xtreamProxy m3uProxy)
  | ev_toggleFavorite _ channelId _ => Js.plain channelId
  | ev_syncFavorite _ channelId _ => Js.plain channelId
  | _ => true
  end.

(** [createChannelElement] writes the program title into the row without
    escaping it: the titles that the guide reports are plain. *)
Definition plainPrograms : Prop :=
  forall channel, Js.plain (Js.or_else (getProgramInfo channel) "") = true.

(** The group that an element of the list is for. *)
Definition groupOf (g : GroupEl) : string := gh_group (header g).

(** Every header in the document shows its group collapsed exactly when
    the group is in the set. *)
Definition flagsShown (st : State) : Prop :=
  Forall (fun g => gh_collapsed (header g)
                   = bool_decide (groupOf g ∈ collapsedGroups st))
    (renderedGroups st).

(** The headers agree with the set, and the stored item is the set: a
    component constructed now would start from it. *)
Definition collapsedInSync (w : State * Item) : Prop :=
  flagsShown (fst w)
  /\ forall search checkbox,
       collapsedGroups (construct (snd w) search checkbox)
       = collapsedGroups (fst w).

(** The names of the headers of the list are names of groups already
    emitted, each at most once. *)
Definition headersEmitted (st : State) : Prop :=
  NoDup (sortedGroups st)
  /\ sublist (map groupOf (renderedGroups st))
       (firstn (currentBatch st * batchSize st) (sortedGroups st)).

(** A Favorites element mirrors the Favorites array: its rows are the
    channels of the array, in order, and its header shows their number. *)
Definition mirrors (members : list Channel) (g : GroupEl) : Prop :=
  groupOf g = "Favorites" ->
  map rowKey (items g) = map channelKey members
  /\ gh_count (header g) = length members.

Definition favoritesMirrored (st : State) : Prop :=
  Forall (mirrors (membersOf st "Favorites")) (renderedGroups st).

(** What the notions above read: of an element, its name, its flag, its
    count and the identities of its rows. *)
Definition elView (g : GroupEl) : string * bool * nat * list (string * Z) :=
  (groupOf g, gh_collapsed (header g), gh_count (header g),
   map rowKey (items g)).

Definition headerView (st : State) :=
  (map elView (renderedGroups st), collapsedGroups st,
   membersOf st "Favorites", sortedGroups st, currentBatch st, batchSize st).

Definition good (st : State) : Prop :=
  flagsShown st /\ headersEmitted st /\ favoritesMirrored st.

(** The step from [st] to [st'] leaves the set alone and keeps [good]. *)
Definition keeps (st st' : State) : Prop :=
  collapsedGroups st' = collapsedGroups st /\ (good st -> good st').

(** The [catch] block of [toggleFavorite] ran: its error is in the log. *)
Definition reverted (o : Outcome) : bool :=
  existsb (fun e => match e with console_error _ => true | _ => false end)
    (effects o).

(** The cached set after one flip of [key]. *)
Definition flipped (key : string) (favs : gset string) : gset string :=
  if bool_decide (key ∈ favs) then favs ∖ {[key]} else {[key]} ∪ favs.

End Engine.

End ChannelList.

(** ** A reference host

    Concrete host functions for the closed examples below: ASCII
    lower-casing and comparison by code units. *)

Module Host.

Definition lowerChar (a : ascii) : ascii :=
  let n := N_of_ascii a in
  if ((65 <=? n) && (n <=? 90))%N then ascii_of_N (n + 32) else a.

Fixpoint toLowerCase (s : string) : string :=
  match s with
  | EmptyString => EmptyString
  | String a r => String (lowerChar a) (toLowerCase r)
  end.

Fixpoint localeCompare (a b : string) : Z :=
  match a, b with
  | EmptyString, EmptyString => 0
  | EmptyString, String _ _ => -1
  | String _ _, EmptyString => 1
  | String x a', String y b' =>
      let d := Z.of_N (N_of_ascii x) - Z.of_N (N_of_ascii y) in
      if d =? 0 then localeCompare a' b' else d
  end.

(** The message of the [TypeError] that a call of [push] on a value
    without such a method raises. *)
Definition notAFunction : string :=
  "groupedChannels[groupKey].push is not a function".

(** An EPG guide that knows one programme title for every channel. *)
Definition programTitle (channel : ChannelList.Channel) : option string :=
  Some "News at Ten".

End Host.

(** ** Scenarios

    Small concrete states, built the way [loadChannels] builds them, for
    the closed examples of Part II. *)

Module Scenario.

Import ChannelList.

Definition render (st : State) : State :=
  stateOf (ChannelList.render Host.toLowerCase Host.localeCompare st).

Definition toggleFavorite :=
  ChannelList.toggleFavorite Host.toLowerCase Host.localeCompare true.

(** One Xtream source with a category "News" holding CNN and BBC. *)
Definition news : list Category := [mkCategory "1" "News"].

Definition newsStreams : list Stream :=
  [mkStream 10 "CNN" None None "1"; mkStream 11 "BBC" None None "1"].

Definition fresh : State := initial ∅ "" (Some false).

(** Both channels are favorites; the list has been rendered. *)
Definition twoFavorites : State :=
  render
    (loadFavorites
       (Some [Db.mkFavorite 1 1 "xtream_1_10" "channel";
              Db.mkFavorite 2 1 "xtream_1_11" "channel"])
       (loadXtreamChannels 1 false news newsStreams fresh)).

(** CNN alone is a favorite. *)
Definition oneFavorite : State :=
  render
    (loadFavorites (Some [Db.mkFavorite 1 1 "xtream_1_10" "channel"])
       (loadXtreamChannels 1 false news newsStreams fresh)).


(** "All sources": sources 1 and 2 both have a category "News"; the
    group is hidden for source 2 only. *)
Definition twoSources : State :=
  render
    (loadHiddenItems (Some [Db.mkHidden 1 2 "group" "News"])
       (loadXtreamChannels 2 true news [mkStream 20 "BBC" None None "1"]
          (loadXtreamChannels 1 true news [mkStream 10 "CNN" None None "1"]
             fresh))).


(** No favorites, nothing hidden. *)
Definition plain : State :=
  render (loadXtreamChannels 1 false news newsStreams fresh).

(** The two channels of the "News" source, and a row of BBC. *)
Definition cnn : Channel := streamChannel 1 news (mkStream 10 "CNN" None None "1").

Definition bbc : Channel := streamChannel 1 news (mkStream 11 "BBC" None None "1").

Definition bbcRow : ChannelItem :=
  {| node := 1%nat; item_active := false; item_hidden := false;
     data_channel_id := "xtream_1_11"; data_source_id := 1;
     data_source_type := xtream; data_stream_id := "11"; data_url := "";
     item_name := "BBC"; item_btn := favBtn false |}.

(** The plain list with CNN selected. *)
Definition watching : State :=
  final (selectChannel true "xtream_1_10" (Some "http://host/10.ts") plain).

(** BBC is individually hidden; the list is still to be rendered. *)
Definition hiddenMemberLoaded : State :=
  loadHiddenItems (Some [Db.mkHidden 1 1 "channel" "xtream_1_11"])
    (loadXtreamChannels 1 false news newsStreams fresh).

(** A store with one hidden channel and one favorite. *)
Definition store : Db.File :=
  Db.favorites_add 1 "xtream_1_10" "channel"
    (Db.hiddenItems_hide 1 "channel" "xtream_1_11" None).

(** Three sources: an Xtream one that answers, an M3U one that answers,
    and a disabled one. *)
Definition threeSources : list Db.Source :=
  [Db.mkSource 1 "xtream" "News" true; Db.mkSource 2 "m3u" "Local" true;
   Db.mkSource 3 "xtream" "Old" false].

Definition xtreamProxy : XtreamProxy :=
  fun id => if id =? 1 then replied (news, newsStreams)
            else failed "unreachable".

Definition m3uProxy : M3uProxy :=
  fun _ =>
    replied
      {| data_groups := [mkM3uGroup "group_0" "Local"];
         data_channels :=
           [mkM3uChannel "tv1" "TV 1" None None (Some "Local") (Some "http://host/1");
            mkM3uChannel "tv2" "TV 2" None None (Some "Local") (Some "http://host/2")] |}.





(** A session: the channels of the three sources are loaded, CNN and then
    BBC are made favorites, the first header is clicked, and CNN is
    unmarked again. *)
Definition session : list Event :=
  [ev_loadChannels all_sources threeSources xtreamProxy m3uProxy
     (Some []) (Some []);
   ev_toggleFavorite 1 "xtream_1_10" true;
   ev_toggleFavorite 1 "xtream_1_11" true;
   ev_clickHeader 0;
   ev_toggleFavorite 1 "xtream_1_10" true].

(** The Favorites element at the end of the session, for a component
    constructed over an empty storage. *)
Definition favoritesEl : GroupEl :=
  {| header :=
       {| gh_group := "Favorites"; gh_hidden := false; gh_collapsed := true;
          gh_favorites := true; gh_count := 1; gh_display_none := false |};
     items :=
       [{| node := 9%nat; item_active := false; item_hidden := false;
           data_channel_id := "xtream_1_11"; data_source_id := 1;
           data_source_type := xtream; data_stream_id := "11";
           data_url := ""; item_name := "BBC"; item_btn := favBtn true |}] |}.

End Scenario.

(* ===================================================================== *)
(** * Part II: properties                                                 *)
(* ===================================================================== *)

(** ** The store: [sources.delete] *)

Section DbProperties.

Import Db.

Lemma strict_neq_num (x y : Z) : strict_neq x (Some y) = true <-> x <> y.
Proof.
  unfold strict_neq. rewrite negb_true_iff, Z.eqb_neq. reflexivity.
Qed.

Lemma loadDb_saveDb_lists (db : T) :
  sources (loadDb (saveDb db)) = sources db
  /\ hiddenItems (loadDb (saveDb db)) = hiddenItems db
  /\ favorites (loadDb (saveDb db)) = favorites db.
Proof. repeat split. Qed.

(** C10.  [sources.delete(id)] removes the source record with that id and
    every hidden-item record of that source, keeps every other source and
    hidden-item record, and leaves the favorites list as it was: the
    favorite records of the deleted source stay in the store. *)
Theorem sources_delete_keeps_favorites (f : File) (id : Z) :
  let before := loadDb f in
  let after := loadDb (sources_delete (Some id) f) in
  (forall s, In s (sources after) <-> In s (sources before) /\ src_id s <> id)
  /\ (forall h, In h (hiddenItems after)
                <-> In h (hiddenItems before) /\ hid_source_id h <> id)
  /\ favorites after = favorites before
  /\ (forall x, In x (favorites before) -> fav_source_id x = id ->
                In x (favorites after)).
Proof.
  intros before after. subst before after. unfold sources_delete.
  destruct (loadDb_saveDb_lists
    {| sources := List.filter (fun s => strict_neq (src_id s) (Some id))
                    (sources (loadDb f));
       hiddenItems := List.filter
                    (fun h => strict_neq (hid_source_id h) (Some id))
                    (hiddenItems (loadDb f));
       favorites := favorites (loadDb f);
       nextId := nextId (loadDb f) |}) as (Hs & Hh & Hf).
  cbn [sources hiddenItems favorites nextId] in *.
  rewrite Hs, Hh, Hf.
  split; [|split; [|split]].
  - intros s. rewrite filter_In, strict_neq_num. reflexivity.
  - intros h. rewrite filter_In, strict_neq_num. reflexivity.
  - reflexivity.
  - intros x Hx _. exact Hx.
Qed.

End DbProperties.

(** ** The store: hidden items, favorites and sources *)

Section DbOperations.

Import Db.

Lemma or_one_nonzero (x : option Z) : or_one x <> 0.
Proof.
  unfold or_one. destruct x as [v|]; [|lia].
  destruct (Z.eqb_spec v 0); lia.
Qed.

Lemma loadDb_saveDb (db : T) : nextId db <> 0 -> loadDb (saveDb db) = db.
Proof.
  intros Hn. destruct db as [ss hs fs n]. unfold loadDb, saveDb. simpl in *.
  f_equal. destruct (Z.eqb_spec n 0); [contradiction|reflexivity].
Qed.

Lemma loadDb_nextId (f : File) : nextId (loadDb f) <> 0.
Proof. destruct f as [d|]; simpl; [apply or_one_nonzero|lia]. Qed.

(** Reading back what was read changes nothing. *)
Lemma loadDb_normal (f : File) : loadDb (saveDb (loadDb f)) = loadDb f.
Proof. apply loadDb_saveDb, loadDb_nextId. Qed.

Lemma existsb_filter {A} (p q : A -> bool) (l : list A) :
  existsb p (List.filter q l) = existsb (fun x => q x && p x) l.
Proof.
  induction l as [|x l IH]; simpl; [reflexivity|].
  destruct (q x); simpl; now rewrite IH.
Qed.

Lemma existsb_pointwise {A} (p q : A -> bool) (l : list A) :
  (forall x, p x = q x) -> existsb p l = existsb q l.
Proof.
  intros H. induction l as [|x l IH]; simpl; [reflexivity|].
  now rewrite H, IH.
Qed.

Lemma existsb_and_const {A} (b : bool) (p : A -> bool) (l : list A) :
  existsb (fun x => b && p x) l = b && existsb p l.
Proof.
  induction l as [|x l IH]; simpl; [now rewrite andb_false_r|].
  rewrite IH. now destruct b, (p x).
Qed.

Lemma filter_none {A} (p : A -> bool) (l : list A) :
  existsb p l = false -> List.filter (fun x => negb (p x)) l = l.
Proof.
  induction l as [|x l IH]; simpl; [reflexivity|].
  intros H. apply orb_false_iff in H. destruct H as [Hx Hl].
  rewrite Hx. simpl. now rewrite IH.
Qed.

(** *** Hidden items *)

Lemma sameHidden_triple s t i s' t' i' h :
  sameHidden s t i h = true ->
  sameHidden s' t' i' h = sameTriple s t i s' t' i'.
Proof.
  unfold sameHidden, sameTriple. rewrite !andb_true_iff.
  intros [[Hs Ht] Hi]. apply Z.eqb_eq in Hs. apply String.eqb_eq in Ht, Hi.
  now rewrite Hs, Ht, Hi.
Qed.

Lemma sameTriple_refl s t i : sameTriple s t i s t i = true.
Proof. unfold sameTriple. now rewrite Z.eqb_refl, !String.eqb_refl. Qed.

Lemma sameTriple_eq s t i s' t' i' :
  sameTriple s t i s' t' i' = true <-> s = s' /\ t = t' /\ i = i'.
Proof.
  unfold sameTriple. rewrite !andb_true_iff, Z.eqb_eq, !String.eqb_eq. tauto.
Qed.

Lemma sameTriple_sym s t i s' t' i' :
  sameTriple s t i s' t' i' = sameTriple s' t' i' s t i.
Proof.
  unfold sameTriple. now rewrite (Z.eqb_sym s), (String.eqb_sym t),
    (String.eqb_sym i).
Qed.

(** Among the records that match one triple, matching another triple is
    being the same triple. *)
Lemma existsb_sameHidden_and s t i s' t' i' (b : bool) l :
  existsb (fun h => (if sameHidden s t i h then b else true)
                    && sameHidden s' t' i' h) l
  = (if sameTriple s t i s' t' i' then b else true)
    && existsb (sameHidden s' t' i') l.
Proof.
  induction l as [|h l IH]; simpl; [now rewrite andb_false_r|].
  rewrite IH. destruct (sameHidden s' t' i' h) eqn:E'.
  - rewrite (sameHidden_triple s' t' i' s t i h E'), sameTriple_sym.
    destruct (sameTriple s t i s' t' i'), b; reflexivity.
  - rewrite andb_false_r. simpl. reflexivity.
Qed.

(** X1.  Hiding is insert-if-absent: afterwards the triple is hidden, every
    other triple is as before, and hiding again writes nothing. *)
Theorem hide_then_isHidden s t i f :
  (forall s' t' i',
      hiddenItems_isHidden s' t' i' (hiddenItems_hide s t i f)
      = sameTriple s t i s' t' i' || hiddenItems_isHidden s' t' i' f)
  /\ hiddenItems_hide s t i (hiddenItems_hide s t i f)
     = hiddenItems_hide s t i f.
Proof.
  assert (Hlaw : forall s' t' i',
             hiddenItems_isHidden s' t' i' (hiddenItems_hide s t i f)
             = sameTriple s t i s' t' i' || hiddenItems_isHidden s' t' i' f).
  { intros s' t' i'. unfold hiddenItems_isHidden, hiddenItems_hide.
    destruct (existsb (sameHidden s t i) (hiddenItems (loadDb f))) eqn:E.
    - destruct (sameTriple s t i s' t' i') eqn:Et; [|reflexivity].
      apply sameTriple_eq in Et. destruct Et as (<- & <- & <-). now rewrite E.
    - cbn [loadDb saveDb hiddenItems or_default d_hiddenItems].
      rewrite existsb_app. simpl.
      unfold sameHidden at 2. simpl. fold (sameTriple s t i s' t' i').
      rewrite orb_false_r. apply orb_comm. }
  split; [exact Hlaw|].
  unfold hiddenItems_hide at 1.
  assert (H : hiddenItems_isHidden s t i (hiddenItems_hide s t i f) = true)
    by (rewrite Hlaw, sameTriple_refl; reflexivity).
  unfold hiddenItems_isHidden in H. now rewrite H.
Qed.

(** X2.  Showing is delete: afterwards the triple is not hidden and every other
    triple is as before. *)
Theorem show_then_isHidden s t i f s' t' i' :
  hiddenItems_isHidden s' t' i' (hiddenItems_show s t i f)
  = negb (sameTriple s t i s' t' i') && hiddenItems_isHidden s' t' i' f.
Proof.
  unfold hiddenItems_isHidden, hiddenItems_show.
  cbn [loadDb saveDb hiddenItems or_default d_hiddenItems].
  rewrite existsb_filter.
  rewrite (existsb_pointwise _
             (fun h => (if sameHidden s t i h then false else true)
                       && sameHidden s' t' i' h))
    by (intros h; now destruct (sameHidden s t i h)).
  rewrite existsb_sameHidden_and.
  now destruct (sameTriple s t i s' t' i').
Qed.

(** X3.  Hiding something that was not hidden and showing it again leaves the
    three collections as they were. *)
Theorem show_undoes_hide s t i f :
  hiddenItems_isHidden s t i f = false ->
  let f' := hiddenItems_show s t i (hiddenItems_hide s t i f) in
  hiddenItems (loadDb f') = hiddenItems (loadDb f)
  /\ sources (loadDb f') = sources (loadDb f)
  /\ favorites (loadDb f') = favorites (loadDb f).
Proof.
  unfold hiddenItems_isHidden. intros Hno. cbv zeta.
  unfold hiddenItems_show, hiddenItems_hide. rewrite Hno.
  cbn [loadDb saveDb sources hiddenItems favorites or_default d_sources
       d_hiddenItems d_favorites].
  split; [|split; reflexivity].
  rewrite List.filter_app, (filter_none _ _ Hno). simpl.
  unfold sameHidden at 1. simpl.
  rewrite Z.eqb_refl, !String.eqb_refl. simpl. apply app_nil_r.
Qed.

(** *** Favorites *)

Lemma sameFavorite_triple s i t s' i' t' x :
  sameFavorite s i t x = true ->
  sameFavorite s' i' t' x = sameTriple s i t s' i' t'.
Proof.
  unfold sameFavorite, sameTriple. rewrite !andb_true_iff.
  intros [[Hs Hi] Ht]. apply Z.eqb_eq in Hs. apply String.eqb_eq in Ht, Hi.
  now rewrite Hs, Ht, Hi.
Qed.

Lemma existsb_sameFavorite_and s i t s' i' t' (b : bool) l :
  existsb (fun x => (if sameFavorite s i t x then b else true)
                    && sameFavorite s' i' t' x) l
  = (if sameTriple s i t s' i' t' then b else true)
    && existsb (sameFavorite s' i' t') l.
Proof.
  induction l as [|x l IH]; simpl; [now rewrite andb_false_r|].
  rewrite IH. destruct (sameFavorite s' i' t' x) eqn:E'.
  - rewrite (sameFavorite_triple s' i' t' s i t x E'), sameTriple_sym.
    destruct (sameTriple s i t s' i' t'), b; reflexivity.
  - rewrite andb_false_r. simpl. reflexivity.
Qed.

(** X4.  The favorites of the store behave as a set of triples: adding inserts
    the triple and nothing else, adding again writes nothing, removing
    deletes the triple and nothing else, and neither touches the sources
    or the hidden items. *)
Theorem favorites_add_remove_lookup s i t f :
  (forall s' i' t',
      favorites_isFavorite s' i' t' (favorites_add s i t f)
      = sameTriple s i t s' i' t' || favorites_isFavorite s' i' t' f)
  /\ favorites_add s i t (favorites_add s i t f) = favorites_add s i t f
  /\ (forall s' i' t',
      favorites_isFavorite s' i' t' (favorites_remove s i t f)
      = negb (sameTriple s i t s' i' t') && favorites_isFavorite s' i' t' f)
  /\ hiddenItems (loadDb (favorites_add s i t f)) = hiddenItems (loadDb f)
  /\ hiddenItems (loadDb (favorites_remove s i t f)) = hiddenItems (loadDb f)
  /\ sources (loadDb (favorites_add s i t f)) = sources (loadDb f)
  /\ sources (loadDb (favorites_remove s i t f)) = sources (loadDb f).
Proof.
  assert (Hlaw : forall s' i' t',
             favorites_isFavorite s' i' t' (favorites_add s i t f)
             = sameTriple s i t s' i' t' || favorites_isFavorite s' i' t' f).
  { intros s' i' t'. unfold favorites_isFavorite, favorites_add.
    destruct (existsb (sameFavorite s i t) (favorites (loadDb f))) eqn:E.
    - destruct (sameTriple s i t s' i' t') eqn:Et; [|reflexivity].
      apply sameTriple_eq in Et. destruct Et as (<- & <- & <-). now rewrite E.
    - cbn [loadDb saveDb favorites or_default d_favorites].
      rewrite existsb_app. simpl.
      unfold sameFavorite at 2. simpl. fold (sameTriple s i t s' i' t').
      rewrite orb_false_r. apply orb_comm. }
  split; [exact Hlaw|]. split; [|split].
  - unfold favorites_add at 1.
    assert (H : favorites_isFavorite s i t (favorites_add s i t f) = true)
      by (rewrite Hlaw, sameTriple_refl; reflexivity).
    unfold favorites_isFavorite in H. now rewrite H.
  - intros s' i' t'. unfold favorites_isFavorite, favorites_remove.
    cbn [loadDb saveDb favorites or_default d_favorites].
    rewrite existsb_filter.
    rewrite (existsb_pointwise _
               (fun x => (if sameFavorite s i t x then false else true)
                         && sameFavorite s' i' t' x))
      by (intros x; now destruct (sameFavorite s i t x)).
    rewrite existsb_sameFavorite_and.
    now destruct (sameTriple s i t s' i' t').
  - unfold favorites_add, favorites_remove.
    destruct (existsb (sameFavorite s i t) (favorites (loadDb f)));
      repeat split.
Qed.

(** *** Bulk operations *)

Lemma bulkHideLoop_flag items db :
  snd (bulkHideLoop items db true) = true.
Proof.
  revert db. induction items as [|item rest IH]; intros db; simpl;
    [reflexivity|].
  destruct (existsb _ (hiddenItems db)); apply IH.
Qed.

Lemma bulkHideLoop_fold items : forall f m,
  0 < nextId (loadDb f) ->
  (m = true -> f = saveDb (loadDb f)) ->
  (if snd (bulkHideLoop items (loadDb f) m)
   then saveDb (fst (bulkHideLoop items (loadDb f) m)) else f)
  = fold_left (fun f item =>
                 hiddenItems_hide (bi_sourceId item) (bi_itemType item)
                   (bi_itemId item) f) items f.
Proof.
  induction items as [|item rest IH]; intros f m Hpos Hm.
  - simpl. destruct m; [symmetry; now apply Hm|reflexivity].
  - cbn [bulkHideLoop fold_left]. unfold hiddenItems_hide at 2.
    destruct (existsb _ (hiddenItems (loadDb f))) eqn:E.
    + now apply IH.
    + set (db1 := {| sources := sources (loadDb f);
                     hiddenItems := _;
                     favorites := favorites (loadDb f);
                     nextId := nextId (loadDb f) + 1 |}).
      assert (Hload : loadDb (saveDb db1) = db1)
        by (apply loadDb_saveDb; simpl; lia).
      specialize (IH (saveDb db1) true). rewrite Hload in IH.
      rewrite <- IH; [|simpl; lia|reflexivity].
      now rewrite bulkHideLoop_flag.
Qed.

(** X5.  On a store whose counter is positive, [bulkHide] writes the very file
    that hiding the items one after the other writes. *)
Theorem bulkHide_is_repeated_hide items f :
  0 < nextId (loadDb f) ->
  hiddenItems_bulkHide items f
  = fold_left (fun f item =>
                 hiddenItems_hide (bi_sourceId item) (bi_itemType item)
                   (bi_itemId item) f) items f.
Proof.
  intros Hpos. unfold hiddenItems_bulkHide.
  rewrite <- (bulkHideLoop_fold items f false Hpos) by discriminate.
  now destruct (bulkHideLoop items (loadDb f) false).
Qed.

Lemma filter_length_same {A} (p : A -> bool) (l : list A) :
  length (List.filter p l) = length l -> List.filter p l = l.
Proof.
  induction l as [|x l IH]; simpl; [reflexivity|].
  destruct (p x); simpl; intros H.
  - f_equal. apply IH. lia.
  - pose proof (List.filter_length_le p l). lia.
Qed.

Lemma sameHidden_signature s t i h :
  sameHidden s t i h = true ->
  signature (hid_source_id h) (hid_item_type h) (hid_item_id h)
  = signature s t i.
Proof.
  unfold sameHidden. rewrite !andb_true_iff.
  intros [[Hs Ht] Hi]. apply Z.eqb_eq in Hs. apply String.eqb_eq in Ht, Hi.
  now rewrite Hs, Ht, Hi.
Qed.

(** X6.  [bulkShow] removes by signature: afterwards a triple is hidden exactly
    when it was hidden before and its signature is not the signature of
    one of the items. *)
Theorem bulkShow_then_isHidden items f s t i :
  hiddenItems_isHidden s t i (hiddenItems_bulkShow items f)
  = negb (bool_decide
            (signature s t i
             ∈ map (fun x => signature (bi_sourceId x) (bi_itemType x)
                               (bi_itemId x)) items))
    && hiddenItems_isHidden s t i f.
Proof.
  unfold hiddenItems_isHidden, hiddenItems_bulkShow.
  set (sigs := map _ items).
  set (keep := fun h : HiddenItem =>
         negb (bool_decide
                 (signature (hid_source_id h) (hid_item_type h)
                    (hid_item_id h) ∈ (list_to_set sigs : gset string)))).
  assert (Hkept :
    existsb (sameHidden s t i) (List.filter keep (hiddenItems (loadDb f)))
    = negb (bool_decide (signature s t i ∈ sigs))
      && existsb (sameHidden s t i) (hiddenItems (loadDb f))).
  { rewrite existsb_filter.
    rewrite (existsb_pointwise _
               (fun h => negb (bool_decide (signature s t i ∈ sigs))
                         && sameHidden s t i h)).
    - apply existsb_and_const.
    - intros h. subst keep. cbv beta.
      destruct (sameHidden s t i h) eqn:E; [|now rewrite !andb_false_r].
      rewrite (sameHidden_signature _ _ _ _ E), !andb_true_r.
      f_equal. apply bool_decide_ext. apply elem_of_list_to_set. }
  destruct (length (List.filter keep (hiddenItems (loadDb f)))
            =? length (hiddenItems (loadDb f)))%nat eqn:El.
  - apply Nat.eqb_eq, filter_length_same in El.
    rewrite <- Hkept, El. reflexivity.
  - cbn [loadDb saveDb hiddenItems or_default d_hiddenItems]. exact Hkept.
Qed.

(** *** Identifiers *)

Lemma sublist_map_filter {A B} (g : A -> B) (p : A -> bool) (l : list A) :
  sublist (map g (List.filter p l)) (map g l).
Proof.
  induction l as [|x l IH]; simpl; [constructor|].
  destruct (p x); simpl; now constructor.
Qed.

Lemma wellNumbered_sub db db' :
  sublist (allIds db') (allIds db) -> nextId db' = nextId db ->
  wellNumbered db -> wellNumbered db'.
Proof.
  intros Hsub Hn (Hnd & Hpos & Hlt). unfold wellNumbered. rewrite Hn.
  split; [|split].
  - eapply sublist_NoDup; eassumption.
  - exact Hpos.
  - rewrite Forall_forall in *. intros x Hx. apply Hlt.
    eapply elem_of_sublist; eassumption.
Qed.

Lemma wellNumbered_alloc db db' :
  Permutation (allIds db') (nextId db :: allIds db) ->
  nextId db' = nextId db + 1 ->
  wellNumbered db -> wellNumbered db'.
Proof.
  intros Hperm Hn (Hnd & Hpos & Hlt). unfold wellNumbered.
  rewrite Hn, Hperm. split; [|split].
  - apply NoDup_cons. split; [|exact Hnd].
    intros Hin. rewrite Forall_forall in Hlt. apply Hlt in Hin. lia.
  - lia.
  - apply Forall_cons. split; [lia|].
    eapply Forall_impl; [exact Hlt|]. intros x Hx. simpl in Hx. lia.
Qed.

Lemma wellNumbered_load db :
  wellNumbered db -> loadDb (saveDb db) = db.
Proof. intros (_ & Hpos & _). apply loadDb_saveDb. lia. Qed.

Lemma wellNumbered_hidden_alloc db s t i :
  wellNumbered db ->
  wellNumbered
    {| sources := sources db;
       hiddenItems :=
         hiddenItems db
         ++ [{| hid_id := nextId db; hid_source_id := s;
                hid_item_type := t; hid_item_id := i |}];
       favorites := favorites db;
       nextId := nextId db + 1 |}.
Proof.
  apply wellNumbered_alloc; [|reflexivity].
  unfold allIds. cbn [sources hiddenItems favorites nextId].
  rewrite map_app. cbn [map hid_id]. rewrite <- app_assoc. cbn [app].
  rewrite !app_assoc. symmetry. apply Permutation_middle.
Qed.

Lemma bulkHideLoop_wellNumbered items : forall db m,
  wellNumbered db -> wellNumbered (fst (bulkHideLoop items db m)).
Proof.
  induction items as [|item rest IH]; intros db m Hw; [exact Hw|].
  cbn [bulkHideLoop]. destruct (existsb _ (hiddenItems db)).
  - now apply IH.
  - apply IH. now apply wellNumbered_hidden_alloc.
Qed.

(** What [replaceFirst] does, in terms of [find]. *)
Lemma replaceFirst_None p g l :
  replaceFirst p g l = None <-> List.find p l = None.
Proof.
  induction l as [|s r IH]; simpl; [tauto|].
  destruct (p s); [split; discriminate|].
  destruct (replaceFirst p g r) as [[r' s']|].
  - split; [discriminate|]. intros H. apply IH in H. discriminate.
  - split; [|reflexivity]. intros _. now apply IH.
Qed.

Lemma replaceFirst_Some p g l l' s' :
  replaceFirst p g l = Some (l', s') ->
  exists s, List.find p l = Some s /\ s' = g s.
Proof.
  revert l'. induction l as [|x r IH]; intros l'; simpl; [discriminate|].
  destruct (p x).
  - intros [= <- <-]. now exists x.
  - destruct (replaceFirst p g r) as [[r' s'']|]; [|discriminate].
    intros [= <- <-]. now apply (IH r').
Qed.

Lemma replaceFirst_ids p g l l' s' :
  (forall s, src_id (g s) = src_id s) ->
  replaceFirst p g l = Some (l', s') ->
  map src_id l' = map src_id l.
Proof.
  intros Hg. revert l'. induction l as [|x r IH]; intros l'; simpl;
    [discriminate|].
  destruct (p x).
  - intros [= <- <-]. simpl. now rewrite Hg.
  - destruct (replaceFirst p g r) as [[r' s'']|]; [|discriminate].
    intros [= <- <-]. simpl. f_equal. now apply IH.
Qed.

(** After the replacement, looking up by a predicate that [g] does not
    change finds the replaced element under the same predicate, and what
    was found before under a predicate that excludes it. *)
Lemma replaceFirst_find_same p g l l' s' :
  (forall s, p (g s) = p s) ->
  replaceFirst p g l = Some (l', s') ->
  List.find p l' = Some s'.
Proof.
  intros Hg. revert l'. induction l as [|x r IH]; intros l'; simpl;
    [discriminate|].
  destruct (p x) eqn:E.
  - intros [= <- <-]. simpl. now rewrite Hg, E.
  - destruct (replaceFirst p g r) as [[r' s'']|] eqn:Er; [|discriminate].
    intros [= <- <-]. simpl. rewrite E. now apply IH.
Qed.

Lemma replaceFirst_find_other p q g l l' s' :
  (forall s, p s = true -> q s = false) ->
  (forall s, p s = true -> q (g s) = false) ->
  replaceFirst p g l = Some (l', s') ->
  List.find q l' = List.find q l.
Proof.
  intros Hq Hqg. revert l'. induction l as [|x r IH]; intros l'; simpl;
    [discriminate|].
  destruct (p x) eqn:E.
  - intros [= <- <-]. simpl. now rewrite (Hq x E), (Hqg x E).
  - destruct (replaceFirst p g r) as [[r' s'']|] eqn:Er; [|discriminate].
    intros [= <- <-]. simpl. destruct (q x); [reflexivity|]. now apply IH.
Qed.

Lemma replaceFirst_twice p g l l' s' :
  (forall s, p (g s) = p s) -> (forall s, g (g s) = s) ->
  replaceFirst p g l = Some (l', s') ->
  exists s, replaceFirst p g l' = Some (l, s).
Proof.
  intros Hp Hg. revert l'. induction l as [|x r IH]; intros l'; simpl;
    [discriminate|].
  destruct (p x) eqn:E.
  - intros [= <- <-]. simpl. rewrite Hp, E, Hg. now exists x.
  - destruct (replaceFirst p g r) as [[r' s'']|] eqn:Er; [|discriminate].
    intros [= <- <-]. simpl. rewrite E.
    destruct (IH r' eq_refl) as [s ->]. now exists s.
Qed.

Lemma strict_eq_other x id id' :
  id' <> id -> strict_eq x id = true -> strict_eq x id' = false.
Proof.
  unfold strict_eq, strict_neq. destruct id as [y|], id' as [y'|];
    try discriminate; try reflexivity.
  intros Hne. rewrite !negb_involutive. intros H%Z.eqb_eq. subst y.
  apply Z.eqb_neq. congruence.
Qed.

Lemma wellNumbered_sources db l :
  map src_id l = map src_id (sources db) ->
  wellNumbered db ->
  wellNumbered {| sources := l; hiddenItems := hiddenItems db;
                  favorites := favorites db; nextId := nextId db |}.
Proof.
  intros Hl. apply wellNumbered_sub; [|reflexivity].
  unfold allIds. cbn [sources hiddenItems favorites]. now rewrite Hl.
Qed.

(** Every call keeps the numbering of the store. *)
Lemma perform_wellNumbered c f :
  wellNumbered (loadDb f) -> wellNumbered (loadDb (perform c f)).
Proof.
  intros Hw. pose proof (wellNumbered_load _ Hw) as Hload.
  destruct c as [type name|id type name enabled|id|id|s t i|s t i|items
                |items|s i t|s i t]; cbn [perform].
  - (* create *)
    unfold sources_create. cbn [fst or_default in_id].
    rewrite wellNumbered_load.
    all: apply (wellNumbered_alloc (loadDb f)); [|reflexivity|exact Hw].
    all: unfold allIds; cbn [sources hiddenItems favorites nextId].
    all: rewrite map_app; cbn [map src_id]; rewrite <- app_assoc; cbn [app].
    all: symmetry; apply Permutation_middle.
  - (* update *)
    unfold sources_update.
    destruct (replaceFirst _ _ (sources (loadDb f))) as [[l s']|] eqn:E;
      cbn [fst]; [|exact Hw].
    apply replaceFirst_ids in E; [|reflexivity].
    rewrite wellNumbered_load; now apply wellNumbered_sources.
  - (* delete *)
    unfold sources_delete. cbn [sources hiddenItems favorites nextId].
    assert (Hsub : wellNumbered
      {| sources := List.filter (fun s => strict_neq (src_id s) id)
                      (sources (loadDb f));
         hiddenItems := List.filter
                          (fun h => strict_neq (hid_source_id h) id)
                          (hiddenItems (loadDb f));
         favorites := favorites (loadDb f);
         nextId := nextId (loadDb f) |}).
    { revert Hw. apply wellNumbered_sub; [|reflexivity].
      unfold allIds. cbn [sources hiddenItems favorites].
      apply sublist_app; [apply sublist_map_filter|].
      apply sublist_app; [apply sublist_map_filter|reflexivity]. }
    now rewrite wellNumbered_load.
  - (* toggleEnabled *)
    unfold sources_toggleEnabled.
    destruct (replaceFirst _ _ (sources (loadDb f))) as [[l s']|] eqn:E;
      cbn [fst]; [|exact Hw].
    apply replaceFirst_ids in E; [|reflexivity].
    rewrite wellNumbered_load; now apply wellNumbered_sources.
  - (* hide *)
    unfold hiddenItems_hide.
    destruct (existsb _ (hiddenItems (loadDb f))); [exact Hw|].
    rewrite wellNumbered_load; now apply wellNumbered_hidden_alloc.
  - (* show *)
    unfold hiddenItems_show.
    assert (Hsub : wellNumbered
      {| sources := sources (loadDb f);
         hiddenItems := List.filter (fun h => negb (sameHidden s t i h))
                          (hiddenItems (loadDb f));
         favorites := favorites (loadDb f);
         nextId := nextId (loadDb f) |}).
    { revert Hw. apply wellNumbered_sub; [|reflexivity].
      unfold allIds. cbn [sources hiddenItems favorites].
      apply sublist_app; [reflexivity|].
      apply sublist_app; [apply sublist_map_filter|reflexivity]. }
    now rewrite wellNumbered_load.
  - (* bulkHide *)
    unfold hiddenItems_bulkHide.
    pose proof (bulkHideLoop_wellNumbered items (loadDb f) false Hw) as Hb.
    destruct (bulkHideLoop items (loadDb f) false) as [db m].
    cbn [fst] in Hb. destruct m; [|exact Hw].
    now rewrite wellNumbered_load.
  - (* bulkShow *)
    unfold hiddenItems_bulkShow.
    match goal with |- context [List.filter ?p (hiddenItems (loadDb f))] =>
      set (keep := p) end.
    destruct (_ =? _)%nat; [exact Hw|].
    assert (Hsub : wellNumbered
      {| sources := sources (loadDb f);
         hiddenItems := List.filter keep (hiddenItems (loadDb f));
         favorites := favorites (loadDb f);
         nextId := nextId (loadDb f) |}).
    { revert Hw. apply wellNumbered_sub; [|reflexivity].
      unfold allIds. cbn [sources hiddenItems favorites].
      apply sublist_app; [reflexivity|].
      apply sublist_app; [apply sublist_map_filter|reflexivity]. }
    now rewrite wellNumbered_load.
  - (* favorites.add *)
    unfold favorites_add.
    destruct (existsb _ (favorites (loadDb f))); [exact Hw|].
    rewrite wellNumbered_load.
    all: apply (wellNumbered_alloc (loadDb f)); [|reflexivity|exact Hw].
    all: unfold allIds; cbn [sources hiddenItems favorites nextId].
    all: rewrite map_app; cbn [map fav_id]; rewrite !app_assoc.
    all: rewrite <- Permutation_cons_append; reflexivity.
  - (* favorites.remove *)
    unfold favorites_remove.
    assert (Hsub : wellNumbered
      {| sources := sources (loadDb f);
         hiddenItems := hiddenItems (loadDb f);
         favorites := List.filter (fun x => negb (sameFavorite s i t x))
                        (favorites (loadDb f));
         nextId := nextId (loadDb f) |}).
    { revert Hw. apply wellNumbered_sub; [|reflexivity].
      unfold allIds. cbn [sources hiddenItems favorites].
      apply sublist_app; [reflexivity|].
      apply sublist_app; [reflexivity|apply sublist_map_filter]. }
    now rewrite wellNumbered_load.
Qed.

(** X7.  Starting from no file at all, whatever calls are made, the ids of all
    records of the three collections stay pairwise different and below
    the counter, which stays positive. *)
Theorem store_ids_stay_unique (calls : list Call) :
  wellNumbered (loadDb (fold_left (fun f c => perform c f) calls None)).
Proof.
  assert (H : forall f, wellNumbered (loadDb f) ->
    wellNumbered (loadDb (fold_left (fun f c => perform c f) calls f))).
  { induction calls as [|c calls IH]; intros f Hw; [exact Hw|].
    simpl. apply IH. now apply perform_wellNumbered. }
  apply H. simpl. unfold wellNumbered, allIds. simpl.
  split; [constructor|split; [lia|constructor]].
Qed.

(** *** Sources *)

Lemma find_app_last {A} (p : A -> bool) (l : list A) (x : A) :
  List.find p (l ++ [x])
  = match List.find p l with
    | Some y => Some y
    | None => if p x then Some x else None
    end.
Proof.
  induction l as [|y l IH]; simpl; [reflexivity|].
  destruct (p y); [reflexivity|exact IH].
Qed.

Lemma find_none_below id (l : list Source) :
  Forall (fun i => i < id) (map src_id l) ->
  List.find (fun s => strict_eq (src_id s) (Some id)) l = None.
Proof.
  induction l as [|s l IH]; simpl; [reflexivity|].
  intros H. apply Forall_cons in H. destruct H as [Hs Hl].
  unfold strict_eq at 1, strict_neq. rewrite negb_involutive.
  destruct (Z.eqb_spec (src_id s) id); [lia|]. now apply IH.
Qed.

(** X8.  On a store whose ids are below its counter, a created source is
    enabled, is what [getById] returns for its id, and no other lookup
    changes. *)
Theorem create_then_getById type name f :
  wellNumbered (loadDb f) ->
  let f' := fst (sources_create (mkInput None type name) f) in
  let s := snd (sources_create (mkInput None type name) f) in
  s = mkSource (nextId (loadDb f)) type name true
  /\ sources_getById (Some (src_id s)) f' = Some s
  /\ (forall id, id <> Some (src_id s) ->
        sources_getById id f' = sources_getById id f)
  /\ sources_getById (Some (src_id s)) f = None.
Proof.
  intros (Hnd & Hpos & Hlt). cbv zeta. unfold sources_create, sources_getById.
  cbn [fst snd or_default in_id in_type in_name src_id loadDb saveDb sources
       d_sources].
  assert (Hnone : List.find
            (fun s => strict_eq (src_id s) (Some (nextId (loadDb f))))
            (sources (loadDb f)) = None).
  { apply find_none_below. unfold allIds in Hlt.
    apply Forall_app in Hlt. tauto. }
  split; [reflexivity|]. split; [|split; [|exact Hnone]].
  - rewrite find_app_last, Hnone. cbn [src_id].
    unfold strict_eq, strict_neq. now rewrite Z.eqb_refl.
  - intros id Hid. rewrite find_app_last.
    destruct (List.find (fun s => strict_eq (src_id s) id)
                (sources (loadDb f))); [reflexivity|].
    cbn [src_id]. destruct (strict_eq (nextId (loadDb f)) id) eqn:E;
      [|reflexivity].
    exfalso. apply Hid. unfold strict_eq, strict_neq in E.
    destruct id as [y|]; [|discriminate].
    rewrite negb_involutive in E. apply Z.eqb_eq in E. now subst.
Qed.

(** X9.  [update] without an [id] field: an id that no source has (or that is
    not a number) gives [null] and no write; otherwise the first source
    with the id is replaced by its update, which is returned and is what
    [getById] then finds, and lookups of other ids, the hidden items and
    the favorites are as before. *)
Theorem update_by_id id type name enabled f :
  let u := mkUpdates None type name enabled in
  match sources_getById id f with
  | None => sources_update id u f = (f, None)
  | Some s =>
      let f' := fst (sources_update id u f) in
      snd (sources_update id u f) = Some (applyUpdates s u)
      /\ sources_getById id f' = Some (applyUpdates s u)
      /\ (forall id', id' <> id ->
            sources_getById id' f' = sources_getById id' f)
      /\ length (sources (loadDb f')) = length (sources (loadDb f))
      /\ hiddenItems (loadDb f') = hiddenItems (loadDb f)
      /\ favorites (loadDb f') = favorites (loadDb f)
  end.
Proof.
  cbv zeta. unfold sources_getById, sources_update.
  set (u := mkUpdates None type name enabled).
  destruct (replaceFirst _ _ (sources (loadDb f))) as [[l s']|] eqn:E.
  - destruct (replaceFirst_Some _ _ _ _ _ E) as (s & Hs & ->). rewrite Hs.
    cbn [fst snd loadDb saveDb sources hiddenItems favorites or_default
         d_sources d_hiddenItems d_favorites].
    split; [reflexivity|]. split; [|split; [|split; [|split; reflexivity]]].
    + refine (replaceFirst_find_same _ _ _ _ _ _ E). reflexivity.
    + intros id' Hne.
      refine (replaceFirst_find_other _ _ _ _ _ _ _ _ E);
        intros x; apply (strict_eq_other _ id id' Hne).
    + assert (Hids : map src_id l = map src_id (sources (loadDb f)))
        by (refine (replaceFirst_ids _ _ _ _ _ _ E); reflexivity).
      now rewrite <- (length_map src_id l), Hids, length_map.
  - apply replaceFirst_None in E. now rewrite E.
Qed.

Lemma flipEnabled_involutive s : flipEnabled (flipEnabled s) = s.
Proof. destruct s. unfold flipEnabled. simpl. now rewrite negb_involutive. Qed.

(** [toggleEnabled] on the records of the embedding. *)
Lemma toggleEnabled_records id f :
  match sources_getById id f with
  | None => sources_toggleEnabled id f = (f, None)
  | Some s =>
      let f' := fst (sources_toggleEnabled id f) in
      snd (sources_toggleEnabled id f) = Some (flipEnabled s)
      /\ sources_getById id f' = Some (flipEnabled s)
      /\ snd (sources_toggleEnabled id f') = Some s
      /\ sources (loadDb (fst (sources_toggleEnabled id f')))
         = sources (loadDb f)
  end.
Proof.
  unfold sources_getById.
  destruct (List.find _ (sources (loadDb f))) as [s|] eqn:Ef.
  - cbv zeta. unfold sources_toggleEnabled at 1 2 4 6.
    destruct (replaceFirst _ _ (sources (loadDb f))) as [[l s']|] eqn:E;
      [|apply replaceFirst_None in E; congruence].
    destruct (replaceFirst_Some _ _ _ _ _ E) as (s0 & Hs & ->).
    assert (s0 = s) by congruence. subst s0.
    cbn [fst snd]. unfold sources_toggleEnabled.
    cbn [loadDb saveDb sources hiddenItems favorites or_default
         d_sources d_hiddenItems d_favorites].
    assert (Hf : List.find (fun s => strict_eq (src_id s) id) l
                 = Some (flipEnabled s))
      by (refine (replaceFirst_find_same _ _ _ _ _ _ E); reflexivity).
    assert (Htw : exists s1,
               replaceFirst (fun s => strict_eq (src_id s) id) flipEnabled l
               = Some (sources (loadDb f), s1))
      by (refine (replaceFirst_twice _ _ _ _ _ _ flipEnabled_involutive E);
          reflexivity).
    destruct Htw as [s1 E2].
    rewrite E2. cbn [fst snd loadDb saveDb sources or_default d_sources].
    destruct (replaceFirst_Some _ _ _ _ _ E2) as (s2 & Hs2 & ->).
    assert (s2 = flipEnabled s) by congruence. subst s2.
    rewrite flipEnabled_involutive. repeat split. exact Hf.
  - unfold sources_toggleEnabled.
    apply replaceFirst_None with (g := flipEnabled) in Ef. now rewrite Ef.
Qed.

(** X10.  [toggleEnabled]: an unknown id gives nothing and no write;
    otherwise the source comes back, and is stored, with its [enabled] flag
    negated and its id, type and name as they were, and toggling the same
    id again gives every source the id, type, name and flag it had.  (Each
    toggle also writes [updated_at], of which nothing is said.) *)
Theorem toggleEnabled_twice id f :
  let shown (s : Source) :=
    (src_id s, src_type s, src_name s, src_enabled s) in
  match sources_getById id f with
  | None => sources_toggleEnabled id f = (f, None)
  | Some s =>
      let f' := fst (sources_toggleEnabled id f) in
      option_map shown (snd (sources_toggleEnabled id f))
      = Some (src_id s, src_type s, src_name s, negb (src_enabled s))
      /\ option_map shown (sources_getById id f')
         = Some (src_id s, src_type s, src_name s, negb (src_enabled s))
      /\ option_map shown (snd (sources_toggleEnabled id f'))
         = Some (shown s)
      /\ map shown (sources (loadDb (fst (sources_toggleEnabled id f'))))
         = map shown (sources (loadDb f))
  end.
Proof.
  intros shown. pose proof (toggleEnabled_records id f) as H.
  destruct (sources_getById id f) as [s|]; [|exact H].
  cbv zeta in H. destruct H as (H1 & H2 & H3 & H4).
  cbv zeta. rewrite H1, H2, H3, H4. repeat split.
Qed.

End DbOperations.

(** ** The reference host is a total preorder *)



(** ** The JavaScript library model *)

Section SortProperties.

Context {A : Type} (cmp : A -> A -> Z).

Lemma insertBy_Permutation (x : A) (l : list A) :
  Permutation (Js.insertBy cmp x l) (x :: l).
Proof.
  induction l as [|y l IH]; simpl; [reflexivity|].
  destruct (cmp x y <=? 0); [reflexivity|].
  rewrite IH. apply perm_swap.
Qed.

Lemma sortBy_Permutation (l : list A) : Permutation (Js.sortBy cmp l) l.
Proof.
  induction l as [|x l IH]; simpl; [reflexivity|].
  rewrite insertBy_Permutation. now constructor.
Qed.

Lemma sortBy_In (l : list A) (x : A) : In x (Js.sortBy cmp l) <-> In x l.
Proof.
  split; apply Permutation_in;
    [apply sortBy_Permutation | symmetry; apply sortBy_Permutation].
Qed.

Lemma sortBy_length (l : list A) : length (Js.sortBy cmp l) = length l.
Proof. apply Permutation_length, sortBy_Permutation. Qed.

Lemma sortBy_nil_inv (l : list A) : Js.sortBy cmp l = [] -> l = [].
Proof.
  intros H. apply (f_equal (@length A)) in H. rewrite sortBy_length in H.
  now destruct l.
Qed.

(** With a comparator that is total and transitive, the result is sorted. *)
Hypothesis cmp_total : forall a b, cmp a b <= 0 \/ cmp b a <= 0.
Hypothesis cmp_trans : forall a b c, cmp a b <= 0 -> cmp b c <= 0 -> cmp a c <= 0.



End SortProperties.

Section ObjProperties.

Context {V : Type}.
Implicit Types (o : Js.Obj V) (k : string) (v : V).

Lemma get_set_eq o k v : Js.get (Js.set o k v) k = Some v.
Proof.
  induction o as [|[k' v'] o IH]; simpl.
  - now rewrite String.eqb_refl.
  - destruct (String.eqb_spec k' k) as [->|Hne]; simpl.
    + now rewrite String.eqb_refl.
    + destruct (String.eqb_spec k' k); [contradiction|exact IH].
Qed.

Lemma get_set_ne o k k' v : k <> k' -> Js.get (Js.set o k v) k' = Js.get o k'.
Proof.
  intros Hne. induction o as [|[k0 v0] o IH]; simpl.
  - destruct (String.eqb_spec k k'); [contradiction|reflexivity].
  - destruct (String.eqb_spec k0 k) as [->|Hk]; simpl.
    + destruct (String.eqb_spec k k'); [contradiction|reflexivity].
    + destruct (String.eqb_spec k0 k'); [reflexivity|exact IH].
Qed.

Lemma get_Some_In o k v : Js.get o k = Some v -> In k (map fst o).
Proof.
  induction o as [|[k0 v0] o IH]; simpl; [discriminate|].
  destruct (String.eqb_spec k0 k) as [->|Hk]; [now left|]. now right; apply IH.
Qed.

Lemma get_None_not_In o k : Js.get o k = None <-> ~ In k (map fst o).
Proof.
  induction o as [|[k0 v0] o IH]; simpl; [tauto|].
  destruct (String.eqb_spec k0 k) as [->|Hk].
  - split; [discriminate|]. intros H. exfalso. apply H. now left.
  - rewrite IH. tauto.
Qed.

(** Assignment keeps the place of a present key and appends a new one. *)
Lemma keys_set_present o k v :
  In k (map fst o) -> map fst (Js.set o k v) = map fst o.
Proof.
  induction o as [|[k0 v0] o IH]; simpl; [tauto|].
  destruct (String.eqb_spec k0 k) as [->|Hk]; simpl; [reflexivity|].
  intros [H|H]; [contradiction|]. now rewrite IH.
Qed.

Lemma keys_set_absent o k v :
  ~ In k (map fst o) -> map fst (Js.set o k v) = map fst o ++ [k].
Proof.
  induction o as [|[k0 v0] o IH]; simpl; [reflexivity|].
  destruct (String.eqb_spec k0 k) as [->|Hk]; simpl.
  - intros H. exfalso. apply H. now left.
  - intros H. rewrite IH; [reflexivity|tauto].
Qed.

Lemma keys_set_In o k v k' :
  In k' (map fst (Js.set o k v)) <-> k' = k \/ In k' (map fst o).
Proof.
  destruct (in_dec string_dec k (map fst o)) as [Hin|Hnin].
  - rewrite keys_set_present by assumption. split; [tauto|].
    intros [->|H]; assumption.
  - rewrite keys_set_absent by assumption. rewrite in_app_iff. simpl.
    split; [intros [H|[H|[]]]; auto | intros [->|H]; auto].
Qed.

Lemma keys_set_NoDup o k v :
  NoDup (map fst o) -> NoDup (map fst (Js.set o k v)).
Proof.
  intros Hnd. destruct (in_dec string_dec k (map fst o)) as [Hin|Hnin].
  - now rewrite keys_set_present.
  - rewrite keys_set_absent by assumption.
    apply NoDup_app. split; [exact Hnd|]. split.
    + intros x Hx Hk. apply list_elem_of_In in Hx, Hk.
      destruct Hk as [<-|[]]. contradiction.
    + apply NoDup_singleton.
Qed.

End ObjProperties.

Lemma filter_split_Permutation {A} (f : A -> bool) (l : list A) :
  Permutation (List.filter f l ++ List.filter (fun x => negb (f x)) l) l.
Proof.
  induction l as [|x l IH]; simpl; [reflexivity|].
  destruct (f x); simpl.
  - now constructor.
  - rewrite <- Permutation_middle. now constructor.
Qed.

Lemma index_entries_keys (ks : list string) :
  map snd (Js.index_entries ks) = List.filter Js.is_index ks.
Proof.
  unfold Js.is_index.
  induction ks as [|k ks IH]; simpl; [reflexivity|].
  destruct (Js.array_index k); simpl; now rewrite IH.
Qed.

(** [Object.keys] lists every property once. *)
Lemma keys_Permutation {V} (o : Js.Obj V) :
  Permutation (Js.keys o) (map fst o).
Proof.
  unfold Js.keys.
  rewrite (Permutation_map snd (sortBy_Permutation _ _)), index_entries_keys.
  apply filter_split_Permutation.
Qed.

(** ** The channel list *)

Section ChannelListProperties.

Import ChannelList.

(** The host functions are arbitrary. *)
Variable toLowerCase : string -> string.
Variable localeCompare : string -> string -> Z.
Variable hasEpgGuide hasPlayer : bool.

Abbreviation render := (ChannelList.render toLowerCase localeCompare).
Abbreviation rendered := (ChannelList.rendered toLowerCase localeCompare).
Abbreviation clearView := (ChannelList.clearView toLowerCase).
Abbreviation storeView := (ChannelList.storeView localeCompare).
Abbreviation showView := (ChannelList.showView toLowerCase).
Abbreviation groupable := (ChannelList.groupable toLowerCase).
Abbreviation updateFavoritesGroup :=
  (ChannelList.updateFavoritesGroup toLowerCase localeCompare).
Abbreviation revertFavorite :=
  (ChannelList.revertFavorite toLowerCase localeCompare).
Abbreviation toggleFavorite :=
  (ChannelList.toggleFavorite toLowerCase localeCompare hasEpgGuide).
Abbreviation selectChannel := (ChannelList.selectChannel hasPlayer).
Abbreviation filterChannels := (ChannelList.filterChannels toLowerCase).
Abbreviation addFavorites := (ChannelList.addFavorites localeCompare).
Abbreviation compareGroups := (ChannelList.compareGroups localeCompare).
Abbreviation compareNames := (ChannelList.compareNames localeCompare).
Abbreviation searchTerm := (ChannelList.searchTerm toLowerCase).
Abbreviation groupedView := (ChannelList.groupedView toLowerCase localeCompare).
Abbreviation passesSearch := (ChannelList.passesSearch toLowerCase).
Abbreviation shownInOwnGroup := (ChannelList.shownInOwnGroup toLowerCase).

(** *** Merging an Xtream source *)

(** The loop appends to its accumulator. *)
Lemma dedupLoop_app (seen : gset string) (acc l : list Channel) :
  dedupLoop seen acc l = acc ++ dedupLoop seen [] l.
Proof.
  revert seen acc. induction l as [|ch l IH]; intros seen acc; simpl.
  - now rewrite app_nil_r.
  - destruct (bool_decide (dedupKey ch ∈ seen)).
    + apply IH.
    + rewrite (IH _ (acc ++ [ch])), (IH _ [ch]).
      now rewrite <- app_assoc.
Qed.

(** Nothing whose key was already seen is kept. *)
Lemma dedupLoop_seen (seen : gset string) (l : list Channel) (ch : Channel) :
  In ch (dedupLoop seen [] l) -> dedupKey ch ∉ seen.
Proof.
  revert seen. induction l as [|c l IH]; intros seen; simpl; [tauto|].
  destruct (bool_decide_reflect (dedupKey c ∈ seen)) as [Hin|Hnin].
  - apply IH.
  - rewrite dedupLoop_app. intros [H|H]%in_app_or.
    + destruct H as [<-|[]]. exact Hnin.
    + apply IH in H. set_solver.
Qed.

(** The kept channels have pairwise different keys. *)
Lemma dedupLoop_NoDup_keys (seen : gset string) (l : list Channel) :
  NoDup (map dedupKey (dedupLoop seen [] l)).
Proof.
  revert seen. induction l as [|c l IH]; intros seen; simpl.
  - constructor.
  - destruct (bool_decide (dedupKey c ∈ seen)); [apply IH|].
    rewrite dedupLoop_app. simpl. constructor; [|apply IH].
    rewrite list_elem_of_In, in_map_iff. intros (c' & Hk & Hc').
    apply dedupLoop_seen in Hc'. rewrite Hk in Hc'. set_solver.
Qed.

(** Every key of the input survives, carried by some kept channel. *)
Lemma dedupLoop_complete (seen : gset string) (l : list Channel) (ch : Channel) :
  In ch l -> dedupKey ch ∉ seen ->
  exists ch', In ch' (dedupLoop seen [] l) /\ dedupKey ch' = dedupKey ch.
Proof.
  revert seen. induction l as [|c l IH]; intros seen; simpl; [tauto|].
  intros Hin Hk.
  destruct (bool_decide_reflect (dedupKey c ∈ seen)) as [Hs|Hs].
  - destruct Hin as [->|Hin]; [contradiction|]. now apply IH.
  - rewrite dedupLoop_app.
    destruct (decide (dedupKey c = dedupKey ch)) as [Heq|Hne].
    + exists c. split; [apply in_or_app; left; now left | exact Heq].
    + destruct Hin as [->|Hin]; [congruence|].
      assert (Hk' : dedupKey ch ∉ {[dedupKey c]} ∪ seen).
      { rewrite not_elem_of_union, not_elem_of_singleton. split; congruence. }
      destruct (IH _ Hin Hk') as (ch' & H1 & H2).
      exists ch'. split; [apply in_or_app; now right | exact H2].
Qed.

(** The kept channels are channels of the input, in input order. *)
Lemma dedupLoop_sublist (seen : gset string) (l : list Channel) :
  sublist (dedupLoop seen [] l) l.
Proof.
  revert seen. induction l as [|c l IH]; intros seen; simpl.
  - constructor.
  - destruct (bool_decide (dedupKey c ∈ seen)).
    + apply sublist_cons, IH.
    + rewrite dedupLoop_app. simpl. apply sublist_skip, IH.
Qed.

(** The first channel of the input is always kept. *)
Lemma dedupLoop_head (c : Channel) (l : list Channel) :
  exists rest, dedupLoop ∅ [] (c :: l) = c :: rest.
Proof.
  cbn [dedupLoop]. rewrite bool_decide_eq_false_2 by set_solver.
  rewrite dedupLoop_app. simpl. eauto.
Qed.

(** C1, evaluated.  Two streams of one source in different categories,
    [("Sports", "HD|ESPN")] and [("Sports|HD", "ESPN")]: the pairs differ,
    the keys [`${groupTitle}|${name}`] coincide, and the load keeps the
    first stream only. *)
Theorem loadXtreamChannels_merges_distinct_pairs :
  let categories := [mkCategory "1" "Sports"; mkCategory "2" "Sports|HD"] in
  let streams := [mkStream 10 "HD|ESPN" None None "1";
                  mkStream 11 "ESPN" None None "2"] in
  let fetched := map (streamChannel 1 categories) streams in
  let st := loadXtreamChannels 1 false categories streams
              (initial ∅ "" None) in
  map (fun ch => (ch_groupTitle ch, ch_name ch)) fetched
    = [(Some "Sports", "HD|ESPN"); (Some "Sports|HD", "ESPN")]
  /\ map dedupKey fetched = ["Sports|HD|ESPN"; "Sports|HD|ESPN"]
  /\ map (fun ch => (ch_groupTitle ch, ch_name ch)) (channels st)
     = [(Some "Sports", "HD|ESPN")].
Proof. vm_compute. repeat split. Qed.

(** X11.  The deduplication of [loadXtreamChannels] keeps, in their order, the
    channels of the fetched list whose key [`${groupTitle}|${name}`] has
    not occurred before: the kept channels are a sub-sequence of the
    fetched ones, their keys are pairwise different, every fetched key is
    the key of a kept channel, and deduplicating again changes nothing. *)
Theorem dedup_keeps_one_channel_per_key (l : list Channel) :
  sublist (dedupLoop ∅ [] l) l
  /\ NoDup (map dedupKey (dedupLoop ∅ [] l))
  /\ (forall ch, In ch l ->
        exists ch', In ch' (dedupLoop ∅ [] l) /\ dedupKey ch' = dedupKey ch)
  /\ dedupLoop ∅ [] (dedupLoop ∅ [] l) = dedupLoop ∅ [] l.
Proof.
  split; [apply dedupLoop_sublist|].
  split; [apply dedupLoop_NoDup_keys|].
  split; [intros ch Hin; apply dedupLoop_complete; [exact Hin|set_solver]|].
  pose proof (dedupLoop_NoDup_keys ∅ l) as Hnd.
  assert (Hfix : forall (seen : gset string) k,
             NoDup (map dedupKey k) ->
             (forall c, In c k -> dedupKey c ∉ seen) ->
             dedupLoop seen [] k = k).
  { intros seen k. revert seen.
    induction k as [|c k IH]; intros seen Hk Hout; [reflexivity|].
    cbn [dedupLoop]. cbn [map] in Hk. apply NoDup_cons in Hk.
    destruct Hk as [Hc Hk].
    rewrite bool_decide_eq_false_2 by (apply Hout; now left).
    rewrite dedupLoop_app. cbn [app]. f_equal. apply IH; [exact Hk|].
    intros c' Hc'.
    assert (dedupKey c' <> dedupKey c).
    { intros E. apply Hc. rewrite <- E. now apply list_elem_of_In, in_map. }
    assert (dedupKey c' ∉ seen) by (apply Hout; now right).
    set_solver. }
  apply Hfix; [exact Hnd|]. intros c _. set_solver.
Qed.

(** *** The flag store and the flag cache *)

(** X12.  What the store reports as hidden is hidden for the component once
    [loadHiddenItems] has been handed the store's list. *)
Theorem hidden_in_store_is_hidden_in_cache f st sourceId itemType itemId :
  Db.hiddenItems_isHidden sourceId itemType itemId f = true ->
  isHidden (loadHiddenItems (Some (Db.hiddenItems (Db.loadDb f))) st)
    itemType sourceId itemId = true.
Proof.
  unfold Db.hiddenItems_isHidden, isHidden, loadHiddenItems.
  intros H. apply existsb_exists in H. destruct H as (h & Hin & Hsame).
  cbn [hiddenItems set_hiddenItems].
  apply bool_decide_eq_true_2, elem_of_list_to_set, list_elem_of_In.
  apply in_map_iff. exists h. split; [|exact Hin].
  unfold Db.sameHidden in Hsame. rewrite !andb_true_iff in Hsame.
  destruct Hsame as [[Hs Ht] Hi].
  apply Z.eqb_eq in Hs. apply String.eqb_eq in Ht, Hi.
  now rewrite Hs, Ht, Hi.
Qed.

(** X13.  A channel that the store reports as a favorite, under an id that is
    not the empty text, is a favorite for the component once
    [loadFavorites] has been handed the store's list. *)
Theorem favorite_in_store_is_favorite_in_cache f st sourceId channelId :
  channelId <> "" ->
  Db.favorites_isFavorite sourceId channelId "channel" f = true ->
  isFavorite (loadFavorites (Some (Db.favorites (Db.loadDb f))) st)
    sourceId channelId = true.
Proof.
  unfold Db.favorites_isFavorite, isFavorite, loadFavorites.
  intros Hne H. apply existsb_exists in H. destruct H as (x & Hin & Hsame).
  cbn [visibleFavorites set_visibleFavorites].
  unfold Db.sameFavorite in Hsame. rewrite !andb_true_iff in Hsame.
  destruct Hsame as [[Hs Hi] Ht].
  apply Z.eqb_eq in Hs. apply String.eqb_eq in Ht, Hi.
  apply bool_decide_eq_true_2, elem_of_list_to_set, list_elem_of_In.
  apply in_map_iff. exists x. split.
  - rewrite Hs, Hi. destruct (String.eqb_spec channelId ""); [contradiction|].
    reflexivity.
  - apply filter_In. split; [exact Hin|]. rewrite Ht. reflexivity.
Qed.

(** *** What a batch leaves alone *)

Ltac frame_batch :=
  intros; unfold renderNextBatch, retireLoader, showLoader;
  repeat case_match; reflexivity.

Lemma batch_channels st : channels (renderNextBatch st) = channels st.
Proof. frame_batch. Qed.

Lemma batch_hiddenItems st :
  hiddenItems (renderNextBatch st) = hiddenItems st.
Proof. frame_batch. Qed.

Lemma batch_collapsedGroups st :
  collapsedGroups (renderNextBatch st) = collapsedGroups st.
Proof. frame_batch. Qed.

Lemma batch_visibleFavorites st :
  visibleFavorites (renderNextBatch st) = visibleFavorites st.
Proof. frame_batch. Qed.

Lemma batch_currentChannel st :
  currentChannel (renderNextBatch st) = currentChannel st.
Proof. frame_batch. Qed.

Lemma batch_showHiddenCheckbox st :
  showHiddenCheckbox (renderNextBatch st) = showHiddenCheckbox st.
Proof. frame_batch. Qed.

Lemma batch_batchSize st : batchSize (renderNextBatch st) = batchSize st.
Proof. frame_batch. Qed.

Lemma batch_filteredChannels st :
  filteredChannels (renderNextBatch st) = filteredChannels st.
Proof. frame_batch. Qed.

Lemma batch_sortedGroups st :
  sortedGroups (renderNextBatch st) = sortedGroups st.
Proof. frame_batch. Qed.

Lemma batch_groupedChannels st :
  groupedChannels (renderNextBatch st) = groupedChannels st.
Proof. frame_batch. Qed.

Lemma batch_showHidden st : showHidden (renderNextBatch st) = showHidden st.
Proof. frame_batch. Qed.

Lemma batch_container st : container (renderNextBatch st) = container st.
Proof. frame_batch. Qed.

Lemma batch_listContainer_Some st :
  is_Some (listContainer st) -> is_Some (listContainer (renderNextBatch st)).
Proof.
  intros [lc Hlc]. unfold renderNextBatch, retireLoader, showLoader.
  repeat case_match; simpl; rewrite Hlc; simpl; eauto.
Qed.

(** A property of the state that a batch keeps is kept by the loop of
    initial batches and by scrolling. *)
Lemma initialBatches_keeps {B} (f : State -> B) :
  (forall st, f (renderNextBatch st) = f st) ->
  forall n st, f (initialBatches n st) = f st.
Proof.
  intros Hf n. induction n as [|n IH]; intros st; simpl; [reflexivity|].
  case_match; [reflexivity|]. now rewrite IH, Hf.
Qed.

Lemma scrollToEnd_keeps {B} (f : State -> B) :
  (forall st, f (renderNextBatch st) = f st) ->
  forall n st, f (scrollToEnd n st) = f st.
Proof.
  intros Hf n. induction n as [|n IH]; intros st; simpl; [reflexivity|].
  case_match; [reflexivity|]. now rewrite IH, Hf.
Qed.

(** *** What a batch emits *)

Lemma sameView_refl a : sameView a a.
Proof. repeat split. Qed.

Lemma sameView_membersOf a b g : sameView a b -> membersOf a g = membersOf b g.
Proof. intros (Hg & _). unfold membersOf. now rewrite Hg. Qed.

Lemma sameView_renderItems a b fav n chs :
  sameView a b -> renderItems a fav n chs = renderItems b fav n chs.
Proof.
  intros (Hg & Hh & Hs & Hc & Hcur & Hv). revert n.
  induction chs as [|ch chs IH]; intros n; simpl; [reflexivity|].
  unfold renderItem, channelHiddenIn, isHidden, isActive, isFavorite.
  rewrite Hh, Hs, Hcur, Hv. case_match; [|apply IH]. now rewrite IH.
Qed.

Lemma sameView_renderGroup a b n g :
  sameView a b -> renderGroup a n g = renderGroup b n g.
Proof.
  intros Hv. unfold renderGroup, groupHiddenIn, isHidden.
  rewrite (sameView_membersOf a b g Hv).
  rewrite (sameView_renderItems a b _ _ _ Hv).
  destruct Hv as (Hg & Hh & Hs & Hc & Hcur & Hv). now rewrite Hh, Hs, Hc.
Qed.

Lemma sameView_renderGroups a b n names :
  sameView a b -> renderGroups a n names = renderGroups b n names.
Proof.
  intros Hv. revert n. induction names as [|g names IH]; intros n; simpl;
    [reflexivity|].
  rewrite (sameView_renderGroup a b n g Hv).
  destruct (renderGroup b n g) as [el n1]. now rewrite IH.
Qed.

Lemma renderGroups_app st n l1 l2 :
  renderGroups st n (l1 ++ l2)
  = (fst (renderGroups st n l1)
       ++ fst (renderGroups st (snd (renderGroups st n l1)) l2),
     snd (renderGroups st (snd (renderGroups st n l1)) l2)).
Proof.
  revert n. induction l1 as [|g l1 IH]; intros n; simpl.
  - now destruct (renderGroups st n l2).
  - destruct (renderGroup st n g) as [el n1]. rewrite IH.
    destruct (renderGroups st n1 l1) as [els1 n2]. simpl.
    destruct (renderGroups st n2 l2) as [els2 n3]. simpl.
    now destruct el.
Qed.

(** A batch appends the elements of its slice to the list element. *)
Lemma batch_listContainer st lc :
  listContainer st = Some lc ->
  listContainer (renderNextBatch st)
  = Some (lc ++ fst (renderGroups st (nextNode st) (nextSlice st))).
Proof.
  intros Hlc. unfold renderNextBatch. fold (nextSlice st).
  destruct (nextSlice st) as [|g rest] eqn:Hslice.
  - simpl. now rewrite Hlc, app_nil_r.
  - rewrite (sameView_renderGroups (showLoader st) st)
    by (unfold sameView; repeat split).
    change (nextNode (showLoader st)) with (nextNode st).
    destruct (renderGroups st (nextNode st) (g :: rest)) as [els n'].
    case_match; simpl; now rewrite Hlc.
Qed.

Lemma batch_nextNode st :
  nextNode (renderNextBatch st)
  = snd (renderGroups st (nextNode st) (nextSlice st)).
Proof.
  unfold renderNextBatch. fold (nextSlice st).
  destruct (nextSlice st) as [|g rest] eqn:Hslice; [reflexivity|].
  rewrite (sameView_renderGroups (showLoader st) st)
    by (unfold sameView; repeat split).
  change (nextNode (showLoader st)) with (nextNode st).
  destruct (renderGroups st (nextNode st) (g :: rest)) as [els n'].
  case_match; reflexivity.
Qed.

Lemma batch_currentBatch st :
  currentBatch (renderNextBatch st)
  = match nextSlice st with
    | [] => currentBatch st
    | _ :: _ => S (currentBatch st)
    end.
Proof.
  unfold renderNextBatch. fold (nextSlice st).
  destruct (nextSlice st) as [|g rest]; [reflexivity|].
  repeat case_match; reflexivity.
Qed.

Lemma renderItems_keys st fav n chs :
  map rowKey (fst (renderItems st fav n chs))
  = map channelKey (List.filter (rowVisible st fav) chs).
Proof.
  revert n. induction chs as [|ch chs IH]; intros n; simpl; [reflexivity|].
  unfold renderItem, rowVisible at 1.
  destruct (channelHiddenIn st fav ch && negb (showHidden st)); simpl.
  - apply IH.
  - specialize (IH (S n)). destruct (renderItems st fav (S n) chs).
    simpl in *. now rewrite IH.
Qed.

Lemma renderGroup_summary st n g :
  option_map elSummary (fst (renderGroup st n g)) = groupSummary st g.
Proof.
  unfold renderGroup, groupSummary.
  destruct (membersOf st g) as [|c chs] eqn:Hm; [reflexivity|].
  destruct (groupHiddenIn st g && negb (showHidden st)); [reflexivity|].
  pose proof (renderItems_keys st (String.eqb g "Favorites") n (c :: chs)) as Hk.
  destruct (renderItems st (String.eqb g "Favorites") n (c :: chs)) as [its n'].
  simpl in Hk. unfold elSummary. simpl. now rewrite Hk.
Qed.

Lemma renderGroups_summary st n names :
  map elSummary (fst (renderGroups st n names)) = omap (groupSummary st) names.
Proof.
  revert n. induction names as [|g names IH]; intros n; simpl; [reflexivity|].
  pose proof (renderGroup_summary st n g) as Hg.
  destruct (renderGroup st n g) as [el n1]. specialize (IH n1).
  destruct (renderGroups st n1 names) as [els n2]. simpl in *.
  rewrite <- Hg. destruct el; simpl; now rewrite IH.
Qed.

Lemma filter_all {A} (f : A -> bool) (l : list A) :
  (forall x, In x l -> f x = true) -> List.filter f l = l.
Proof.
  induction l as [|x l IH]; simpl; [reflexivity|]. intros H.
  rewrite (H x) by now left. f_equal. apply IH. intros y Hy. apply H. now right.
Qed.




(** *** What [rendered] leaves alone *)

Ltac frame_render :=
  intros; unfold ChannelList.rendered, ChannelList.showView; case_match;
  [reflexivity | rewrite initialBatches_keeps; [reflexivity|frame_batch]].

Lemma render_channels st : channels (rendered st) = channels st.
Proof. frame_render. Qed.

Lemma render_hiddenItems st : hiddenItems (rendered st) = hiddenItems st.
Proof. frame_render. Qed.

Lemma render_visibleFavorites st :
  visibleFavorites (rendered st) = visibleFavorites st.
Proof. frame_render. Qed.

Lemma render_collapsedGroups st :
  collapsedGroups (rendered st) = collapsedGroups st.
Proof. frame_render. Qed.

Lemma render_currentChannel st :
  currentChannel (rendered st) = currentChannel st.
Proof. frame_render. Qed.

Lemma render_showHidden st :
  showHidden (rendered st) = default false (showHiddenCheckbox st).
Proof. frame_render. Qed.

Lemma render_filteredChannels st :
  filteredChannels (rendered st) = filterChannels (searchTerm st) (channels st).
Proof. frame_render. Qed.

Lemma render_groupedChannels st :
  groupedChannels (rendered st) = Some (groupedView st).
Proof. frame_render. Qed.

Lemma render_sortedGroups st :
  sortedGroups (rendered st) = Js.sortBy compareGroups (Js.keys (groupedView st)).
Proof.
  unfold ChannelList.rendered, ChannelList.showView, ChannelList.groupedView, ChannelList.searchTerm.
  unfold resetView. case_match.
  - reflexivity.
  - now rewrite initialBatches_keeps by frame_batch.
Qed.

Lemma render_batchSize st : batchSize (rendered st) = 100%nat.
Proof. frame_render. Qed.

Lemma initialBatches_listContainer_Some n st :
  is_Some (listContainer st) -> is_Some (listContainer (initialBatches n st)).
Proof.
  revert st. induction n as [|n IH]; intros st Hs; simpl; [exact Hs|].
  case_match; [exact Hs|]. apply IH. now apply batch_listContainer_Some.
Qed.

Lemma render_listContainer_Some st :
  is_Some (listContainer st) -> is_Some (listContainer (rendered st)).
Proof.
  intros Hlc. unfold ChannelList.rendered, ChannelList.showView. case_match; [exact Hlc|].
  apply initialBatches_listContainer_Some. simpl. eauto.
Qed.

(** *** [render] and the grouping loop *)

Lemma groupLoop_own chs : forall grouped,
  (forall k, In k (map fst grouped) -> Js.inherited k = false) ->
  groupLoop grouped chs
  = if forallb ownTitle chs then Some (fold_left pushOwn chs grouped)
    else None.
Proof.
  induction chs as [|ch rest IH]; intros grouped Hown; [reflexivity|].
  cbn [groupLoop forallb fold_left]. unfold pushChannel, pushOwn, ownTitle at 1.
  destruct (Js.get grouped (groupKey ch)) as [members|] eqn:Hget.
  - rewrite (Hown (groupKey ch)) by (eapply get_Some_In; exact Hget).
    cbn [negb andb]. apply IH. intros k Hk. apply keys_set_In in Hk.
    destruct Hk as [->|Hk]; [|now apply Hown].
    apply Hown. eapply get_Some_In. exact Hget.
  - destruct (Js.inherited (groupKey ch)) eqn:Hinh; [reflexivity|].
    cbn [negb andb]. apply IH. intros k Hk. apply keys_set_In in Hk.
    destruct Hk as [->|Hk]; [exact Hinh|now apply Hown].
Qed.

Lemma groupChannels_own chs :
  groupChannels chs
  = if forallb ownTitle chs then Some (groupOwn chs) else None.
Proof. apply groupLoop_own. intros k []. Qed.

(** [render] completes exactly when the grouping loop gets through the
    filtered list; it throws with the view of the last completed call. *)
Lemma render_completion st :
  render st = if groupable st then Normal (rendered st)
              else Throw (clearView st).
Proof.
  unfold ChannelList.render, groupable, rendered, resetView, searchTerm.
  cbn [filteredChannels clearView]. rewrite groupChannels_own.
  now destruct (forallb _ _).
Qed.

Lemma render_Normal st : groupable st = true -> render st = Normal (rendered st).
Proof. intros H. now rewrite render_completion, H. Qed.

Lemma render_Throw st :
  groupable st = false -> render st = Throw (clearView st).
Proof. intros H. now rewrite render_completion, H. Qed.

(** What [render] leaves alone, however it ends. *)
Lemma render_frame st :
  let st' := stateOf (render st) in
  channels st' = channels st
  /\ hiddenItems st' = hiddenItems st
  /\ visibleFavorites st' = visibleFavorites st
  /\ collapsedGroups st' = collapsedGroups st
  /\ currentChannel st' = currentChannel st
  /\ searchInput st' = searchInput st
  /\ showHiddenCheckbox st' = showHiddenCheckbox st
  /\ groups st' = groups st.
Proof.
  cbv zeta. rewrite render_completion. destruct (groupable st); cbn [stateOf].
  - repeat split; frame_render.
  - repeat split.
Qed.

Lemma ownTitles_groupable st :
  forallb ownTitle (channels st) = true -> groupable st = true.
Proof.
  unfold groupable. rewrite !forallb_forall. intros H ch Hin. apply H.
  unfold filterChannels in Hin. destruct (String.eqb _ _); [exact Hin|].
  apply filter_In in Hin. tauto.
Qed.

(** *** Grouping *)

Lemma groupChannels_snoc chs c :
  groupOwn (chs ++ [c]) = pushOwn (groupOwn chs) c.
Proof. unfold groupOwn. now rewrite fold_left_app. Qed.

Lemma filter_snoc {A} (f : A -> bool) (l : list A) (x : A) :
  List.filter f (l ++ [x]) = List.filter f l ++ (if f x then [x] else []).
Proof. rewrite List.filter_app. simpl. now destruct (f x). Qed.

(** A group holds the channels with its key, in the order of the input. *)
Lemma groupChannels_get chs g :
  Js.get (groupOwn chs) g
  = match List.filter (inGroup g) chs with
    | [] => None
    | l => Some l
    end.
Proof.
  induction chs as [|c chs IH] using rev_ind; [reflexivity|].
  rewrite groupChannels_snoc, filter_snoc. unfold pushOwn.
  assert (Hk : Js.get (groupOwn chs) (groupKey c)
               = match List.filter (inGroup (groupKey c)) chs with
                 | [] => None
                 | l => Some l
                 end).
  { clear IH. revert c. induction chs as [|d chs IH'] using rev_ind;
      intros c; [reflexivity|].
    rewrite groupChannels_snoc, filter_snoc. unfold pushOwn.
    rewrite (IH' d). unfold inGroup at 3.
    destruct (String.eqb_spec (groupKey d) (groupKey c)) as [Heq|Hne].
    - rewrite <- Heq.
      destruct (List.filter (inGroup (groupKey d)) chs) as [|x l];
        rewrite get_set_eq; [reflexivity|].
      now destruct (l ++ [d]) eqn:E; [destruct l; discriminate|].
    - rewrite app_nil_r.
      destruct (List.filter (inGroup (groupKey d)) chs) as [|x l];
        rewrite get_set_ne by exact Hne; apply IH'. }
  rewrite Hk. unfold inGroup at 3.
  destruct (String.eqb_spec (groupKey c) g) as [<-|Hne].
  - destruct (List.filter (inGroup (groupKey c)) chs) as [|x l];
      rewrite get_set_eq; [reflexivity|].
    now destruct (l ++ [c]) eqn:E; [destruct l; discriminate|].
  - rewrite app_nil_r.
    destruct (List.filter (inGroup (groupKey c)) chs) as [|x l];
      rewrite get_set_ne by exact Hne; apply IH.
Qed.

Lemma groupChannels_NoDup chs : NoDup (map fst (groupOwn chs)).
Proof.
  induction chs as [|c chs IH] using rev_ind; [constructor|].
  rewrite groupChannels_snoc. unfold pushOwn.
  destruct (Js.get (groupOwn chs) (groupKey c));
    now apply keys_set_NoDup.
Qed.

Lemma groupChannels_keys chs g :
  In g (map fst (groupOwn chs))
  <-> exists ch, In ch chs /\ groupKey ch = g.
Proof.
  destruct (Js.get (groupOwn chs) g) as [l|] eqn:Hget.
  - split; [intros _|intros _; now apply get_Some_In in Hget].
    rewrite groupChannels_get in Hget.
    destruct (List.filter (inGroup g) chs) as [|x l'] eqn:Hf; [discriminate|].
    assert (Hx : In x (List.filter (inGroup g) chs)) by (rewrite Hf; now left).
    apply filter_In in Hx. destruct Hx as [Hx Hg]. exists x. split; [exact Hx|].
    now apply String.eqb_eq in Hg.
  - pose proof Hget as Hnone. apply get_None_not_In in Hnone.
    split; [tauto|]. intros (ch & Hch & Hg). exfalso.
    rewrite groupChannels_get in Hget.
    assert (Hx : In ch (List.filter (inGroup g) chs)).
    { apply filter_In. split; [exact Hch|]. now apply String.eqb_eq. }
    destruct (List.filter (inGroup g) chs); [destruct Hx|discriminate].
Qed.

(** *** The grouped view *)

Lemma groupedView_favorites st :
  favoritedChannels st <> [] ->
  Js.get (groupedView st) "Favorites"
  = Some (Js.sortBy compareNames (favoritedChannels st)).
Proof.
  intros Hne. unfold ChannelList.groupedView, ChannelList.addFavorites.
  destruct (favoritedChannels st) as [|c l]; [contradiction|].
  apply get_set_eq.
Qed.

Lemma groupedView_other st g :
  g <> "Favorites" ->
  Js.get (groupedView st) g
  = Js.get (groupOwn (filterChannels (searchTerm st) (channels st))) g.
Proof.
  intros Hne. unfold ChannelList.groupedView, ChannelList.addFavorites.
  destruct (favoritedChannels st) as [|c l]; [reflexivity|].
  apply get_set_ne. congruence.
Qed.

Lemma groupedView_NoDup st : NoDup (map fst (groupedView st)).
Proof.
  unfold ChannelList.groupedView, ChannelList.addFavorites.
  destruct (favoritedChannels st) as [|c l].
  - apply groupChannels_NoDup.
  - apply keys_set_NoDup, groupChannels_NoDup.
Qed.

Lemma groupedView_keys st g :
  g <> "Favorites" ->
  In g (map fst (groupedView st))
  <-> exists ch, In ch (filterChannels (searchTerm st) (channels st))
                 /\ groupKey ch = g.
Proof.
  intros Hne. rewrite <- groupChannels_keys.
  unfold ChannelList.groupedView, ChannelList.addFavorites.
  destruct (favoritedChannels st) as [|c l]; [reflexivity|].
  rewrite keys_set_In. split; [intros [H|H]; [contradiction|exact H] | auto].
Qed.

Lemma groupedView_has_favorites st :
  favoritedChannels st <> [] -> In "Favorites" (map fst (groupedView st)).
Proof.
  intros Hne. apply get_Some_In with (v := Js.sortBy compareNames (favoritedChannels st)).
  now apply groupedView_favorites.
Qed.

Lemma membersOf_render st g :
  membersOf (rendered st) g = default [] (Js.get (groupedView st) g).
Proof. unfold membersOf. now rewrite render_groupedChannels. Qed.



(** *** The order of the groups *)







Lemma sortedGroups_In st g :
  In g (sortedGroups (rendered st)) <-> In g (map fst (groupedView st)).
Proof.
  rewrite render_sortedGroups, sortBy_In.
  split; apply Permutation_in;
    [apply keys_Permutation | symmetry; apply keys_Permutation].
Qed.

Lemma sortedGroups_NoDup st : NoDup (sortedGroups (rendered st)).
Proof.
  rewrite render_sortedGroups, sortBy_Permutation, keys_Permutation.
  apply groupedView_NoDup.
Qed.

Lemma membersOf_render_other st g :
  g <> "Favorites" ->
  membersOf (rendered st) g
  = List.filter (inGroup g) (filteredChannels (rendered st)).
Proof.
  intros Hg. rewrite membersOf_render, groupedView_other by exact Hg.
  rewrite groupChannels_get, render_filteredChannels.
  now destruct (List.filter (inGroup g) _).
Qed.

Section Collation.

(** In this section [localeCompare] orders strings: any two are
    comparable, and the order is transitive. *)
Hypothesis localeCompare_total :
  forall a b, localeCompare a b <= 0 \/ localeCompare b a <= 0.
Hypothesis localeCompare_trans :
  forall a b c,
    localeCompare a b <= 0 -> localeCompare b c <= 0 -> localeCompare a c <= 0.





End Collation.

(** *** Windowing *)

Lemma batch_loader st :
  loader (renderNextBatch st)
  = option_map
      (fun l =>
         match nextSlice st with
         | [] => {| loader_opacity := loader_opacity l;
                    loader_display_none := true |}
         | _ :: _ =>
             {| loader_opacity := 1;
                loader_display_none :=
                  (length (sortedGroups st)
                     <=? currentBatch st * batchSize st + batchSize st)%nat
                  || loader_display_none l |}
         end)
      (loader st).
Proof.
  unfold renderNextBatch. fold (nextSlice st).
  destruct (nextSlice st) as [|g rest]; [reflexivity|].
  destruct (renderGroups (showLoader st) (nextNode (showLoader st)) (g :: rest)).
  cbn [sortedGroups set_currentBatch set_nextNode set_listContainer showLoader
       set_loader].
  destruct (_ <=? _)%nat; simpl; destruct (loader st); reflexivity.
Qed.

Lemma batch_sameView st : sameView (renderNextBatch st) st.
Proof.
  unfold sameView.
  now rewrite batch_groupedChannels, batch_hiddenItems, batch_showHidden,
    batch_collapsedGroups, batch_currentChannel, batch_visibleFavorites.
Qed.

Lemma sameView_trans a b c : sameView a b -> sameView b c -> sameView a c.
Proof. unfold sameView. intuition congruence. Qed.

Lemma sameView_sym a b : sameView a b -> sameView b a.
Proof. unfold sameView. intuition congruence. Qed.

Lemma nextSlice_eq st :
  batchSize st = 100%nat ->
  nextSlice st = firstn 100 (skipn (currentBatch st * 100) (sortedGroups st)).
Proof.
  intros Hb. unfold nextSlice, Js.slice. rewrite Hb. f_equal. lia.
Qed.

Lemma nextSlice_nil st :
  batchSize st = 100%nat ->
  nextSlice st = [] <-> (length (sortedGroups st) <= currentBatch st * 100)%nat.
Proof.
  intros Hb. rewrite nextSlice_eq by exact Hb. rewrite skipn_all_iff.
  destruct (skipn (currentBatch st * 100) (sortedGroups st)); simpl;
    split; congruence.
Qed.

Lemma Windowing_batch origin st :
  Windowing origin st -> Windowing origin (renderNextBatch st).
Proof.
  intros [Hc Hb Hv Hs Hl Hn (l & Hld & Hret)].
  pose proof (nextSlice_eq st Hb) as Hslice.
  pose proof (nextSlice_nil st Hb) as Hnil.
  pose proof (batch_currentBatch st) as Hcb.
  assert (Hemit : firstn (currentBatch (renderNextBatch st) * 100)
                    (sortedGroups origin)
                  = firstn (currentBatch st * 100) (sortedGroups origin)
                    ++ nextSlice st).
  { rewrite Hcb. destruct (nextSlice st) as [|g rest] eqn:E.
    - now rewrite app_nil_r.
    - rewrite Hslice, Hs, take_take_drop. f_equal. lia. }
  constructor.
  - now rewrite batch_container.
  - now rewrite batch_batchSize.
  - eapply sameView_trans; [apply batch_sameView|exact Hv].
  - now rewrite batch_sortedGroups.
  - rewrite (batch_listContainer st _ Hl), Hemit, renderGroups_app, Hn.
    now rewrite (sameView_renderGroups st origin) by exact Hv.
  - rewrite batch_nextNode, Hemit, renderGroups_app, Hn.
    now rewrite (sameView_renderGroups st origin) by exact Hv.
  - rewrite batch_loader, Hld. simpl. eexists. split; [reflexivity|].
    rewrite Hcb, Hb. rewrite Hs in Hnil.
    destruct (nextSlice st) as [|g rest]; simpl.
    + split; [intros _; now apply Hnil | reflexivity].
    + assert (Hgt : ~ (length (sortedGroups origin) <= currentBatch st * 100)%nat)
        by (rewrite <- Hnil; discriminate).
      rewrite orb_true_iff, Nat.leb_le, Hret, Hs. lia.
Qed.

Lemma Windowing_retired origin st :
  Windowing origin st ->
  loaderRetired st = true
  <-> (length (sortedGroups origin) <= currentBatch st * 100)%nat.
Proof.
  intros [Hc _ _ _ _ _ (l & Hld & Hret)].
  unfold loaderRetired. now rewrite Hc, Hld.
Qed.

Lemma Windowing_initialBatches origin n st :
  Windowing origin st -> Windowing origin (initialBatches n st).
Proof.
  revert st. induction n as [|n IH]; intros st Hw; simpl; [exact Hw|].
  case_match; [exact Hw|]. now apply IH, Windowing_batch.
Qed.

(** Enough sentinel callbacks retire the loader. *)
Lemma Windowing_scrollToEnd origin fuel st :
  Windowing origin st ->
  (length (sortedGroups origin) <= (currentBatch st + fuel) * 100)%nat ->
  Windowing origin (scrollToEnd fuel st)
  /\ loaderRetired (scrollToEnd fuel st) = true.
Proof.
  revert st. induction fuel as [|fuel IH]; intros st Hw Hlen; simpl.
  - split; [exact Hw|]. apply (Windowing_retired origin st Hw).
    now rewrite Nat.add_0_r in Hlen.
  - destruct (loaderRetired st) eqn:Hret; [now split|].
    assert (Hgt : ~ (length (sortedGroups origin) <= currentBatch st * 100)%nat).
    { rewrite <- (Windowing_retired origin st Hw), Hret. discriminate. }
    apply IH; [now apply Windowing_batch|].
    rewrite batch_currentBatch.
    destruct (nextSlice st) as [|g rest] eqn:E.
    + exfalso. apply Hgt. rewrite <- (w_sorted _ _ Hw).
      apply nextSlice_nil; [apply (w_batchSize _ _ Hw) | exact E].
    + lia.
Qed.

(** Once the loader is retired, the list holds the rows of all groups. *)
Lemma Windowing_complete origin st :
  Windowing origin st -> loaderRetired st = true ->
  listContainer st
  = Some (fst (renderGroups origin (nextNode origin) (sortedGroups origin))).
Proof.
  intros Hw Hret. rewrite (w_list _ _ Hw). do 3 f_equal.
  apply take_ge. now apply (Windowing_retired origin st Hw).
Qed.

Lemma Windowing_newList st :
  sortedGroups st <> [] -> batchSize st = 100%nat -> currentBatch st = 0%nat ->
  Windowing (newList st) (newList st).
Proof.
  intros Hne Hb Hcb. constructor; simpl; try assumption; try reflexivity.
  - apply sameView_refl.
  - now rewrite Hcb.
  - now rewrite Hcb.
  - eexists. split; [reflexivity|]. simpl. rewrite Hcb. simpl.
    split; [discriminate|]. destruct (sortedGroups st); [contradiction|].
    simpl. lia.
Qed.

Lemma omap_pointwise {A B} (f g : A -> option B) (l : list A) :
  (forall x, f x = g x) -> omap f l = omap g l.
Proof.
  intros H. induction l as [|x l IH]; [reflexivity|].
  cbn. now rewrite H, IH.
Qed.

Lemma sameView_groupSummary a b g :
  sameView a b -> groupSummary a g = groupSummary b g.
Proof.
  intros Hv. unfold groupSummary, groupHiddenIn, rowVisible, channelHiddenIn,
    isHidden.
  rewrite (sameView_membersOf a b g Hv).
  destruct Hv as (_ & Hh & Hs & _). now rewrite Hh, Hs.
Qed.

Lemma render_cases st :
  (sortedGroups (rendered st) = [] /\ container (rendered st) <> c_list)
  \/ (sortedGroups (rendered st) <> []
      /\ Windowing (newList (resetView toLowerCase localeCompare st))
           (rendered st)).
Proof.
  unfold ChannelList.rendered, ChannelList.showView.
  destruct (sortedGroups (resetView toLowerCase localeCompare st))
    as [|g rest] eqn:Hs.
  - left. split; [exact Hs | simpl; discriminate].
  - right.
    assert (Hw : Windowing (newList (resetView toLowerCase localeCompare st))
                   (initialBatches 10
                      (newList (resetView toLowerCase localeCompare st)))).
    { apply Windowing_initialBatches, Windowing_newList;
        [rewrite Hs; discriminate | reflexivity | reflexivity]. }
    split; [|exact Hw].
    rewrite (w_sorted _ _ Hw).
    change (sortedGroups (resetView toLowerCase localeCompare st) <> []).
    rewrite Hs. discriminate.
Qed.

(** After a full rebuild, enough sentinel callbacks retire the loader, and
    the list then holds, in the sorted group order, what each group
    contributes, once. *)
Lemma scroll_completes st fuel :
  (length (sortedGroups (rendered st)) <= fuel)%nat ->
  loaderRetired (scrollToEnd fuel (rendered st)) = true
  /\ map elSummary (renderedGroups (scrollToEnd fuel (rendered st)))
     = omap (groupSummary (rendered st)) (sortedGroups (rendered st)).
Proof.
  intros Hfuel. destruct (render_cases st) as [[Hnil Hc]|[Hne Hw]].
  - assert (Hret : loaderRetired (rendered st) = true).
    { unfold loaderRetired.
      destruct (container (rendered st)) eqn:E; try reflexivity. congruence. }
    assert (Hsame : scrollToEnd fuel (rendered st) = rendered st).
    { destruct fuel; simpl; [reflexivity|]. now rewrite Hret. }
    rewrite Hsame, Hnil. split; [exact Hret|].
    unfold renderedGroups.
    destruct (container (rendered st)) eqn:E; try reflexivity. congruence.
  - remember (newList (resetView toLowerCase localeCompare st)) as origin.
    destruct (Windowing_scrollToEnd _ fuel _ Hw) as [Hw' Hret].
    { rewrite <- (w_sorted _ _ Hw). nia. }
    split; [exact Hret|].
    unfold renderedGroups.
    rewrite (w_container _ _ Hw'), (Windowing_complete _ _ Hw' Hret). simpl.
    rewrite renderGroups_summary, <- (w_sorted _ _ Hw).
    apply omap_pointwise.
    intros g. symmetry. apply sameView_groupSummary, (w_view _ _ Hw).
Qed.

(** *** Counting rows *)

Lemma keyEqb_eq k x : keyEqb k x = true <-> x = k.
Proof.
  unfold keyEqb. destruct k as [a b], x as [c d]. simpl.
  rewrite andb_true_iff, String.eqb_eq, Z.eqb_eq. split.
  - now intros [-> ->].
  - now intros [= -> ->].
Qed.

Lemma occurrences_keys ch rows :
  occurrences ch rows = countKey (channelKey ch) (map rowKey rows).
Proof.
  unfold occurrences, countKey.
  induction rows as [|it rows IH]; simpl; [reflexivity|].
  unfold itemMatches at 1, keyEqb at 1. simpl.
  destruct (_ && _); simpl; now rewrite IH.
Qed.

Lemma countKey_app k l1 l2 :
  countKey k (l1 ++ l2) = (countKey k l1 + countKey k l2)%nat.
Proof. unfold countKey. now rewrite List.filter_app, length_app. Qed.

Lemma countKey_flat_map {A} k (F : A -> list (string * Z)) (l : list A) :
  countKey k (flat_map F l) = list_sum (map (fun x => countKey k (F x)) l).
Proof.
  induction l as [|x l IH]; simpl; [reflexivity|].
  now rewrite countKey_app, IH.
Qed.

Lemma countKey_absent k l : ~ In k l -> countKey k l = 0%nat.
Proof.
  unfold countKey. induction l as [|x l IH]; simpl; [reflexivity|].
  intros Hk. destruct (keyEqb k x) eqn:E.
  - apply keyEqb_eq in E. tauto.
  - apply IH. tauto.
Qed.

Lemma countKey_Permutation k l l' :
  Permutation l l' -> countKey k l = countKey k l'.
Proof.
  unfold countKey. induction 1 as [|x l l' _ IH|x y l|l l' l'' _ IH1 _ IH2];
    simpl; try reflexivity.
  - destruct (keyEqb k x); simpl; now rewrite IH.
  - destruct (keyEqb k x), (keyEqb k y); reflexivity.
  - now rewrite IH1.
Qed.

(** With unique identities, a filtered part of the collection shows a
    channel once if it selects it and not at all otherwise. *)
Lemma countKey_unique (p : Channel -> bool) chs ch :
  NoDup (map channelKey chs) -> In ch chs ->
  countKey (channelKey ch) (map channelKey (List.filter p chs))
  = if p ch then 1%nat else 0%nat.
Proof.
  induction chs as [|c chs IH]; simpl; [tauto|].
  intros Hnd Hin. apply NoDup_cons in Hnd. destruct Hnd as [Hc Hnd].
  rewrite list_elem_of_In in Hc.
  assert (Hsub : forall k, In k (map channelKey (List.filter p chs)) ->
                           In k (map channelKey chs)).
  { intros k Hk. apply in_map_iff in Hk. destruct Hk as (x & <- & Hx).
    apply filter_In in Hx. apply in_map. tauto. }
  destruct Hin as [->|Hin].
  - destruct (p ch); simpl.
    + unfold countKey at 1. simpl.
      replace (keyEqb (channelKey ch) (channelKey ch)) with true
        by (symmetry; now apply keyEqb_eq).
      simpl. f_equal. apply countKey_absent. auto.
    + apply countKey_absent. auto.
  - assert (Hne : channelKey c <> channelKey ch).
    { intros Heq. apply Hc. rewrite Heq. now apply in_map. }
    rewrite <- (IH Hnd Hin). destruct (p c); simpl; [|reflexivity].
    unfold countKey. simpl. destruct (keyEqb (channelKey ch) (channelKey c)) eqn:E;
      [|reflexivity].
    apply keyEqb_eq in E. contradiction.
Qed.

Lemma unique_key chs c ch :
  NoDup (map channelKey chs) -> In c chs -> In ch chs ->
  channelKey c = channelKey ch -> c = ch.
Proof.
  induction chs as [|x chs IH]; simpl; [tauto|].
  intros Hnd Hc Hch Hk. apply NoDup_cons in Hnd. destruct Hnd as [Hx Hnd].
  rewrite list_elem_of_In in Hx.
  destruct Hc as [->|Hc], Hch as [->|Hch]; try reflexivity.
  - exfalso. apply Hx. rewrite Hk. now apply in_map.
  - exfalso. apply Hx. rewrite <- Hk. now apply in_map.
  - now apply IH.
Qed.

Lemma filter_filter {A} (p q : A -> bool) (l : list A) :
  List.filter p (List.filter q l) = List.filter (fun x => q x && p x) l.
Proof.
  induction l as [|x l IH]; simpl; [reflexivity|].
  destruct (q x); simpl; [destruct (p x)|]; now rewrite IH.
Qed.

(** Sums over a duplicate-free list of titles. *)
Lemma sum_indicator (l : list string) (a : string) (v : nat) :
  NoDup l ->
  list_sum (map (fun g => if String.eqb g a then v else 0%nat) l)
  = if bool_decide (a ∈ l) then v else 0%nat.
Proof.
  induction l as [|x l IH]; intros Hnd; cbn [map list_sum fold_right].
  - rewrite bool_decide_eq_false_2; [reflexivity|]. apply not_elem_of_nil.
  - apply NoDup_cons in Hnd. destruct Hnd as [Hx Hnd].
    change (fold_right Nat.add 0%nat ?m) with (list_sum m). rewrite (IH Hnd).
    destruct (String.eqb_spec x a) as [->|Hne].
    + rewrite (bool_decide_eq_true_2 (a ∈ a :: l))
        by apply list_elem_of_here.
      rewrite (bool_decide_eq_false_2 (a ∈ l)) by exact Hx. lia.
    + destruct (bool_decide_reflect (a ∈ l)) as [Hin|Hnin].
      * rewrite (bool_decide_eq_true_2 (a ∈ x :: l))
          by now apply list_elem_of_further.
        reflexivity.
      * rewrite (bool_decide_eq_false_2 (a ∈ x :: l)); [reflexivity|].
        rewrite elem_of_cons. intros [H|H]; [congruence|contradiction].
Qed.

Lemma list_sum_plus {A} (f g : A -> nat) (l : list A) :
  list_sum (map (fun x => (f x + g x)%nat) l)
  = (list_sum (map f l) + list_sum (map g l))%nat.
Proof. induction l as [|x l IH]; simpl; [reflexivity|]. rewrite IH. lia. Qed.

Lemma list_sum_ext_In {A} (f g : A -> nat) (l : list A) :
  (forall x, In x l -> f x = g x) -> list_sum (map f l) = list_sum (map g l).
Proof.
  induction l as [|x l IH]; simpl; [reflexivity|]. intros H.
  rewrite (H x) by now left. f_equal. apply IH. intros y Hy. apply H. now right.
Qed.

(** *** Every entity under its own group and under Favorites *)

Lemma filterChannels_filter st :
  filterChannels (searchTerm st) (channels st)
  = List.filter (passesSearch st) (channels st).
Proof.
  unfold ChannelList.filterChannels, ChannelList.passesSearch.
  destruct (String.eqb (searchTerm st) ""); simpl; [|reflexivity].
  symmetry. now apply filter_all.
Qed.

Lemma render_searchInput st : searchInput (rendered st) = searchInput st.
Proof. frame_render. Qed.

Lemma rendered_rowKeys (els : list GroupEl) :
  map rowKey (flat_map items els) = flat_map snd (map elSummary els).
Proof.
  induction els as [|el els IH]; simpl; [reflexivity|].
  now rewrite map_app, IH.
Qed.

Lemma flat_map_rowsOfGroup st names :
  flat_map snd (omap (groupSummary st) names) = flat_map (rowsOfGroup st) names.
Proof.
  induction names as [|g names IH]; [reflexivity|].
  cbn. unfold rowsOfGroup at 1.
  destruct (groupSummary st g); simpl; now rewrite IH.
Qed.

Lemma rowsOfGroup_other st g :
  g <> "Favorites" ->
  rowsOfGroup (rendered st) g
  = if groupHiddenIn (rendered st) g && negb (showHidden (rendered st)) then []
    else map channelKey
           (List.filter (rowVisible (rendered st) false)
              (List.filter (inGroup g) (filteredChannels (rendered st)))).
Proof.
  intros Hg. unfold rowsOfGroup, groupSummary, groupHiddenIn.
  rewrite (membersOf_render_other st g Hg).
  destruct (String.eqb_spec g "Favorites") as [|_]; [contradiction|].
  destruct (List.filter (inGroup g) (filteredChannels (rendered st)));
    [reflexivity|].
  now destruct (_ && _).
Qed.

Lemma rowsOfGroup_favorites st :
  favoritedChannels st <> [] ->
  rowsOfGroup (rendered st) "Favorites"
  = map channelKey (Js.sortBy compareNames (favoritedChannels st)).
Proof.
  intros Hne. unfold rowsOfGroup, groupSummary, groupHiddenIn.
  rewrite membersOf_render, (groupedView_favorites st Hne).
  change (default [] (Some ?x)) with x.
  destruct (Js.sortBy compareNames (favoritedChannels st)) as [|c l] eqn:E.
  - apply sortBy_nil_inv in E. contradiction.
  - change (String.eqb "Favorites" "Favorites") with true.
    cbn [negb andb snd]. f_equal. apply filter_all. intros x _.
    unfold rowVisible, channelHiddenIn. reflexivity.
Qed.

Lemma rowsOfGroup_In st g k :
  In k (rowsOfGroup st g) ->
  exists c, In c (membersOf st g) /\ channelKey c = k.
Proof.
  unfold rowsOfGroup, groupSummary.
  destruct (membersOf st g) as [|c0 l]; [simpl; tauto|].
  destruct (_ && _); [simpl; tauto|]. cbn [snd]. intros Hk.
  apply in_map_iff in Hk. destruct Hk as (c & Hc & Hin).
  apply filter_In in Hin. exists c. tauto.
Qed.

Lemma rowsOfGroup_natural_favorites st :
  favoritedChannels st = [] ->
  forall k, In k (rowsOfGroup (rendered st) "Favorites") ->
  exists c, In c (filteredChannels (rendered st))
            /\ groupKey c = "Favorites" /\ channelKey c = k.
Proof.
  intros Hnil k Hk. apply rowsOfGroup_In in Hk. destruct Hk as (c & Hin & Hc).
  rewrite membersOf_render in Hin.
  unfold ChannelList.groupedView, ChannelList.addFavorites in Hin.
  rewrite Hnil, groupChannels_get, <- render_filteredChannels in Hin.
  assert (Hin' : In c (List.filter (inGroup "Favorites")
                         (filteredChannels (rendered st)))).
  { destruct (List.filter (inGroup "Favorites") (filteredChannels (rendered st)));
      [destruct Hin | exact Hin]. }
  apply filter_In in Hin'. destruct Hin' as [Hf Hg].
  exists c. split; [exact Hf|]. split; [|exact Hc].
  now apply String.eqb_eq in Hg.
Qed.

Section UniqueIdentities.

(** The identities [(id, sourceId)] of the collection are pairwise
    different, and [ch] is an entity whose group is not titled
    "Favorites". *)
Variable st : State.
Variable ch : Channel.
Hypothesis unique : NoDup (map channelKey (channels st)).
Hypothesis present : In ch (channels st).
Hypothesis natural : groupKey ch <> "Favorites".

Abbreviation ownRows :=
  (if shownInOwnGroup (rendered st) ch then 1%nat else 0%nat).
Abbreviation favoriteRows :=
  (if isFavorite (rendered st) (ch_sourceId ch) (ch_id ch) then 1%nat else 0%nat).

Lemma filtered_In c :
  In c (filteredChannels (rendered st))
  <-> In c (channels st) /\ passesSearch st c = true.
Proof using Type.
  rewrite render_filteredChannels, filterChannels_filter. apply filter_In.
Qed.

Lemma passesSearch_render c : passesSearch (rendered st) c = passesSearch st c.
Proof using Type.
  unfold ChannelList.passesSearch, ChannelList.searchTerm.
  now rewrite render_searchInput.
Qed.

Lemma isFavorite_render a b : isFavorite (rendered st) a b = isFavorite st a b.
Proof using Type. unfold isFavorite. now rewrite render_visibleFavorites. Qed.

Lemma count_in_own_group :
  countKey (channelKey ch) (rowsOfGroup (rendered st) (groupKey ch)) = ownRows.
Proof using unique present natural.
  rewrite (rowsOfGroup_other st _ natural).
  unfold ChannelList.shownInOwnGroup.
  destruct (groupHiddenIn (rendered st) (groupKey ch)
            && negb (showHidden (rendered st))); simpl.
  - now rewrite andb_false_r.
  - rewrite andb_true_r, render_filteredChannels, filterChannels_filter.
    rewrite !filter_filter, (countKey_unique _ _ ch unique present).
    rewrite passesSearch_render. unfold inGroup.
    now rewrite String.eqb_refl, andb_true_l.
Qed.

Lemma count_in_other_group g :
  g <> "Favorites" -> g <> groupKey ch ->
  countKey (channelKey ch) (rowsOfGroup (rendered st) g) = 0%nat.
Proof using unique present.
  intros Hg Hne. apply countKey_absent. rewrite (rowsOfGroup_other st g Hg).
  destruct (_ && _); [tauto|]. intros Hk.
  apply in_map_iff in Hk. destruct Hk as (c & Hc & Hin).
  apply filter_In in Hin. destruct Hin as [Hin _].
  apply filter_In in Hin. destruct Hin as [Hin Hgc].
  apply filtered_In in Hin. destruct Hin as [Hin _].
  rewrite (unique_key _ c ch unique Hin present Hc) in Hgc.
  apply String.eqb_eq in Hgc. congruence.
Qed.

Lemma count_in_favorites :
  countKey (channelKey ch) (rowsOfGroup (rendered st) "Favorites") = favoriteRows.
Proof using unique present natural.
  rewrite isFavorite_render.
  destruct (favoritedChannels st) as [|c0 l] eqn:Hfav.
  - assert (Hno : isFavorite st (ch_sourceId ch) (ch_id ch) = false).
    { destruct (isFavorite st (ch_sourceId ch) (ch_id ch)) eqn:E;
        [|reflexivity].
      assert (Hin : In ch (favoritedChannels st))
        by (apply filter_In; now split).
      rewrite Hfav in Hin. destruct Hin. }
    rewrite Hno. apply countKey_absent. intros Hk.
    apply (rowsOfGroup_natural_favorites st Hfav) in Hk.
    destruct Hk as (c & Hin & Hg & Hc).
    apply filtered_In in Hin. destruct Hin as [Hin _].
    rewrite (unique_key _ c ch unique Hin present Hc) in Hg. contradiction.
  - rewrite rowsOfGroup_favorites by (rewrite Hfav; discriminate).
    rewrite (countKey_Permutation _ _ (map channelKey (favoritedChannels st)))
      by (apply Permutation_map, sortBy_Permutation).
    unfold favoritedChannels.
    apply (countKey_unique
             (fun c => isFavorite st (ch_sourceId c) (ch_id c)) _ ch unique present).
Qed.

(** The rows of all groups together show [ch] once for its own group, if
    it is shown there, and once for Favorites, if it is a favorite. *)
Lemma count_in_all_groups :
  countKey (channelKey ch) (flat_map (rowsOfGroup (rendered st)) (sortedGroups (rendered st)))
  = (ownRows + favoriteRows)%nat.
Proof using unique present natural.
  rewrite countKey_flat_map.
  rewrite (list_sum_ext_In _
             (fun g => ((if String.eqb g (groupKey ch) then ownRows else 0)
                        + (if String.eqb g "Favorites" then favoriteRows else 0))%nat)).
  2:{ intros g _. destruct (String.eqb_spec g "Favorites") as [->|Hg].
      - destruct (String.eqb_spec "Favorites" (groupKey ch)); [congruence|].
        apply count_in_favorites.
      - destruct (String.eqb_spec g (groupKey ch)) as [->|Hne].
        + rewrite count_in_own_group. lia.
        + now rewrite count_in_other_group. }
  rewrite list_sum_plus, !sum_indicator by apply sortedGroups_NoDup.
  f_equal.
  - destruct (bool_decide_reflect (groupKey ch ∈ sortedGroups (rendered st)))
      as [_|Hout]; [reflexivity|].
    unfold ChannelList.shownInOwnGroup.
    destruct (passesSearch (rendered st) ch) eqn:Hp; [|reflexivity].
    exfalso. apply Hout. apply list_elem_of_In, sortedGroups_In.
    apply (groupedView_keys st _ natural). exists ch.
    rewrite passesSearch_render in Hp.
    rewrite filterChannels_filter. split; [|reflexivity].
    apply filter_In. now split.
  - destruct (bool_decide_reflect ("Favorites" ∈ sortedGroups (rendered st)))
      as [_|Hout]; [reflexivity|].
    rewrite isFavorite_render.
    destruct (isFavorite st (ch_sourceId ch) (ch_id ch)) eqn:E; [|reflexivity].
    exfalso. apply Hout. apply list_elem_of_In, sortedGroups_In.
    apply groupedView_has_favorites.
    assert (Hin : In ch (favoritedChannels st)) by (apply filter_In; now split).
    intros Hnil. rewrite Hnil in Hin. destruct Hin.
Qed.

End UniqueIdentities.

(** The skip rule of the batch renderer reads the group flag under the
    source of the first member; where the members of a group come from
    one source this is the group flag of each of them. *)
Lemma groupHiddenIn_own st ch :
  In ch (channels st) -> groupKey ch <> "Favorites" ->
  passesSearch st ch = true ->
  (forall a, In a (channels st) -> groupKey a = groupKey ch ->
             ch_sourceId a = ch_sourceId ch) ->
  groupHiddenIn (rendered st) (groupKey ch)
  = isHidden st "group" (ch_sourceId ch) (groupKey ch).
Proof.
  intros Hin Hnat Hp Hsrc. unfold groupHiddenIn.
  rewrite membersOf_render_other by exact Hnat.
  assert (Hmem : In ch (List.filter (inGroup (groupKey ch))
                          (filteredChannels (rendered st)))).
  { apply filter_In. split; [apply filtered_In; now split|].
    unfold inGroup. apply String.eqb_refl. }
  destruct (List.filter (inGroup (groupKey ch)) (filteredChannels (rendered st)))
    as [|first rest] eqn:Ef; [destruct Hmem|].
  assert (Hf : In first (first :: rest)) by now left.
  rewrite <- Ef in Hf. apply filter_In in Hf. destruct Hf as [Hf Hg].
  apply filtered_In in Hf. unfold inGroup in Hg. apply String.eqb_eq in Hg.
  rewrite (Hsrc first (proj1 Hf) Hg).
  destruct (String.eqb_spec (groupKey ch) "Favorites"); [contradiction|].
  unfold isHidden. now rewrite render_hiddenItems.
Qed.

Lemma shownInOwnGroup_own st ch :
  In ch (channels st) -> groupKey ch <> "Favorites" ->
  (forall a, In a (channels st) -> groupKey a = groupKey ch ->
             ch_sourceId a = ch_sourceId ch) ->
  shownInOwnGroup (rendered st) ch = passesSearch st ch && unsuppressed st ch.
Proof.
  intros Hin Hnat Hsrc. unfold ChannelList.shownInOwnGroup.
  rewrite passesSearch_render.
  destruct (passesSearch st ch) eqn:Hp; [|reflexivity]. cbn [andb].
  rewrite (groupHiddenIn_own st ch Hin Hnat Hp Hsrc).
  unfold rowVisible, channelHiddenIn, unsuppressed, isHidden.
  rewrite render_hiddenItems, render_showHidden.
  destruct (default false (showHiddenCheckbox st)),
    (bool_decide (hiddenKey "channel" (ch_sourceId ch) (ch_id ch)
                  ∈ hiddenItems st)),
    (bool_decide (hiddenKey "group" (ch_sourceId ch) (groupKey ch)
                  ∈ hiddenItems st));
    reflexivity.
Qed.

(** C6, amended.  Let the texts of the channels be plain, the identities
    unique, no group title that passes the search filter name an
    inherited property, and the members of each group come from one
    source.  The rebuild completes; scrolling on until the loader is
    retired emits what each group of the sorted group order contributes,
    in that order, once, a group being skipped exactly when it is flagged
    hidden for the source of its members and show-hidden is off.  An
    entity whose own group is not titled "Favorites" then has one row
    under its own group if it passes the search filter and is not
    suppressed by the hidden rules (its own flag, the flag of its group
    for its source, show-hidden), plus one row under Favorites if it is a
    favorite. *)
Theorem scroll_renders_each_group_once st fuel :
  groupable st = true ->
  forallb markupSafe (channels st) = true ->
  NoDup (map channelKey (channels st)) ->
  (forall a b, In a (channels st) -> In b (channels st) ->
     groupKey a = groupKey b -> ch_sourceId a = ch_sourceId b) ->
  let st1 := stateOf (render st) in
  (length (sortedGroups st1) <= fuel)%nat ->
  let shown := scrollToEnd fuel st1 in
  render st = Normal st1
  /\ loaderRetired shown = true
  /\ NoDup (sortedGroups st1)
  /\ map elSummary (renderedGroups shown)
     = omap (groupSummary st1) (sortedGroups st1)
  /\ (forall ch, In ch (channels st) -> groupKey ch <> "Favorites" ->
        passesSearch st ch = true ->
        groupHiddenIn st1 (groupKey ch)
        = isHidden st "group" (ch_sourceId ch) (groupKey ch))
  /\ (forall ch, In ch (channels st) -> groupKey ch <> "Favorites" ->
        occurrences ch (renderedItems shown)
        = ((if passesSearch st ch && unsuppressed st ch then 1 else 0)
           + (if isFavorite st (ch_sourceId ch) (ch_id ch)
              then 1 else 0))%nat).
Proof.
  intros Hgr _ Hunique Hsrc st1. subst st1.
  rewrite (render_Normal st Hgr). cbv zeta. cbn [stateOf]. intros Hfuel.
  destruct (scroll_completes st fuel Hfuel) as [Hret Hrows].
  split; [reflexivity|].
  split; [exact Hret|]. split; [apply sortedGroups_NoDup|].
  split; [exact Hrows|]. split.
  - intros ch Hin Hnat Hp. apply groupHiddenIn_own; try assumption.
    intros a Ha. now apply Hsrc.
  - intros ch Hin Hnat.
    rewrite occurrences_keys. unfold renderedItems.
    rewrite rendered_rowKeys, Hrows, flat_map_rowsOfGroup.
    rewrite (count_in_all_groups st ch Hunique Hin Hnat).
    rewrite shownInOwnGroup_own; try assumption.
    + unfold isFavorite. now rewrite render_visibleFavorites.
    + intros a Ha. now apply Hsrc.
Qed.

(** *** The optimistic controller *)

Lemma patchButtons_frame btns f st :
  channels (patchButtons btns f st) = channels st
  /\ visibleFavorites (patchButtons btns f st) = visibleFavorites st
  /\ groupedChannels (patchButtons btns f st) = groupedChannels st.
Proof. repeat split. Qed.

(** [updateFavoritesGroup] keeps the collection and the cached set,
    however it ends. *)
Lemma updateFavoritesGroup_frame channel isAdded st :
  let st' := stateOf (updateFavoritesGroup channel isAdded st) in
  channels st' = channels st /\ visibleFavorites st' = visibleFavorites st.
Proof.
  cbv zeta. unfold ChannelList.updateFavoritesGroup.
  destruct (groupedChannels st) as [grouped|]; [|now split].
  set (st1 := set_groupedChannels _ st).
  destruct (listContainer st1) as [lc|]; [|now split].
  destruct (onFavoritesEl _ lc) as [lc'|]; [now split|].
  destruct (isAdded && _); [|now split].
  destruct (render_frame st1) as (Hc & _ & Hv & _). now rewrite Hc, Hv.
Qed.


Lemma unflip_present (key : string) (favs : gset string) :
  key ∈ favs -> {[key]} ∪ favs ∖ {[key]} = favs.
Proof. intros H. symmetry. now apply union_difference_singleton_L. Qed.

Lemma unflip_absent (key : string) (favs : gset string) :
  key ∉ favs -> ({[key]} ∪ favs) ∖ {[key]} = favs.
Proof. set_solver. Qed.

Lemma findChannel_channels st st' sourceId channelId :
  channels st' = channels st ->
  findChannel st' sourceId channelId = findChannel st sourceId channelId.
Proof. unfold findChannel. now intros ->. Qed.

Lemma reverted_log issued o :
  effects o = issued ++ [console_error "Error toggling favorite:"] ->
  reverted o = true.
Proof.
  unfold reverted. intros ->. rewrite existsb_app. cbn. apply orb_true_r.
Qed.

(** The [catch] block: the cached membership is set back and the error is
    logged; the promise rejects only when the group update throws again. *)
Lemma revertFavorite_spec sourceId channelId wasFavorite btns issued st :
  let key := favoriteKey sourceId channelId in
  let o := revertFavorite sourceId channelId wasFavorite btns issued st in
  channels (final o) = channels st
  /\ visibleFavorites (final o)
     = (if wasFavorite then {[key]} ∪ visibleFavorites st
        else visibleFavorites st ∖ {[key]})
  /\ effects o = issued ++ [console_error "Error toggling favorite:"]
  /\ (findChannel st sourceId channelId = None -> rejected o = false).
Proof.
  intros key o. subst o. unfold ChannelList.revertFavorite. fold key.
  set (st1 := if wasFavorite then _ else _).
  assert (H1 : channels st1 = channels st
               /\ visibleFavorites st1
                  = (if wasFavorite then {[key]} ∪ visibleFavorites st
                     else visibleFavorites st ∖ {[key]})).
  { subst st1. destruct wasFavorite; split; reflexivity. }
  destruct H1 as (Hc & Hv).
  rewrite (findChannel_channels st st1) by exact Hc.
  destruct (findChannel st sourceId channelId) as [channel|].
  - destruct (updateFavoritesGroup_frame channel wasFavorite st1) as (Hc2 & Hv2).
    destruct (updateFavoritesGroup channel wasFavorite st1) as [st2|st2];
      cbn [stateOf final effects rejected] in *;
      rewrite Hc2, Hv2, Hc, Hv; repeat split; discriminate.
  - cbn [final effects rejected]. rewrite Hc, Hv. repeat split.
Qed.

(** One toggle: the collection is kept; the cached membership is flipped,
    unless the [catch] block ran, which leaves it as it was before.  The
    block runs when the remote call fails and when the update of the
    Favorites group throws. *)
Lemma toggleFavorite_spec sourceId channelId remoteOk st :
  let key := favoriteKey sourceId channelId in
  let o := toggleFavorite sourceId channelId remoteOk st in
  channels (final o) = channels st
  /\ visibleFavorites (final o)
     = (if reverted o then visibleFavorites st
        else flipped key (visibleFavorites st))
  /\ (findChannel st sourceId channelId = None ->
      reverted o = negb remoteOk)
  /\ (remoteOk = false -> reverted o = true).
Proof.
  intros key o. subst o. unfold ChannelList.toggleFavorite. fold key.
  set (was := bool_decide (key ∈ visibleFavorites st)).
  set (btns := queryButtons st sourceId channelId).
  set (st1 := if was then _ else _).
  assert (H1 : channels st1 = channels st
               /\ visibleFavorites st1 = flipped key (visibleFavorites st)).
  { subst st1. unfold flipped. fold was. destruct was; split; reflexivity. }
  destruct H1 as (Hc & Hv).
  assert (Hback : (if was then {[key]} ∪ flipped key (visibleFavorites st)
                   else flipped key (visibleFavorites st) ∖ {[key]})
                  = visibleFavorites st).
  { unfold flipped. fold was. subst was.
    destruct (bool_decide_reflect (key ∈ visibleFavorites st)).
    - now apply unflip_present.
    - now apply unflip_absent. }
  assert (Hrev : forall issued st2,
             channels st2 = channels st ->
             visibleFavorites st2 = flipped key (visibleFavorites st) ->
             let o := revertFavorite sourceId channelId was btns issued st2 in
             channels (final o) = channels st
             /\ visibleFavorites (final o)
                = (if reverted o then visibleFavorites st
                   else flipped key (visibleFavorites st))
             /\ reverted o = true).
  { intros issued st2 Hc2 Hv2 o.
    destruct (revertFavorite_spec sourceId channelId was btns issued st2)
      as (Rc & Rv & Re & _). fold o in Rc, Rv, Re.
    rewrite (reverted_log issued o Re), Rc, Rv, Hc2, Hv2. fold key.
    now rewrite Hback. }
  rewrite (findChannel_channels st st1) by exact Hc.
  destruct (findChannel st sourceId channelId) as [channel|] eqn:Hfind.
  - destruct (updateFavoritesGroup_frame channel (negb was) st1) as (Hc2 & Hv2).
    destruct (updateFavoritesGroup channel (negb was) st1) as [st2|st2];
      cbn [stateOf] in Hc2, Hv2.
    + destruct remoteOk.
      * cbn [final effects]. unfold reverted. cbn [effects].
        replace (existsb _ _) with false
          by (destruct was, hasEpgGuide; reflexivity).
        rewrite Hc2, Hv2, Hc, Hv. repeat split; discriminate.
      * destruct (Hrev [if was then api_favorites_remove sourceId channelId
                        else api_favorites_add sourceId channelId] st2)
          as (Rc & Rv & Rr); [congruence|congruence|].
        rewrite Rr in *. repeat split; try assumption; discriminate.
    + destruct (Hrev [] st2) as (Rc & Rv & Rr); [congruence|congruence|].
      rewrite Rr in *. repeat split; try assumption; discriminate.
  - destruct remoteOk.
    + cbn [final effects]. unfold reverted. cbn [effects].
      replace (existsb _ _) with false
        by (destruct was, hasEpgGuide; reflexivity).
      rewrite Hc, Hv. repeat split; discriminate.
    + destruct (Hrev [if was then api_favorites_remove sourceId channelId
                      else api_favorites_add sourceId channelId] st1)
        as (Rc & Rv & Rr); [exact Hc|exact Hv|].
      rewrite Rr in *. repeat split; assumption.
Qed.


Lemma find_all_false {A} (f : A -> bool) (l : list A) :
  (forall x, In x l -> f x = false) -> List.find f l = None.
Proof.
  induction l as [|x l IH]; simpl; [reflexivity|]. intros H.
  rewrite (H x) by now left. apply IH. intros y Hy. apply H. now right.
Qed.

Lemma findChannel_absent st sourceId channelId :
  (forall c, In c (channels st) -> ch_id c <> channelId) ->
  findChannel st sourceId channelId = None.
Proof.
  intros Habs. apply find_all_false. intros c Hc.
  apply andb_false_iff. right. apply String.eqb_neq. now apply Habs.
Qed.

(** C9, amended.  For an id that no channel of the collection has and that
    is plain text (the toggle pastes it into an attribute selector):
    selecting it is a no-op behind the existence check (same state, no
    call, no rejection); toggling its favorite flag never rejects and leaves
    the collection and the grouped view alone, but is not guarded: the
    remote add/remove call is issued first thing, the cached membership is
    flipped when the call succeeds and set back when it fails. *)
Theorem absent_id_select_noop_toggle_unguarded st channelId :
  (forall c, In c (channels st) -> ch_id c <> channelId) ->
  Js.plain channelId = true ->
  (forall resolved, selectChannel channelId resolved st = mkOutcome st [] false)
  /\ (forall sourceId remoteOk,
        let key := favoriteKey sourceId channelId in
        let o := toggleFavorite sourceId channelId remoteOk st in
        rejected o = false
        /\ channels (final o) = channels st
        /\ groupedChannels (final o) = groupedChannels st
        /\ hd_error (effects o)
           = Some (if isFavorite st sourceId channelId
                   then api_favorites_remove sourceId channelId
                   else api_favorites_add sourceId channelId)
        /\ visibleFavorites (final o)
           = (if remoteOk then flipped key (visibleFavorites st)
              else visibleFavorites st)).
Proof.
  intros Habs _. split.
  - intros resolved. unfold ChannelList.selectChannel.
    rewrite find_all_false; [reflexivity|].
    intros c Hc. apply String.eqb_neq. now apply Habs.
  - intros sourceId remoteOk key o.
    pose proof (findChannel_absent st sourceId channelId Habs) as Hnone.
    destruct (toggleFavorite_spec sourceId channelId remoteOk st)
      as (Hc & Hv & Hrev & _). fold o key in Hc, Hv, Hrev.
    assert (Hrest : rejected o = false
                    /\ groupedChannels (final o) = groupedChannels st
                    /\ hd_error (effects o)
                       = Some (if isFavorite st sourceId channelId
                               then api_favorites_remove sourceId channelId
                               else api_favorites_add sourceId channelId)).
    { subst o. unfold ChannelList.toggleFavorite, isFavorite.
      set (was := bool_decide (_ ∈ visibleFavorites st)).
      set (btns := queryButtons st sourceId channelId).
      set (st1 := if was then _ else _).
      assert (H1 : channels st1 = channels st
                   /\ groupedChannels st1 = groupedChannels st).
      { subst st1. destruct was;
          match goal with |- context [patchButtons ?b ?f ?s] =>
            destruct (patchButtons_frame b f s) as (Hc1 & _ & Hg1) end;
          rewrite Hc1, Hg1; split; reflexivity. }
      destruct H1 as (Hc1 & Hg1).
      rewrite (findChannel_channels st st1), Hnone by exact Hc1.
      destruct remoteOk; [simpl; now rewrite Hg1|].
      unfold ChannelList.revertFavorite.
      set (st2 := if was then _ else _).
      assert (H2 : channels st2 = channels st1
                   /\ groupedChannels st2 = groupedChannels st1).
      { subst st2. destruct was;
          match goal with |- context [patchButtons ?b ?f ?s] =>
            destruct (patchButtons_frame b f s) as (Hc2 & _ & Hg2) end;
          rewrite Hc2, Hg2; split; reflexivity. }
      destruct H2 as (Hc2 & Hg2).
      rewrite (findChannel_channels st1 st2), (findChannel_channels st st1),
        Hnone by assumption.
      simpl. now rewrite Hg2, Hg1. }
    destruct Hrest as (Hr & Hg & He).
    repeat split; try assumption.
    rewrite Hv, (Hrev Hnone). now destruct remoteOk.
Qed.

(** *** Favorites pushed from outside *)

Abbreviation syncFavorite :=
  (ChannelList.syncFavorite toLowerCase localeCompare).
Abbreviation selectNextChannel := (ChannelList.selectNextChannel hasPlayer).
Abbreviation selectPrevChannel := (ChannelList.selectPrevChannel hasPlayer).
Abbreviation handleContextAction :=
  (ChannelList.handleContextAction toLowerCase localeCompare hasPlayer).

Lemma syncFavorite_flags sourceId channelId isFav st :
  let st' := stateOf (syncFavorite sourceId channelId isFav st) in
  isFavorite st' sourceId channelId = isFav
  /\ (forall key, key <> favoriteKey sourceId channelId ->
        key ∈ visibleFavorites st' <-> key ∈ visibleFavorites st)
  /\ channels st' = channels st.
Proof.
  cbv zeta. unfold ChannelList.syncFavorite, isFavorite.
  set (key := favoriteKey sourceId channelId).
  destruct (Bool.eqb_spec (bool_decide (key ∈ visibleFavorites st)) isFav)
    as [Heq|Hne]; [simpl; tauto|].
  set (st1 := set_visibleFavorites _ st).
  set (btns := queryButtons st1 sourceId channelId).
  set (st2 := patchButtons btns _ st1).
  destruct (patchButtons_frame btns
              (if isFav then btnOptimisticOn else btnOptimisticOff) st1)
    as (Hc & Hv & _). fold st2 in Hc, Hv.
  assert (Hst2 : bool_decide (key ∈ visibleFavorites st2) = isFav
                 /\ (forall k, k <> key ->
                       k ∈ visibleFavorites st2 <-> k ∈ visibleFavorites st)
                 /\ channels st2 = channels st).
  { rewrite Hv, Hc. subst st1.
    cbn [visibleFavorites set_visibleFavorites channels].
    destruct isFav.
    - split; [apply bool_decide_eq_true_2; set_solver|].
      split; [intros k Hk; set_solver|reflexivity].
    - split; [apply bool_decide_eq_false_2; set_solver|].
      split; [intros k Hk; set_solver|reflexivity]. }
  destruct (findChannel st2 sourceId channelId) as [channel|];
    [|exact Hst2].
  destruct (updateFavoritesGroup_frame channel isFav st2) as (Hc3 & Hv3).
  rewrite Hv3, Hc3. exact Hst2.
Qed.

(** X15.  However [syncFavorite] ends, the cached flag of the pair is the one
    asked for, the flag of every other key and the collection are as
    before, and asking again changes nothing. *)
Theorem syncFavorite_settles sourceId channelId isFav st :
  let st' := stateOf (syncFavorite sourceId channelId isFav st) in
  isFavorite st' sourceId channelId = isFav
  /\ (forall key, key <> favoriteKey sourceId channelId ->
        key ∈ visibleFavorites st' <-> key ∈ visibleFavorites st)
  /\ channels st' = channels st
  /\ syncFavorite sourceId channelId isFav st' = Normal st'.
Proof.
  cbv zeta.
  destruct (syncFavorite_flags sourceId channelId isFav st)
    as (Hflag & Hother & Hch).
  split; [exact Hflag|]. split; [exact Hother|]. split; [exact Hch|].
  unfold ChannelList.syncFavorite at 1.
  unfold isFavorite in Hflag. rewrite Hflag.
  now rewrite Bool.eqb_reflx.
Qed.



(** *** The context menu *)

Lemma pretty_N_char_not_u (n : N) : pretty_N_char n <> "u"%char.
Proof. unfold pretty_N_char. repeat case_match; discriminate. Qed.

Lemma pretty_N_go_head (x : N) : forall s,
  (0 < x)%N ->
  exists c t, pretty_N_go x s = String c t /\ c <> "u"%char.
Proof.
  induction (N.lt_wf_0 x) as [x _ IH]. intros s Hx.
  rewrite pretty_N_go_step by exact Hx.
  destruct (N.eq_dec (x `div` 10)%N 0%N) as [E|E].
  - rewrite E, pretty_N_go_0. eexists _, _. split; [reflexivity|].
    apply pretty_N_char_not_u.
  - apply IH; [apply N.div_lt; lia|].
    apply N.neq_0_lt_0. exact E.
Qed.

Lemma pretty_Z_head (z : Z) :
  exists c t, pretty z = String c t /\ c <> "u"%char.
Proof.
  destruct z as [|p|p].
  - exists "0"%char, "". split; [reflexivity|discriminate].
  - unfold pretty, pretty_Z, pretty, pretty_positive, pretty, pretty_N.
    destruct (decide (N.pos p = 0%N)); [discriminate|].
    apply pretty_N_go_head. lia.
  - exists "-"%char. eexists. split; [reflexivity|discriminate].
Qed.

(** The decimal text of a number is never the text "undefined". *)
Lemma hiddenKey_not_undefined type sourceId itemId item' :
  hiddenKey type sourceId itemId
  <> (type ++ ":" ++ "undefined" ++ ":" ++ item')%string.
Proof.
  unfold hiddenKey. intros H. apply String.app_inj in H.
  change (":" ++ ?x)%string with (String ":" x) in H.
  injection H as H.
  destruct (pretty_Z_head sourceId) as (c & t & Hp & Hc). rewrite Hp in H.
  change (String c t ++ ?x)%string with (String c (t ++ x)%string) in H.
  change ("undefined" ++ ?x)%string
    with (String "u" ("ndefined" ++ x)%string) in H.
  injection H as Hh _. contradiction.
Qed.

(** X17.  [hide] from the menu of a group header: the remote call gets [NaN]
    for the source, and in the component no group and no channel becomes
    hidden for any source. *)
Theorem context_hide_on_header_is_inert h hideOk resolved st :
  let o := handleContextAction act_hide (showContextMenu (on_header h))
             hideOk resolved st in
  m_effects o = [api_channels_hide None "group" (gh_group h)]
  /\ (forall sourceId itemId,
        isHidden (m_final o) "group" sourceId itemId
        = isHidden st "group" sourceId itemId)
  /\ (forall sourceId itemId,
        isHidden (m_final o) "channel" sourceId itemId
        = isHidden st "channel" sourceId itemId).
Proof.
  cbv zeta. unfold ChannelList.handleContextAction.
  cbn [showContextMenu menu_type menu_sourceId menu_itemId option_map
       Js.template].
  destruct hideOk; [|cbn [m_effects m_final]; repeat split].
  set (st1 := set_hiddenItems _ st).
  assert (Hh : hiddenItems (stateOf (render st1)) = hiddenItems st1)
    by apply render_frame.
  destruct (render st1) as [st'|st']; cbn [m_effects m_final stateOf] in *;
    (split; [reflexivity|]); unfold isHidden; rewrite Hh; subst st1;
    cbn [hiddenItems set_hiddenItems];
    (split; intros sourceId itemId; apply bool_decide_ext;
     [pose proof (hiddenKey_not_undefined "group" sourceId itemId (gh_group h))
     |assert (hiddenKey "channel" sourceId itemId
              <> ("group" ++ ":" ++ "undefined" ++ ":" ++ gh_group h)%string)
        by discriminate]; set_solver).
Qed.

(** X18.  [hide] from the menu of a channel row, the show-hidden box not
    ticked, the grouping loop getting through the filtered list and the
    texts of the channels being plain: the call completes, the remote
    call names the channel, and once the rebuilt list is scrolled to its
    end the channel has no row under its own group; it keeps the row
    under Favorites if it is a favorite. *)
Theorem context_hide_on_item_removes_row st ch it resolved fuel :
  NoDup (map channelKey (channels st)) ->
  In ch (channels st) ->
  groupKey ch <> "Favorites" ->
  rowKey it = channelKey ch ->
  default false (showHiddenCheckbox st) = false ->
  groupable st = true ->
  forallb markupSafe (channels st) = true ->
  let o := handleContextAction act_hide (showContextMenu (on_item it))
             true resolved st in
  (length (sortedGroups (m_final o)) <= fuel)%nat ->
  m_rejected o = false
  /\ m_effects o
     = [api_channels_hide (Some (ch_sourceId ch)) "channel" (ch_id ch)]
  /\ isHidden (m_final o) "channel" (ch_sourceId ch) (ch_id ch) = true
  /\ occurrences ch (renderedItems (scrollToEnd fuel (m_final o)))
     = (if isFavorite st (ch_sourceId ch) (ch_id ch) then 1 else 0)%nat.
Proof.
  intros Hunique Hin Hnat Hrow Hbox Hgr _. cbv zeta.
  unfold rowKey, channelKey in Hrow. injection Hrow as Hid Hsrc.
  unfold ChannelList.handleContextAction.
  cbn [showContextMenu menu_type menu_sourceId menu_itemId option_map
       Js.template].
  rewrite Hid, Hsrc.
  change ("channel" ++ ":" ++ pretty (ch_sourceId ch) ++ ":" ++ ch_id ch)%string
    with (hiddenKey "channel" (ch_sourceId ch) (ch_id ch)).
  set (key := hiddenKey "channel" (ch_sourceId ch) (ch_id ch)).
  set (st1 := set_hiddenItems ({[key]} ∪ hiddenItems st) st).
  rewrite (render_Normal st1) by exact Hgr.
  cbn [m_effects m_final m_rejected].
  intros Hfuel.
  assert (Hhid : isHidden (rendered st1) "channel" (ch_sourceId ch) (ch_id ch)
                 = true).
  { unfold isHidden. rewrite render_hiddenItems. fold key.
    apply bool_decide_eq_true_2. subst st1. simpl. set_solver. }
  split; [reflexivity|]. split; [reflexivity|]. split; [exact Hhid|].
  destruct (scroll_completes st1 fuel Hfuel) as [_ Hrows].
  rewrite occurrences_keys. unfold renderedItems.
  rewrite rendered_rowKeys, Hrows, flat_map_rowsOfGroup.
  rewrite (count_in_all_groups st1 ch Hunique Hin Hnat).
  unfold ChannelList.shownInOwnGroup, rowVisible, channelHiddenIn.
  rewrite Hhid, render_showHidden.
  change (showHiddenCheckbox st1) with (showHiddenCheckbox st).
  rewrite Hbox. cbn [negb andb]. rewrite andb_false_r. cbn [andb].
  unfold isFavorite. rewrite render_visibleFavorites. reflexivity.
Qed.

(** *** Stepping through the filtered list *)

Lemma map_sublist {A B} (f : A -> B) (l1 l2 : list A) :
  sublist l1 l2 -> sublist (map f l1) (map f l2).
Proof. induction 1; simpl; now constructor. Qed.

Lemma findIndex_unique (l : list Channel) (c : Channel) (i : nat) :
  NoDup (map ch_id l) -> nth_error l i = Some c ->
  Js.findIndex (sameChannel c) l = Some i.
Proof.
  revert i. induction l as [|x r IH]; intros i Hnd Hi;
    [destruct i; discriminate|].
  simpl in Hnd. apply NoDup_cons in Hnd. destruct Hnd as [Hx Hr].
  destruct i as [|j]; simpl in Hi |- *.
  - injection Hi as ->. unfold sameChannel.
    now rewrite String.eqb_refl, Z.eqb_refl.
  - unfold sameChannel at 1.
    destruct (String.eqb_spec (ch_id x) (ch_id c)) as [E|_].
    + exfalso. apply Hx. rewrite E. apply list_elem_of_In, in_map.
      eapply nth_error_In. exact Hi.
    + cbn [andb]. now rewrite (IH j Hr Hi).
Qed.

Lemma find_by_id (l : list Channel) (c : Channel) :
  NoDup (map ch_id l) -> In c l ->
  List.find (fun x => String.eqb (ch_id x) (ch_id c)) l = Some c.
Proof.
  induction l as [|x r IH]; intros Hnd Hin; [destruct Hin|].
  simpl in Hnd. apply NoDup_cons in Hnd. destruct Hnd as [Hx Hr]. simpl.
  destruct Hin as [->|Hin]; [now rewrite String.eqb_refl|].
  destruct (String.eqb_spec (ch_id x) (ch_id c)) as [E|_]; [|now apply IH].
  exfalso. apply Hx. rewrite E. now apply list_elem_of_In, in_map.
Qed.

Lemma markActive_frame channelId st :
  channels (markActive channelId st) = channels st
  /\ filteredChannels (markActive channelId st) = filteredChannels st
  /\ currentChannel (markActive channelId st) = currentChannel st.
Proof. unfold markActive. destruct (container st); repeat split. Qed.

(** Selecting a channel of the collection, ids being unique, makes it the
    current channel. *)
Lemma selectChannel_current st c resolved :
  NoDup (map ch_id (channels st)) -> In c (channels st) ->
  currentChannel (final (selectChannel (ch_id c) resolved st)) = Some c
  /\ channels (final (selectChannel (ch_id c) resolved st)) = channels st
  /\ filteredChannels (final (selectChannel (ch_id c) resolved st))
     = filteredChannels st.
Proof.
  intros Hnd Hin. unfold ChannelList.selectChannel.
  rewrite (find_by_id _ _ Hnd Hin).
  destruct (markActive_frame (ch_id c) (set_currentChannel (Some c) st))
    as (Hc & Hf & Hcur).
  destruct (ch_sourceType c); [destruct resolved|]; cbn [final];
    rewrite Hc, Hf, Hcur; repeat split.
Qed.

Lemma step_to st cur i k c resolved :
  NoDup (map ch_id (channels st)) ->
  sublist (filteredChannels st) (channels st) ->
  currentChannel st = Some cur ->
  nth_error (filteredChannels st) i = Some cur ->
  nth_error (filteredChannels st) k = Some c ->
  match Js.findIndex (sameChannel cur) (filteredChannels st) with
  | Some currentIndex => currentIndex = i
  | None => False
  end
  /\ currentChannel (final (selectChannel (ch_id c) resolved st)) = Some c
  /\ channels (final (selectChannel (ch_id c) resolved st)) = channels st
  /\ filteredChannels (final (selectChannel (ch_id c) resolved st))
     = filteredChannels st.
Proof.
  intros Hnd Hsub Hcur Hi Hk.
  assert (Hndf : NoDup (map ch_id (filteredChannels st)))
    by (eapply sublist_NoDup; [exact Hnd|now apply map_sublist]).
  rewrite (findIndex_unique _ _ _ Hndf Hi). split; [reflexivity|].
  apply selectChannel_current; [exact Hnd|].
  apply list_elem_of_In. eapply elem_of_sublist; [|exact Hsub].
  apply list_elem_of_In. eapply nth_error_In. exact Hk.
Qed.

Lemma nth_error_mod {A} (l : list A) (i k : nat) (x : A) :
  nth_error l i = Some x -> exists y, nth_error l (k mod length l) = Some y.
Proof.
  intros Hi. assert (Hlen : (i < length l)%nat)
    by (apply nth_error_Some; congruence).
  destruct (nth_error l (k mod length l)) as [y|] eqn:E; [now exists y|].
  apply nth_error_None in E.
  pose proof (Nat.mod_upper_bound k (length l)). lia.
Qed.

Lemma next_index_back (i n : nat) :
  (i < n)%nat -> (((i + 1) mod n + n - 1) mod n = i)%nat.
Proof.
  intros Hi. destruct (Nat.eq_dec (i + 1)%nat n) as [E|E].
  - rewrite E, Nat.Div0.mod_same. simpl. rewrite Nat.mod_small; lia.
  - rewrite (Nat.mod_small (i + 1)%nat n) by lia.
    replace (i + 1 + n - 1)%nat with (i + 1 * n)%nat by lia.
    rewrite Nat.Div0.mod_add. apply Nat.mod_small. lia.
Qed.

Lemma prev_index_forth (i n : nat) :
  (i < n)%nat -> (((i + n - 1) mod n + 1) mod n = i)%nat.
Proof.
  intros Hi. destruct i as [|j].
  - rewrite (Nat.mod_small (0 + n - 1)%nat n) by lia.
    replace (0 + n - 1 + 1)%nat with n by lia. apply Nat.Div0.mod_same.
  - replace (S j + n - 1)%nat with (j + 1 * n)%nat by lia.
    rewrite Nat.Div0.mod_add, (Nat.mod_small j n) by lia.
    replace (j + 1)%nat with (S j) by lia. apply Nat.mod_small. lia.
Qed.

Lemma selectNext_spec st cur i resolved :
  NoDup (map ch_id (channels st)) ->
  sublist (filteredChannels st) (channels st) ->
  currentChannel st = Some cur ->
  nth_error (filteredChannels st) i = Some cur ->
  let st' := final (selectNextChannel resolved st) in
  currentChannel st'
  = nth_error (filteredChannels st)
      ((i + 1) mod length (filteredChannels st))%nat
  /\ channels st' = channels st
  /\ filteredChannels st' = filteredChannels st.
Proof.
  intros Hnd Hsub Hcur Hi. cbv zeta.
  destruct (nth_error_mod _ i (i + 1)%nat _ Hi) as [c Hk].
  destruct (step_to st cur i _ c resolved Hnd Hsub Hcur Hi Hk)
    as (Hidx & Hsel).
  unfold ChannelList.selectNextChannel. rewrite Hcur.
  destruct (filteredChannels st) as [|x r] eqn:Ef;
    [destruct i; discriminate|].
  destruct (Js.findIndex (sameChannel cur) (x :: r)) as [j|];
    [subst j|destruct Hidx].
  rewrite Hk. cbn [detached final]. exact Hsel.
Qed.

Lemma selectPrev_spec st cur i resolved :
  NoDup (map ch_id (channels st)) ->
  sublist (filteredChannels st) (channels st) ->
  currentChannel st = Some cur ->
  nth_error (filteredChannels st) i = Some cur ->
  let st' := final (selectPrevChannel resolved st) in
  currentChannel st'
  = nth_error (filteredChannels st)
      ((i + length (filteredChannels st) - 1)
       mod length (filteredChannels st))%nat
  /\ channels st' = channels st
  /\ filteredChannels st' = filteredChannels st.
Proof.
  intros Hnd Hsub Hcur Hi. cbv zeta.
  destruct (nth_error_mod _ i (i + length (filteredChannels st) - 1)%nat _ Hi)
    as [c Hk].
  destruct (step_to st cur i _ c resolved Hnd Hsub Hcur Hi Hk)
    as (Hidx & Hsel).
  unfold ChannelList.selectPrevChannel. rewrite Hcur.
  destruct (filteredChannels st) as [|x r] eqn:Ef;
    [destruct i; discriminate|].
  destruct (Js.findIndex (sameChannel cur) (x :: r)) as [j|];
    [subst j|destruct Hidx].
  rewrite Hk. cbn [detached final]. exact Hsel.
Qed.

(** X19.  With unique ids and the current channel in the filtered list (which
    is part of the collection), [selectNextChannel] moves to the channel
    after it, from the last one to the first; [selectPrevChannel] moves
    the other way; and each undoes the other. *)
Theorem next_and_prev_are_inverse st cur r1 r2 :
  NoDup (map ch_id (channels st)) ->
  sublist (filteredChannels st) (channels st) ->
  currentChannel st = Some cur ->
  In cur (filteredChannels st) ->
  let n := length (filteredChannels st) in
  (exists i,
      nth_error (filteredChannels st) i = Some cur
      /\ currentChannel (final (selectNextChannel r1 st))
         = nth_error (filteredChannels st) ((i + 1) mod n)%nat
      /\ currentChannel (final (selectPrevChannel r1 st))
         = nth_error (filteredChannels st) ((i + n - 1) mod n)%nat)
  /\ currentChannel
       (final (selectPrevChannel r2 (final (selectNextChannel r1 st))))
     = Some cur
  /\ currentChannel
       (final (selectNextChannel r2 (final (selectPrevChannel r1 st))))
     = Some cur.
Proof.
  intros Hnd Hsub Hcur Hin. cbv zeta.
  destruct (In_nth_error _ _ Hin) as [i Hi].
  assert (Hlen : (i < length (filteredChannels st))%nat)
    by (apply nth_error_Some; congruence).
  destruct (selectNext_spec st cur i r1 Hnd Hsub Hcur Hi) as (Hn & Hnc & Hnf).
  destruct (selectPrev_spec st cur i r1 Hnd Hsub Hcur Hi) as (Hp & Hpc & Hpf).
  split; [exists i; now repeat split|]. split.
  - destruct (nth_error_mod _ i (i + 1)%nat _ Hi) as [c Hk].
    rewrite Hk in Hn.
    destruct (selectPrev_spec (final (selectNextChannel r1 st)) c
                ((i + 1) mod length (filteredChannels st))%nat r2)
      as (Hback & _); rewrite ?Hnc, ?Hnf; try assumption.
    rewrite Hback, Hnf, next_index_back by exact Hlen. exact Hi.
  - destruct (nth_error_mod _ i (i + length (filteredChannels st) - 1)%nat _ Hi)
      as [c Hk].
    rewrite Hk in Hp.
    destruct (selectNext_spec (final (selectPrevChannel r1 st)) c
                ((i + length (filteredChannels st) - 1)
                 mod length (filteredChannels st))%nat r2)
      as (Hforth & _); rewrite ?Hpc, ?Hpf; try assumption.
    rewrite Hforth, Hpf, prev_index_forth by exact Hlen. exact Hi.
Qed.

(** *** Invariants of the page *)

Lemma flags_of_view (l : list GroupEl) (S : gset string) :
  Forall (fun g => gh_collapsed (header g) = bool_decide (groupOf g ∈ S)) l
  <-> Forall (fun v : string * bool * nat * list (string * Z) =>
                snd (fst (fst v)) = bool_decide (fst (fst (fst v)) ∈ S))
        (map elView l).
Proof. rewrite Forall_map. reflexivity. Qed.

Lemma mirrors_of_view (l : list GroupEl) (members : list Channel) :
  Forall (mirrors members) l
  <-> Forall (fun v : string * bool * nat * list (string * Z) =>
                fst (fst (fst v)) = "Favorites" ->
                snd v = map channelKey members
                /\ snd (fst v) = length members)
        (map elView l).
Proof. rewrite Forall_map. reflexivity. Qed.

Lemma names_of_view (l : list GroupEl) :
  map groupOf l
  = map (fun v : string * bool * nat * list (string * Z) =>
           fst (fst (fst v))) (map elView l).
Proof. rewrite map_map. reflexivity. Qed.

Lemma keeps_view st st' : headerView st' = headerView st -> keeps st st'.
Proof.
  unfold headerView. intros [= Hl Hc Hm Hs Hb Hz]. split; [exact Hc|].
  unfold good, flagsShown, headersEmitted, favoritesMirrored.
  rewrite !flags_of_view, !mirrors_of_view, !names_of_view,
    Hl, Hc, Hm, Hs, Hb, Hz.
  tauto.
Qed.

Lemma keeps_refl st : keeps st st.
Proof. now apply keeps_view. Qed.

Lemma keeps_trans a b c : keeps a b -> keeps b c -> keeps a c.
Proof. unfold keeps. intros [H1 G1] [H2 G2]. split; [congruence|tauto]. Qed.

(** A rendered header carries the name of its group and the flag of the
    set; the Favorites element shows every member of the group. *)
Lemma renderGroup_header st n g e n' :
  renderGroup st n g = (Some e, n') ->
  groupOf e = g
  /\ gh_collapsed (header e) = bool_decide (g ∈ collapsedGroups st)
  /\ mirrors (membersOf st "Favorites") e.
Proof.
  unfold renderGroup. destruct (membersOf st g) as [|c chs] eqn:Hm;
    [discriminate|].
  destruct (_ && _); [discriminate|].
  pose proof (renderItems_keys st (String.eqb g "Favorites") n (c :: chs))
    as Hk.
  destruct (renderItems _ _ _ _) as [its n1]. intros [= <- <-].
  split; [reflexivity|]. split; [reflexivity|].
  unfold mirrors, groupOf. cbn [header items gh_group gh_count fst] in *.
  intros ->. rewrite Hm. split; [|reflexivity].
  rewrite Hk. f_equal. apply filter_all. intros x _. reflexivity.
Qed.

Lemma renderGroups_headers st names : forall n,
  sublist (map groupOf (fst (renderGroups st n names))) names
  /\ Forall (fun g => gh_collapsed (header g)
                      = bool_decide (groupOf g ∈ collapsedGroups st))
       (fst (renderGroups st n names))
  /\ Forall (mirrors (membersOf st "Favorites"))
       (fst (renderGroups st n names)).
Proof.
  induction names as [|g rest IH]; intros n; cbn [renderGroups].
  - repeat split; constructor.
  - destruct (renderGroup st n g) as [el n1] eqn:E.
    specialize (IH n1). destruct (renderGroups st n1 rest) as [els n2].
    cbn [fst] in *. destruct IH as (Hsub & Hfl & Hmi).
    destruct el as [e|].
    + destruct (renderGroup_header _ _ _ _ _ E) as (Hn & Hc & Hme).
      cbn [map]. rewrite Hn. split; [now constructor|].
      split; constructor; try assumption. now rewrite Hn.
    + split; [now constructor|now split].
Qed.

Lemma good_unlisted st :
  NoDup (sortedGroups st) -> renderedGroups st = [] -> good st.
Proof.
  intros Hnd Hr. unfold good, flagsShown, headersEmitted, favoritesMirrored.
  rewrite Hr.
  split; [constructor|]. split; [|constructor].
  split; [exact Hnd|apply sublist_nil_l].
Qed.

Lemma good_render st : good (rendered st).
Proof.
  destruct (render_cases st) as [[Hnil Hc]|[Hne Hw]].
  - apply good_unlisted; [apply sortedGroups_NoDup|].
    unfold renderedGroups.
    destruct (container (rendered st)); try reflexivity. congruence.
  - remember (newList (resetView toLowerCase localeCompare st)) as origin.
    destruct Hw as [Hc Hb Hv Hs Hl _ _].
    destruct (renderGroups_headers origin
                (firstn (currentBatch (rendered st) * 100)
                   (sortedGroups origin)) (nextNode origin))
      as (Hsub & Hfl & Hmi).
    rewrite <- (sameView_membersOf _ _ "Favorites" Hv) in Hmi.
    destruct Hv as (_ & _ & _ & Hcol & _).
    unfold good, flagsShown, headersEmitted, favoritesMirrored,
      renderedGroups.
    rewrite Hc, Hl, Hb, Hs, Hcol. cbn [from_option id].
    split; [exact Hfl|]. split; [|exact Hmi]. split; [|exact Hsub].
    rewrite <- Hs. apply sortedGroups_NoDup.
Qed.

Lemma keeps_render st : keeps st (stateOf (render st)).
Proof.
  rewrite render_completion. destruct (groupable st); cbn [stateOf].
  - split; [apply render_collapsedGroups|intros _; apply good_render].
  - split; [reflexivity|]. intros (_ & [Hnd _] & _).
    apply good_unlisted; [exact Hnd|reflexivity].
Qed.

Lemma firstn_next_batch (l : list string) (cb bs : nat) :
  firstn (S cb * bs) l = firstn (cb * bs) l ++ Js.slice l (cb * bs) (cb * bs + bs).
Proof.
  unfold Js.slice.
  replace (cb * bs + bs - cb * bs)%nat with bs by lia.
  replace (S cb * bs)%nat with (cb * bs + bs)%nat by lia.
  symmetry. apply take_take_drop.
Qed.

Lemma batch_membersOf st g :
  membersOf (renderNextBatch st) g = membersOf st g.
Proof. unfold membersOf. now rewrite batch_groupedChannels. Qed.

Lemma keeps_batch st : keeps st (renderNextBatch st).
Proof.
  split; [apply batch_collapsedGroups|].
  intros (Hfl & [Hnd Hsub] & Hmi).
  unfold good, flagsShown, headersEmitted, favoritesMirrored,
    renderedGroups in *.
  rewrite batch_container, batch_collapsedGroups, batch_sortedGroups,
    batch_batchSize, batch_currentBatch, batch_membersOf.
  destruct (container st) eqn:Hc;
    try (split; [constructor|split; [|constructor]];
         split; [exact Hnd|apply sublist_nil_l]).
  destruct (listContainer st) as [lc|] eqn:Hlc.
  - rewrite (batch_listContainer st lc Hlc). cbn [from_option id] in *.
    destruct (renderGroups_headers st (nextSlice st) (nextNode st))
      as (Hsub' & Hfl' & Hmi').
    split; [apply Forall_app; now split|].
    split; [|apply Forall_app; now split]. split; [exact Hnd|].
    rewrite map_app.
    destruct (nextSlice st) as [|g rest] eqn:E.
    + apply sublist_nil_r in Hsub'. rewrite Hsub', app_nil_r. exact Hsub.
    + rewrite firstn_next_batch. fold (nextSlice st). rewrite E.
      now apply sublist_app.
  - assert (Hn : listContainer (renderNextBatch st) = None).
    { unfold renderNextBatch, retireLoader, showLoader.
      repeat case_match; simpl; now rewrite Hlc. }
    rewrite Hn. cbn [from_option id].
    split; [constructor|split; [|constructor]].
    split; [exact Hnd|apply sublist_nil_l].
Qed.

Lemma keeps_sentinel st : keeps st (sentinelReached st).
Proof.
  unfold sentinelReached. destruct (loaderRetired st);
    [apply keeps_refl|apply keeps_batch].
Qed.

(** Patches of the list that leave names, flags, counts and the
    identities of the rows alone. *)
Lemma keeps_patch (F : list GroupEl -> list GroupEl) st :
  (forall lc, map elView (F lc) = map elView lc) ->
  keeps st (set_listContainer (option_map F (listContainer st)) st).
Proof.
  intros HF. apply keeps_view. unfold headerView, renderedGroups, membersOf.
  cbn [container listContainer collapsedGroups sortedGroups currentBatch
       batchSize groupedChannels set_listContainer].
  destruct (container st), (listContainer st); cbn [from_option id option_map];
    rewrite ?HF; reflexivity.
Qed.

Lemma elView_with_items (F : list ChannelItem -> list ChannelItem) g :
  map rowKey (F (items g)) = map rowKey (items g) ->
  elView (with_items F g) = elView g.
Proof. unfold elView, with_items, groupOf. cbn. now intros ->. Qed.

Lemma keeps_patchButtons btns f st : keeps st (patchButtons btns f st).
Proof.
  unfold patchButtons. apply keeps_patch. intros lc.
  rewrite map_map. apply map_ext. intros g. apply elView_with_items.
  rewrite map_map. apply map_ext. intros it. now destruct (bool_decide _).
Qed.

Lemma activateFirstItem_keys channelId its its' :
  activateFirstItem channelId its = Some its' ->
  map rowKey its' = map rowKey its.
Proof.
  revert its'. induction its as [|it r IH]; intros its';
    cbn [activateFirstItem]; [discriminate|].
  destruct (String.eqb _ _).
  - intros [= <-]. reflexivity.
  - destruct (activateFirstItem channelId r) as [r'|]; [|discriminate].
    intros [= <-]. cbn [map]. now rewrite (IH r').
Qed.

Lemma activateFirst_view channelId lc :
  map elView (activateFirst channelId lc) = map elView lc.
Proof.
  induction lc as [|g r IH]; [reflexivity|]. cbn [activateFirst].
  destruct (activateFirstItem channelId (items g)) as [its|] eqn:E;
    cbn [map]; [|now rewrite IH].
  f_equal. unfold elView, groupOf. cbn [header items].
  now rewrite (activateFirstItem_keys _ _ _ E).
Qed.

Lemma keeps_markActive channelId st : keeps st (markActive channelId st).
Proof.
  unfold markActive. destruct (container st) eqn:Hc; try apply keeps_refl.
  apply (keeps_patch (fun lc => activateFirst channelId
                                  (map (with_items (map (with_active false)))
                                     lc))).
  intros lc. rewrite activateFirst_view, map_map.
  apply map_ext. intros g. apply elView_with_items.
  rewrite map_map. reflexivity.
Qed.

(** The update of the Favorites group, on the array and on the rows. *)
Lemma existsb_map {A B} (f : A -> B) (p : B -> bool) (l : list A) :
  existsb (fun x => p (f x)) l = existsb p (map f l).
Proof. induction l as [|x l IH]; simpl; [reflexivity|]. now rewrite IH. Qed.

Lemma removeFirst_map {A B} (f : A -> B) (p : B -> bool) (l : list A) :
  map f (removeFirst (fun x => p (f x)) l) = removeFirst p (map f l).
Proof.
  induction l as [|x l IH]; simpl; [reflexivity|].
  destruct (p (f x)); simpl; [reflexivity|]. now rewrite IH.
Qed.

Lemma patch_rows (st : State) (n : nat) (channel : Channel) (isAdded : bool)
    (its : list ChannelItem) (favArray : list Channel) :
  map rowKey its = map channelKey favArray ->
  map rowKey
    (if isAdded
     then (if existsb (itemMatches (ch_id channel) (ch_sourceId channel)) its
           then its else its ++ [createChannelElement st n channel])
     else removeFirst (itemMatches (ch_id channel) (ch_sourceId channel)) its)
  = map channelKey (updateFavArray favArray channel isAdded).
Proof.
  intros Hk. unfold updateFavArray.
  change (itemMatches (ch_id channel) (ch_sourceId channel))
    with (fun it => keyEqb (channelKey channel) (rowKey it)).
  change (sameChannel channel)
    with (fun c => keyEqb (channelKey channel) (channelKey c)).
  rewrite (existsb_map rowKey), (existsb_map channelKey), Hk.
  destruct isAdded.
  - destruct (existsb _ _); [exact Hk|].
    rewrite !map_app, Hk. reflexivity.
  - rewrite (removeFirst_map rowKey), (removeFirst_map channelKey), Hk.
    reflexivity.
Qed.

Lemma onFavoritesEl_Some (f : GroupEl -> GroupEl) lc lc' :
  onFavoritesEl f lc = Some lc' ->
  exists l1 g l2,
    lc = l1 ++ g :: l2 /\ lc' = l1 ++ f g :: l2
    /\ groupOf g = "Favorites".
Proof.
  revert lc'. induction lc as [|x r IH]; intros lc';
    cbn [onFavoritesEl]; [discriminate|].
  destruct (String.eqb_spec (gh_group (header x)) "Favorites") as [E|_].
  - intros [= <-]. now exists [], x, r.
  - destruct (onFavoritesEl f r) as [r'|]; [|discriminate].
    intros [= <-]. destruct (IH r' eq_refl) as (l1 & g & l2 & -> & -> & Hg).
    now exists (x :: l1), g, l2.
Qed.

Lemma onFavoritesEl_None (f : GroupEl -> GroupEl) lc :
  onFavoritesEl f lc = None ->
  Forall (fun g => groupOf g <> "Favorites") lc.
Proof.
  induction lc as [|x r IH]; cbn [onFavoritesEl]; [constructor|].
  destruct (String.eqb_spec (gh_group (header x)) "Favorites") as [|Hne];
    [discriminate|].
  destruct (onFavoritesEl f r); [discriminate|].
  intros _. constructor; [exact Hne|now apply IH].
Qed.

Lemma NoDup_middle_names (l1 l2 : list GroupEl) (g g' : GroupEl) :
  NoDup (map groupOf (l1 ++ g :: l2)) -> In g' (l1 ++ l2) ->
  groupOf g' <> groupOf g.
Proof.
  rewrite map_app. cbn [map]. intros Hnd Hin E.
  apply NoDup_app in Hnd. destruct Hnd as (_ & Hdis & Hnd2).
  apply NoDup_cons in Hnd2. destruct Hnd2 as [Hg _].
  apply in_app_iff in Hin. destruct Hin as [Hin|Hin].
  - apply (Hdis (groupOf g')).
    + now apply list_elem_of_In, in_map.
    + rewrite E. left.
  - apply Hg. rewrite <- E. now apply list_elem_of_In, in_map.
Qed.

Lemma mirrors_other members g :
  groupOf g <> "Favorites" -> mirrors members g.
Proof. unfold mirrors. tauto. Qed.

Lemma keeps_updateFavoritesGroup channel isAdded st :
  keeps st (stateOf (updateFavoritesGroup channel isAdded st)).
Proof.
  unfold ChannelList.updateFavoritesGroup.
  destruct (groupedChannels st) as [grouped|] eqn:Hg; [|apply keeps_refl].
  set (grouped1 := match Js.get grouped "Favorites" with
                   | None => Js.set grouped "Favorites" []
                   | Some _ => grouped
                   end).
  set (favArray := updateFavArray _ channel isAdded).
  set (st1 := set_groupedChannels _ st).
  assert (Hold : default [] (Js.get grouped1 "Favorites")
                 = membersOf st "Favorites").
  { unfold membersOf. rewrite Hg. subst grouped1.
    destruct (Js.get grouped "Favorites") eqn:E; [now rewrite E|].
    now rewrite get_set_eq. }
  assert (Hnew : membersOf st1 "Favorites" = favArray).
  { unfold membersOf. subst st1. cbn [groupedChannels set_groupedChannels].
    now rewrite get_set_eq. }
  assert (Hr1 : renderedGroups st1 = renderedGroups st) by reflexivity.
  (* The steps that leave the list alone. *)
  assert (Kdata : Forall (fun g => groupOf g <> "Favorites")
                    (renderedGroups st) -> keeps st st1).
  { intros Hno. split; [reflexivity|].
    intros (Hfl & Hem & _). split; [exact Hfl|]. split; [exact Hem|].
    unfold favoritesMirrored. rewrite Hr1.
    eapply Forall_impl; [exact Hno|]. intros g. apply mirrors_other. }
  destruct (listContainer st1) as [lc|] eqn:Hlc.
  2:{ cbn [stateOf]. apply Kdata. unfold renderedGroups.
      change (listContainer st) with (listContainer st1). rewrite Hlc.
      destruct (container st); constructor. }
  assert (Hrl : container st <> c_list \/ renderedGroups st = lc).
  { unfold renderedGroups.
    change (listContainer st) with (listContainer st1). rewrite Hlc.
    destruct (container st); (right; reflexivity) || (left; discriminate). }
  destruct (onFavoritesEl _ lc) as [lc'|] eqn:Hon.
  - cbn [stateOf]. set (st2 := set_nextNode _ _).
    split; [reflexivity|]. intros (Hfl & [Hnd Hsub] & Hmi).
    destruct Hrl as [Hc|Hrl].
    { apply good_unlisted; [exact Hnd|]. unfold renderedGroups.
      change (container st2) with (container st).
      destruct (container st); try reflexivity. contradiction. }
    assert (Hc : container st = c_list).
    { destruct (container st) eqn:Hc; try reflexivity;
        unfold renderedGroups in Hrl; rewrite Hc in Hrl; subst lc;
        discriminate. }
    assert (Hr2 : renderedGroups st2 = lc').
    { unfold renderedGroups. change (container st2) with (container st).
      rewrite Hc. reflexivity. }
    destruct (onFavoritesEl_Some _ _ _ Hon) as (l1 & g & l2 & Hlc1 & Hlc2 & Hfav).
    assert (Hndn : NoDup (map groupOf lc)).
    { rewrite <- Hrl. eapply sublist_NoDup; [|exact Hsub].
      eapply sublist_NoDup; [exact Hnd|apply sublist_take]. }
    assert (Hothers : forall g', In g' (l1 ++ l2) ->
                                 groupOf g' <> "Favorites").
    { intros g' Hin. rewrite <- Hfav. rewrite Hlc1 in Hndn.
      now apply (NoDup_middle_names l1 l2 g g'). }
    unfold flagsShown, favoritesMirrored in Hfl, Hmi.
    rewrite Hrl, Hlc1 in Hfl, Hmi, Hsub.
    apply Forall_app in Hfl, Hmi. destruct Hfl as [Hfl1 Hfl2].
    destruct Hmi as [_ Hmi2].
    apply Forall_cons in Hfl2, Hmi2. destruct Hfl2 as [Hflg Hfl2].
    destruct Hmi2 as [Hmig _].
    unfold good, flagsShown, headersEmitted, favoritesMirrored.
    rewrite Hr2, Hlc2.
    change (collapsedGroups st2) with (collapsedGroups st).
    change (sortedGroups st2) with (sortedGroups st).
    change (currentBatch st2) with (currentBatch st).
    change (batchSize st2) with (batchSize st).
    change (membersOf st2 "Favorites") with (membersOf st1 "Favorites").
    rewrite Hnew.
    split; [|split; [split; [exact Hnd|]|]].
    + apply Forall_app. split; [exact Hfl1|].
      apply Forall_cons. split; [exact Hflg|exact Hfl2].
    + rewrite map_app in *. exact Hsub.
    + apply Forall_app. split.
      * apply Forall_forall. intros g' Hin. apply mirrors_other, Hothers.
        apply in_app_iff. left. now apply list_elem_of_In.
      * apply Forall_cons. split.
        -- intros _. destruct (Hmig Hfav) as [Hrows _].
           split; [|reflexivity].
           unfold patchFavoritesEl. cbn [items].
           subst favArray. rewrite Hold.
           now apply patch_rows.
        -- apply Forall_forall. intros g' Hin. apply mirrors_other, Hothers.
           apply in_app_iff. right. now apply list_elem_of_In.
  - apply onFavoritesEl_None in Hon.
    assert (K1 : keeps st st1).
    { apply Kdata. destruct Hrl as [Hc|<-]; [|exact Hon].
      unfold renderedGroups. destruct (container st); try constructor.
      contradiction. }
    destruct (isAdded && _); cbn [stateOf]; [|exact K1].
    eapply keeps_trans; [exact K1|apply keeps_render].
Qed.

Lemma keeps_set_visibleFavorites v st : keeps st (set_visibleFavorites v st).
Proof. now apply keeps_view. Qed.

Lemma keeps_revertFavorite sourceId channelId was btns issued st :
  keeps st (final (revertFavorite sourceId channelId was btns issued st)).
Proof.
  unfold ChannelList.revertFavorite.
  set (st1 := if was then _ else _).
  assert (K1 : keeps st st1).
  { subst st1. destruct was;
      (eapply keeps_trans;
       [apply keeps_set_visibleFavorites|apply keeps_patchButtons]). }
  destruct (findChannel st1 sourceId channelId) as [channel|];
    [|exact K1].
  pose proof (keeps_updateFavoritesGroup channel was st1) as K2.
  destruct (updateFavoritesGroup channel was st1); cbn [stateOf final] in *;
    eapply keeps_trans; eassumption.
Qed.

Lemma keeps_toggleFavorite sourceId channelId remoteOk st :
  keeps st (final (toggleFavorite sourceId channelId remoteOk st)).
Proof.
  unfold ChannelList.toggleFavorite.
  set (btns := queryButtons st sourceId channelId).
  set (was := bool_decide _).
  set (st1 := if was then _ else _).
  assert (K1 : keeps st st1).
  { subst st1. destruct was;
      (eapply keeps_trans;
       [apply keeps_set_visibleFavorites|apply keeps_patchButtons]). }
  assert (K2 : keeps st
            (stateOf match findChannel st1 sourceId channelId with
                     | Some channel =>
                         updateFavoritesGroup channel (negb was) st1
                     | None => Normal st1
                     end)).
  { destruct (findChannel st1 sourceId channelId) as [channel|];
      [|exact K1].
    eapply keeps_trans; [exact K1|apply keeps_updateFavoritesGroup]. }
  destruct (match findChannel st1 sourceId channelId with
            | Some channel => updateFavoritesGroup channel (negb was) st1
            | None => Normal st1
            end) as [st2|st2]; cbn [stateOf] in K2.
  - destruct remoteOk; [exact K2|].
    eapply keeps_trans; [exact K2|apply keeps_revertFavorite].
  - eapply keeps_trans; [exact K2|apply keeps_revertFavorite].
Qed.

Lemma keeps_syncFavorite sourceId channelId isFav st :
  keeps st (stateOf (syncFavorite sourceId channelId isFav st)).
Proof.
  unfold ChannelList.syncFavorite.
  destruct (Bool.eqb _ _); [apply keeps_refl|].
  set (st1 := set_visibleFavorites _ st).
  set (st2 := patchButtons _ _ st1).
  assert (K2 : keeps st st2)
    by (eapply keeps_trans;
        [apply keeps_set_visibleFavorites|apply keeps_patchButtons]).
  destruct (findChannel st2 sourceId channelId) as [channel|]; [|exact K2].
  eapply keeps_trans; [exact K2|apply keeps_updateFavoritesGroup].
Qed.

Lemma keeps_selectChannel channelId resolved st :
  keeps st (final (selectChannel channelId resolved st)).
Proof.
  unfold ChannelList.selectChannel.
  destruct (List.find _ (channels st)) as [channel|]; [|apply keeps_refl].
  assert (K : keeps st (markActive (ch_id channel)
                          (set_currentChannel (Some channel) st))).
  { eapply keeps_trans; [|apply keeps_markActive]. now apply keeps_view. }
  destruct (ch_sourceType channel); [destruct resolved|]; exact K.
Qed.

Lemma keeps_selectNext resolved st :
  keeps st (final (selectNextChannel resolved st)).
Proof.
  unfold ChannelList.selectNextChannel.
  repeat case_match; try apply keeps_refl; apply keeps_selectChannel.
Qed.

Lemma keeps_selectPrev resolved st :
  keeps st (final (selectPrevChannel resolved st)).
Proof.
  unfold ChannelList.selectPrevChannel.
  repeat case_match; try apply keeps_refl; apply keeps_selectChannel.
Qed.

Lemma keeps_contextAction action menu hideOk resolved st :
  keeps st (m_final (handleContextAction action menu hideOk resolved st)).
Proof.
  unfold ChannelList.handleContextAction. destruct action.
  - destruct (String.eqb _ _); [|apply keeps_refl].
    destruct (List.find _ (channels st)) as [channel|]; [|apply keeps_refl].
    pose proof (keeps_selectChannel (ch_id channel) resolved st) as K.
    destruct (rejected _); exact K.
  - destruct hideOk; [|apply keeps_refl].
    set (st1 := set_hiddenItems _ st).
    assert (K : keeps st (stateOf (render st1)))
      by (eapply keeps_trans; [|apply keeps_render]; now apply keeps_view).
    destruct (render st1); exact K.
  - destruct (List.find _ (channels st)); apply keeps_refl.
  - apply keeps_refl.
Qed.

(** What a constructed component starts from. *)
Lemma construct_collapsed saved search checkbox :
  collapsedGroups (construct saved search checkbox)
  = match saved with
    | item_array l => list_to_set l
    | _ => ∅
    end.
Proof. destruct saved; reflexivity. Qed.

Lemma saved_is_set st search checkbox :
  collapsedGroups (construct (saveCollapsedState st) search checkbox)
  = collapsedGroups st.
Proof.
  rewrite construct_collapsed. unfold saveCollapsedState.
  apply list_to_set_elements_L.
Qed.

Lemma mirrors_with_collapsed members b g :
  mirrors members g -> mirrors members (with_collapsed b g).
Proof. unfold mirrors. tauto. Qed.

Lemma good_forEachHeader (b : bool) (S : gset string) st :
  headersEmitted st -> favoritesMirrored st ->
  (forall g, In g (renderedGroups st) -> b = bool_decide (groupOf g ∈ S)) ->
  good (forEachHeader (with_collapsed b) (set_collapsedGroups S st)).
Proof.
  intros [Hnd Hsub] Hmi Hall.
  assert (Hr : renderedGroups
                 (forEachHeader (with_collapsed b) (set_collapsedGroups S st))
               = map (with_collapsed b) (renderedGroups st)).
  { unfold forEachHeader.
    change (container (set_collapsedGroups S st)) with (container st).
    destruct (container st) eqn:Hc; unfold renderedGroups;
      cbn [container listContainer set_listContainer set_collapsedGroups];
      rewrite ?Hc; try reflexivity.
    destruct (listContainer st); reflexivity. }
  assert (Hf : forall (B : Type) (f : State -> B),
             (forall v x, f (set_listContainer v x) = f x) ->
             f (forEachHeader (with_collapsed b) (set_collapsedGroups S st))
             = f (set_collapsedGroups S st)).
  { intros B f Hfr. unfold forEachHeader.
    destruct (container (set_collapsedGroups S st)); try reflexivity.
    apply Hfr. }
  unfold good, flagsShown, headersEmitted, favoritesMirrored.
  rewrite Hr, (Hf _ collapsedGroups), (Hf _ sortedGroups),
    (Hf _ currentBatch), (Hf _ batchSize),
    (Hf _ (fun x => membersOf x "Favorites")) by reflexivity.
  cbn [collapsedGroups sortedGroups currentBatch batchSize
       set_collapsedGroups].
  change (membersOf (set_collapsedGroups S st) "Favorites")
    with (membersOf st "Favorites").
  rewrite map_map. split; [|split; [split; [exact Hnd|exact Hsub]|]].
  - apply Forall_forall. intros g' Hin. apply list_elem_of_In in Hin.
    apply in_map_iff in Hin. destruct Hin as (g & <- & Hin).
    change (b = bool_decide (groupOf g ∈ S)). now apply Hall.
  - apply Forall_map. eapply Forall_impl; [exact Hmi|].
    intros g. apply mirrors_with_collapsed.
Qed.

Lemma toggleNth_split (i : nat) (lc : list GroupEl) (g : GroupEl) :
  nth_error lc i = Some g ->
  lc = firstn i lc ++ g :: skipn (S i) lc
  /\ toggleNth i lc
     = firstn i lc
       ++ with_collapsed (negb (gh_collapsed (header g))) g :: skipn (S i) lc.
Proof.
  intros Hi. unfold toggleNth. rewrite Hi. split; [|reflexivity].
  revert lc Hi. induction i as [|i IH]; intros [|x r] Hi; try discriminate.
  - simpl in Hi. injection Hi as ->. reflexivity.
  - simpl in Hi. cbn [firstn skipn app]. f_equal. now apply IH.
Qed.

Lemma good_clickHeader i st w :
  good st -> clickHeader i st = Some w ->
  good (fst w)
  /\ forall search checkbox,
       collapsedGroups (construct (snd w) search checkbox)
       = collapsedGroups (fst w).
Proof.
  intros (Hfl & [Hnd Hsub] & Hmi). unfold clickHeader.
  destruct (nth_error (renderedGroups st) i) as [g|] eqn:Hi; [|discriminate].
  intros [= <-]. unfold toggleGroup. cbn [fst snd].
  split; [|intros search checkbox; apply saved_is_set].
  set (st0 := set_listContainer _ st).
  set (S' := if bool_decide _ then _ else _).
  assert (Hc : container st = c_list).
  { unfold renderedGroups in Hi. destruct (container st); try reflexivity;
      destruct i; discriminate. }
  assert (Hr : renderedGroups (set_collapsedGroups S' st0)
               = toggleNth i (renderedGroups st)).
  { unfold renderedGroups in *. subst st0.
    cbn [container listContainer set_collapsedGroups set_listContainer].
    rewrite Hc in *. destruct (listContainer st); [reflexivity|].
    destruct i; discriminate. }
  destruct (toggleNth_split i _ g Hi) as [Hsplit Htog].
  assert (Hnames : map groupOf (toggleNth i (renderedGroups st))
                   = map groupOf (renderedGroups st)).
  { rewrite Htog. rewrite Hsplit at 3. rewrite !map_app. reflexivity. }
  assert (Hndn : NoDup (map groupOf (renderedGroups st))).
  { eapply sublist_NoDup; [|exact Hsub].
    eapply sublist_NoDup; [exact Hnd|apply sublist_take]. }
  unfold good, flagsShown, headersEmitted, favoritesMirrored.
  rewrite Hr, Hnames.
  change (membersOf (set_collapsedGroups S' st0) "Favorites")
    with (membersOf st "Favorites").
  split; [|split; [split; [exact Hnd|exact Hsub]|]].
  2:{ unfold favoritesMirrored in Hmi. rewrite Hsplit in Hmi.
      apply Forall_app in Hmi. destruct Hmi as [Hm1 Hm2].
      apply Forall_cons in Hm2. destruct Hm2 as [Hmg Hm2].
      rewrite Htog. apply Forall_app. split; [exact Hm1|].
      apply Forall_cons. split; [|exact Hm2].
      now apply mirrors_with_collapsed. }
  cbn [collapsedGroups set_collapsedGroups].
  unfold flagsShown in Hfl. rewrite Forall_forall in Hfl.
  assert (Hmem : forall name,
             bool_decide (name ∈ S')
             = if String.eqb name (groupOf g)
               then negb (bool_decide (groupOf g ∈ collapsedGroups st))
               else bool_decide (name ∈ collapsedGroups st)).
  { intros name. subst S' st0.
    cbn [collapsedGroups set_listContainer].
    fold (groupOf g).
    destruct (String.eqb_spec name (groupOf g)) as [->|Hne].
    - destruct (bool_decide_reflect (groupOf g ∈ collapsedGroups st));
        cbn [negb];
        [apply bool_decide_eq_false_2|apply bool_decide_eq_true_2];
        set_solver.
    - destruct (bool_decide_reflect (groupOf g ∈ collapsedGroups st));
        apply bool_decide_ext; set_solver. }
  rewrite Htog. apply Forall_app. split; [|constructor].
  - apply Forall_forall. intros g' Hin.
    rewrite Hmem.
    destruct (String.eqb_spec (groupOf g') (groupOf g)) as [E|_].
    + exfalso. rewrite Hsplit in Hndn.
      apply (NoDup_middle_names _ _ g g' Hndn); [|exact E].
      apply in_app_iff. left. now apply list_elem_of_In.
    + apply Hfl. rewrite Hsplit. apply list_elem_of_In, in_app_iff. left.
      now apply list_elem_of_In.
  - change (negb (gh_collapsed (header g)) = bool_decide (groupOf g ∈ S')).
    rewrite Hmem, String.eqb_refl. f_equal. apply Hfl.
    apply list_elem_of_In. eapply nth_error_In. exact Hi.
  - apply Forall_forall. intros g' Hin.
    rewrite Hmem.
    destruct (String.eqb_spec (groupOf g') (groupOf g)) as [E|_].
    + exfalso. rewrite Hsplit in Hndn.
      apply (NoDup_middle_names _ _ g g' Hndn); [|exact E].
      apply in_app_iff. right. now apply list_elem_of_In.
    + apply Hfl. rewrite Hsplit. apply list_elem_of_In, in_app_iff. right.
      right. now apply list_elem_of_In.
Qed.

Lemma good_expandAll st :
  good st ->
  good (fst (expandAll st))
  /\ forall search checkbox,
       collapsedGroups (construct (snd (expandAll st)) search checkbox)
       = collapsedGroups (fst (expandAll st)).
Proof.
  intros (_ & Hem & Hmi). unfold expandAll. cbn [fst snd]. split.
  - apply good_forEachHeader; [exact Hem|exact Hmi|].
    intros g _. symmetry. apply bool_decide_eq_false_2. set_solver.
  - intros search checkbox. rewrite saved_is_set.
    unfold forEachHeader. now destruct (container _).
Qed.

Lemma good_collapseAll st :
  good st ->
  good (fst (collapseAll st))
  /\ forall search checkbox,
       collapsedGroups (construct (snd (collapseAll st)) search checkbox)
       = collapsedGroups (fst (collapseAll st)).
Proof.
  intros (_ & Hem & Hmi). unfold collapseAll. cbn [fst snd]. split.
  - apply good_forEachHeader; [exact Hem|exact Hmi|].
    intros g Hin. symmetry. apply bool_decide_eq_true_2.
    apply elem_of_union_l, elem_of_list_to_set, list_elem_of_In.
    now apply (in_map groupOf).
  - intros search checkbox. rewrite saved_is_set.
    unfold forEachHeader. now destruct (container _).
Qed.

(** *** The list and [getVisibleChannels] *)

Lemma bool_decide_filter (P : Channel -> bool) (l : list Channel) (x : Channel) :
  In x l -> bool_decide (x ∈ List.filter P l) = P x.
Proof.
  intros Hin. destruct (P x) eqn:E.
  - apply bool_decide_eq_true_2, list_elem_of_In, filter_In. now split.
  - apply bool_decide_eq_false_2. intros H%list_elem_of_In%filter_In.
    destruct H as [_ H]. congruence.
Qed.

(** X21.  When every channel has a title of its own, other than "Favorites"
    and the names of inherited properties, no title is shared between
    sources and the texts of the channels are plain, the rebuild
    completes, and the scrolled-out list and [getVisibleChannels] agree:
    a channel has a row under its own group exactly when it is among the
    visible channels and passes the search filter; a favorite has one
    more row, under Favorites. *)
Theorem getVisibleChannels_agrees_with_list st fuel :
  NoDup (map channelKey (channels st)) ->
  (forall c, In c (channels st) ->
     exists t, ch_groupTitle c = Some t /\ t <> "" /\ t <> "Favorites") ->
  (forall a b, In a (channels st) -> In b (channels st) ->
     groupKey a = groupKey b -> ch_sourceId a = ch_sourceId b) ->
  forallb ownTitle (channels st) = true ->
  forallb markupSafe (channels st) = true ->
  let st1 := stateOf (render st) in
  (length (sortedGroups st1) <= fuel)%nat ->
  render st = Normal st1
  /\ forall ch, In ch (channels st) ->
       occurrences ch (renderedItems (scrollToEnd fuel st1))
       = ((if passesSearch st ch && bool_decide (ch ∈ getVisibleChannels st)
           then 1 else 0)
          + (if isFavorite st (ch_sourceId ch) (ch_id ch) then 1 else 0))%nat.
Proof.
  intros Hunique Htitle Hsrc Hown _ st1. subst st1.
  rewrite (render_Normal st) by now apply ownTitles_groupable.
  cbn [stateOf]. intros Hfuel. split; [reflexivity|]. intros ch Hin.
  destruct (Htitle ch Hin) as (t & Ht & Hne & Hnf).
  assert (Hkey : groupKey ch = t).
  { unfold groupKey, Js.or_else. rewrite Ht.
    destruct (String.eqb_spec t ""); congruence. }
  assert (Hnat : groupKey ch <> "Favorites") by congruence.
  destruct (scroll_completes st fuel Hfuel) as [_ Hrows].
  rewrite occurrences_keys. unfold renderedItems.
  rewrite rendered_rowKeys, Hrows, flat_map_rowsOfGroup.
  rewrite (count_in_all_groups st ch Hunique Hin Hnat).
  f_equal; [|unfold isFavorite; now rewrite render_visibleFavorites].
  rewrite shownInOwnGroup_own; try assumption;
    [|intros a Ha; now apply Hsrc].
  destruct (passesSearch st ch) eqn:Hp; [|reflexivity]. cbn [andb].
  unfold getVisibleChannels. rewrite bool_decide_filter by exact Hin.
  unfold unsuppressed. rewrite Ht. cbn [Js.template]. rewrite Hkey.
  now destruct (default false (showHiddenCheckbox st)).
Qed.

(** *** Loading the channels *)

Variable notAFunction : string.

Abbreviation loadAllChannels :=
  (ChannelList.loadAllChannels toLowerCase localeCompare).
Abbreviation loadChannels :=
  (ChannelList.loadChannels toLowerCase localeCompare notAFunction).
Abbreviation step :=
  (ChannelList.step toLowerCase localeCompare hasEpgGuide hasPlayer
     notAFunction).

Lemma takeWhile_app {A} (p : A -> bool) (l1 l2 : list A) :
  takeWhile p (l1 ++ l2)
  = if forallb p l1 then l1 ++ takeWhile p l2 else takeWhile p l1.
Proof.
  induction l1 as [|x l1 IH]; [reflexivity|]. cbn [app takeWhile forallb].
  destruct (p x); [|reflexivity]. cbn [andb]. rewrite IH.
  now destruct (forallb p l1).
Qed.

Lemma takeWhile_all {A} (p : A -> bool) (l : list A) :
  forallb p l = true -> takeWhile p l = l.
Proof.
  induction l as [|x l IH]; cbn [forallb takeWhile]; [reflexivity|].
  destruct (p x); [|discriminate]. intros H. f_equal. now apply IH.
Qed.

Lemma takeWhile_sublist {A} (p : A -> bool) (l : list A) :
  sublist (takeWhile p l) l.
Proof.
  induction l as [|x l IH]; cbn [takeWhile]; [constructor|].
  destruct (p x); [now constructor|apply sublist_nil_l].
Qed.

(** The loops only write [channels] and [groups]. *)
Lemma loadEachXtream_spec xp mp (sources : list Db.Source) : forall st,
  exists grps,
    stateOf (loadEachXtream xp sources st)
    = set_channels
        (channels st
         ++ flat_map (jobChannels xp mp)
              (takeWhile (answered xp mp) (map job_xtream sources)))
        (set_groups grps st)
    /\ match loadEachXtream xp sources st with
       | Normal _ => forallb (answered xp mp) (map job_xtream sources) = true
       | Throw _ => forallb (answered xp mp) (map job_xtream sources) = false
       end.
Proof.
  induction sources as [|s rest IH]; intros st.
  - exists (groups st). cbn. rewrite app_nil_r. split; [|reflexivity].
    now destruct st.
  - cbn [loadEachXtream map takeWhile forallb answered jobChannels].
    destruct (xp (Db.src_id s)) as [[categories streams]|message] eqn:E.
    + destruct (IH (loadXtreamChannels (Db.src_id s) true categories streams
                      st)) as (grps & Hst & Hn).
      exists grps. split; [|exact Hn].
      rewrite Hst. cbn [flat_map jobChannels]. rewrite E.
      unfold loadXtreamChannels.
      cbn [channels set_channels set_groups]. now rewrite <- app_assoc.
    + exists (groups st). cbn. rewrite app_nil_r. split; [|reflexivity].
      now destruct st.
Qed.

Lemma loadEachM3u_spec xp mp (sources : list Db.Source) : forall st,
  exists grps,
    stateOf (loadEachM3u mp sources st)
    = set_channels
        (channels st
         ++ flat_map (jobChannels xp mp)
              (takeWhile (answered xp mp) (map job_m3u sources)))
        (set_groups grps st)
    /\ match loadEachM3u mp sources st with
       | Normal _ => forallb (answered xp mp) (map job_m3u sources) = true
       | Throw _ => forallb (answered xp mp) (map job_m3u sources) = false
       end.
Proof.
  induction sources as [|s rest IH]; intros st.
  - exists (groups st). cbn. rewrite app_nil_r. split; [|reflexivity].
    now destruct st.
  - cbn [loadEachM3u map takeWhile forallb answered jobChannels].
    destruct (mp (Db.src_id s)) as [data|message] eqn:E.
    + destruct (IH (loadM3uChannels (Db.src_id s) true data st))
        as (grps & Hst & Hn).
      exists grps. split; [|exact Hn].
      rewrite Hst. cbn [flat_map jobChannels]. rewrite E.
      unfold loadM3uChannels.
      cbn [channels set_channels set_groups]. now rewrite <- app_assoc.
    + exists (groups st). cbn. rewrite app_nil_r. split; [|reflexivity].
      now destruct st.
Qed.

Lemma loadHiddenItems_frame hidden st :
  channels (loadHiddenItems hidden st) = channels st
  /\ visibleFavorites (loadHiddenItems hidden st) = visibleFavorites st.
Proof. destruct hidden; split; reflexivity. Qed.

Lemma loadFavorites_frame favs st :
  channels (loadFavorites favs st) = channels st
  /\ hiddenItems (loadFavorites favs st) = hiddenItems st.
Proof. destruct favs; split; reflexivity. Qed.

Lemma render_container st : container (rendered st) <> c_loading.
Proof.
  unfold ChannelList.rendered, ChannelList.showView.
  destruct (sortedGroups (resetView toLowerCase localeCompare st));
    [discriminate|].
  rewrite (initialBatches_keeps container) by apply batch_container.
  discriminate.
Qed.

(** What [loadAllChannels] returns: the loaded state, rendered when
    every fetch was answered. *)
Lemma loadAllChannels_outcome sources xp mp hidden favs st :
  exists grps,
    let loaded :=
      set_channels
        (flat_map (jobChannels xp mp)
           (takeWhile (answered xp mp) (jobsOf sources)))
        (set_groups grps (set_container c_loading st)) in
    loadAllChannels sources xp mp hidden favs st
    = if forallb (answered xp mp) (jobsOf sources)
      then stateOf
             (render (loadFavorites favs (loadHiddenItems hidden loaded)))
      else loaded.
Proof.
  unfold ChannelList.loadAllChannels, jobsOf.
  set (st1 := set_container c_loading _).
  rewrite takeWhile_app, forallb_app.
  destruct (loadEachXtream_spec xp mp (enabledOf "xtream" sources) st1)
    as (g1 & H1 & N1).
  destruct (loadEachXtream xp (enabledOf "xtream" sources) st1)
    as [st2|st2]; cbn [stateOf] in H1; rewrite N1.
  - destruct (loadEachM3u_spec xp mp (enabledOf "m3u" sources) st2)
      as (g2 & H2 & N2).
    exists g2.
    destruct (loadEachM3u mp (enabledOf "m3u" sources) st2)
      as [st3|st3]; cbn [stateOf] in H2; rewrite N2; cbn [andb];
      subst st3 st2; rewrite flat_map_app, (takeWhile_all _ _ N1);
      reflexivity.
  - exists g1. subst st2. reflexivity.
Qed.

Lemma render_not_loading st : container (stateOf (render st)) <> c_loading.
Proof.
  rewrite render_completion. destruct (groupable st); cbn [stateOf].
  - apply render_container.
  - discriminate.
Qed.

(** X22.  [loadAllChannels] stops at the first fetch that is rejected: the
    collection is what the sources before it gave, the Xtream sources
    before the M3U ones; the flags are not reloaded, nothing is
    rendered and the container stays at the loading placeholder.  When
    every fetch is answered the flags are reloaded and [render] is
    called on the loaded collection; the component is left as [render]
    leaves it, also when [render] throws. *)
Lemma loaded_groups favs hidden chs grps st :
  groups
    (stateOf
       (render
          (loadFavorites favs
             (loadHiddenItems hidden
                (set_channels chs (set_groups grps st))))))
  = grps.
Proof.
  match goal with |- context [render ?x] =>
    destruct (render_frame x) as (_ & _ & _ & _ & _ & _ & _ & Hg) end.
  rewrite Hg. now destruct favs, hidden.
Qed.

Theorem loadAllChannels_stops_at_first_failure
    sources xp mp hidden favs st :
  let jobs := jobsOf sources in
  let st' := loadAllChannels sources xp mp hidden favs st in
  channels st'
  = flat_map (jobChannels xp mp) (takeWhile (answered xp mp) jobs)
  /\ if forallb (answered xp mp) jobs
     then st' = stateOf
                  (render
                     (loadFavorites favs
                        (loadHiddenItems hidden
                           (set_channels
                              (flat_map (jobChannels xp mp) jobs)
                              (set_groups (groups st')
                                 (set_container c_loading st))))))
          /\ hiddenItems st' = hiddenItems (loadHiddenItems hidden st)
          /\ visibleFavorites st'
             = visibleFavorites (loadFavorites favs st)
          /\ container st' <> c_loading
     else hiddenItems st' = hiddenItems st
          /\ visibleFavorites st' = visibleFavorites st
          /\ container st' = c_loading
          /\ renderedGroups st' = [].
Proof.
  cbv zeta.
  destruct (loadAllChannels_outcome sources xp mp hidden favs st)
    as (grps & Hout).
  cbv zeta in Hout. rewrite Hout.
  destruct (forallb (answered xp mp) (jobsOf sources)) eqn:Hall.
  - rewrite (takeWhile_all _ _ Hall).
    set (loaded := loadFavorites favs (loadHiddenItems hidden _)).
    destruct (render_frame loaded) as (Hc & Hh & Hv & _).
    rewrite Hc, Hh, Hv. subst loaded.
    split; [now destruct favs, hidden|].
    split; [now rewrite loaded_groups|].
    split; [now destruct favs, hidden|].
    split; [now destruct favs, hidden|apply render_not_loading].
  - repeat split.
Qed.

Lemma NoDup_map_through {A B C} (f : A -> B) (g : A -> C) (l : list A) :
  (forall x y, In x l -> In y l -> f x = f y -> g x = g y) ->
  NoDup (map g l) -> NoDup (map f l).
Proof.
  induction l as [|a l IH]; intros Hfg Hnd; [constructor|].
  cbn [map] in *. apply NoDup_cons in Hnd. destruct Hnd as [Ha Hl].
  apply NoDup_cons. split.
  - intros H%list_elem_of_In%in_map_iff. destruct H as (b & Hb & Hin).
    apply Ha. apply list_elem_of_In, in_map_iff. exists b. split; [|exact Hin].
    apply Hfg; [now right|now left|exact Hb].
  - apply IH; [|exact Hl]. intros x y Hx Hy. apply Hfg; now right.
Qed.

Lemma xtreamId_inj (sourceId a b : Z) :
  xtreamId sourceId (pretty a) = xtreamId sourceId (pretty b) -> a = b.
Proof.
  unfold xtreamId. intros H.
  apply String.app_inj, String.app_inj, String.app_inj in H.
  now apply pretty_Z_inj in H.
Qed.

Lemma jobChannels_source xp mp j c :
  In c (jobChannels xp mp j) -> ch_sourceId c = Db.src_id (jobSource j).
Proof.
  destruct j as [s|s]; cbn [jobChannels jobSource].
  - destruct (xp (Db.src_id s)) as [[categories streams]|]; [|intros []].
    intros Hin. unfold uniqueChannels in Hin.
    apply list_elem_of_In in Hin.
    eapply elem_of_sublist in Hin; [|apply dedupLoop_sublist].
    apply list_elem_of_In, in_map_iff in Hin.
    destruct Hin as (x & <- & _). reflexivity.
  - destruct (mp (Db.src_id s)) as [data|]; [|intros []].
    intros Hin. apply in_map_iff in Hin.
    destruct Hin as (x & <- & _). reflexivity.
Qed.

Lemma jobChannels_NoDup xp mp j :
  distinctIds xp mp j -> NoDup (map channelKey (jobChannels xp mp j)).
Proof.
  destruct j as [s|s]; cbn [jobChannels distinctIds].
  - destruct (xp (Db.src_id s)) as [[categories streams]|]; [|constructor].
    intros Hnd. unfold uniqueChannels.
    eapply sublist_NoDup;
      [|apply map_sublist, dedupLoop_sublist].
    rewrite map_map.
    apply (NoDup_map_through _ stream_id); [|exact Hnd].
    intros x y _ _ H. apply (f_equal fst) in H.
    change (xtreamId (Db.src_id s) (pretty (stream_id x))
            = xtreamId (Db.src_id s) (pretty (stream_id y))) in H.
    now apply xtreamId_inj in H.
  - destruct (mp (Db.src_id s)) as [data|]; [|constructor].
    intros Hnd. rewrite map_map.
    apply (NoDup_map_through _ m3u_id); [|exact Hnd].
    intros x y _ _ [= H]. exact H.
Qed.

Lemma jobs_NoDup xp mp (jobs : list Job) :
  NoDup (map (fun j => Db.src_id (jobSource j)) jobs) ->
  Forall (distinctIds xp mp) jobs ->
  NoDup (map channelKey (flat_map (jobChannels xp mp) jobs)).
Proof.
  induction jobs as [|j jobs IH]; intros Hids Hd; [constructor|].
  cbn [map flat_map] in *. apply NoDup_cons in Hids.
  destruct Hids as [Hj Hids]. apply Forall_cons in Hd.
  destruct Hd as [Hdj Hd]. rewrite map_app. apply NoDup_app.
  split; [now apply jobChannels_NoDup|]. split; [|now apply IH].
  intros k Hk1 Hk2. apply list_elem_of_In, in_map_iff in Hk1, Hk2.
  destruct Hk1 as (c1 & <- & Hc1). destruct Hk2 as (c2 & Hk & Hc2).
  apply in_flat_map in Hc2. destruct Hc2 as (j2 & Hj2 & Hc2).
  apply jobChannels_source in Hc1, Hc2.
  unfold channelKey in Hk. injection Hk as _ Hs.
  apply Hj. apply list_elem_of_In, in_map_iff. exists j2.
  split; [congruence|exact Hj2].
Qed.

(** X23.  When the enabled sources have pairwise different ids and the ids
    within each reply are pairwise different, the channels that
    [loadAllChannels] leaves have pairwise different identities
    [(id, sourceId)], whether or not a fetch was rejected. *)
Theorem loadAllChannels_unique_identities
    sources xp mp hidden favs st :
  NoDup (map (fun j => Db.src_id (jobSource j)) (jobsOf sources)) ->
  Forall (distinctIds xp mp) (jobsOf sources) ->
  NoDup (map channelKey
           (channels (loadAllChannels sources xp mp hidden favs st))).
Proof.
  intros Hids Hd.
  destruct (loadAllChannels_outcome sources xp mp hidden favs st)
    as (grps & Hout).
  cbv zeta in Hout. rewrite Hout.
  assert (Hc : channels
                 (if forallb (answered xp mp) (jobsOf sources)
                  then stateOf
                         (render
                         (loadFavorites favs
                            (loadHiddenItems hidden
                               (set_channels
                                  (flat_map (jobChannels xp mp)
                                     (takeWhile (answered xp mp)
                                        (jobsOf sources)))
                                  (set_groups grps
                                     (set_container c_loading st))))))
                  else set_channels
                         (flat_map (jobChannels xp mp)
                            (takeWhile (answered xp mp) (jobsOf sources)))
                         (set_groups grps (set_container c_loading st)))
               = flat_map (jobChannels xp mp)
                   (takeWhile (answered xp mp) (jobsOf sources))).
  { destruct (forallb (answered xp mp) (jobsOf sources)); [|reflexivity].
    match goal with |- context [render ?x] =>
      destruct (render_frame x) as (E & _) end.
    rewrite E. now destruct favs, hidden. }
  rewrite Hc.
  pose proof (takeWhile_sublist (answered xp mp) (jobsOf sources)) as Hsub.
  apply jobs_NoDup.
  - eapply sublist_NoDup; [exact Hids|now apply map_sublist].
  - rewrite Forall_forall in *. intros j Hj. apply Hd.
    eapply elem_of_sublist; eassumption.
Qed.

(** X24.  [loadChannels] for one selected source.  A rejected fetch leaves the
    component without channels and groups, with the error message in the
    container, and with the flags as they were.  An answered one leaves
    the channels of the reply, which carry the selected source, reloads
    the flags and calls [render] on the result; the component is left as
    [render] leaves it, with the error message in the container when
    [render] throws. *)
Theorem loadChannels_of_one_source
    type id sources xp mp hidden favs st :
  let st' := loadChannels (one_source type id) sources xp mp hidden favs st in
  match rejection type id xp mp with
  | Some message =>
      channels st' = [] /\ groups st' = []
      /\ container st' = c_error message
      /\ renderedGroups st' = []
      /\ hiddenItems st' = hiddenItems st
      /\ visibleFavorites st' = visibleFavorites st
  | None =>
      (let loaded :=
         loadFavorites favs
           (loadHiddenItems hidden
              (set_channels (jobChannels xp mp (selectedJob type id))
                 (set_groups (groups st') (set_container c_loading st)))) in
       match render loaded with
       | Normal st2 => st' = st2
       | Throw st2 => st' = set_container (c_error notAFunction) st2
       end)
      /\ channels st' = jobChannels xp mp (selectedJob type id)
      /\ (forall c, In c (channels st') ->
            ch_sourceId c = id /\ ch_sourceType c = type)
      /\ hiddenItems st' = hiddenItems (loadHiddenItems hidden st)
      /\ visibleFavorites st' = visibleFavorites (loadFavorites favs st)
      /\ container st' <> c_loading
  end.
Proof.
  cbv zeta. unfold ChannelList.loadChannels, rejection.
  assert (Hfin : forall loaded,
            let st' := match render loaded with
                       | Normal st2 => st2
                       | Throw st2 => set_container (c_error notAFunction) st2
                       end in
            match render loaded with
            | Normal st2 => st' = st2
            | Throw st2 => st' = set_container (c_error notAFunction) st2
            end
            /\ groups st' = groups loaded
            /\ channels st' = channels loaded
            /\ hiddenItems st' = hiddenItems loaded
            /\ visibleFavorites st' = visibleFavorites loaded
            /\ container st' <> c_loading).
  { intros loaded. cbv zeta.
    destruct (render_frame loaded) as (Hc & Hh & Hv & _ & _ & _ & _ & Hg).
    pose proof (render_not_loading loaded) as Hn.
    destruct (render loaded) as [st2|st2]; cbn [stateOf] in *;
      (split; [reflexivity|]); cbn [channels hiddenItems visibleFavorites
                                      groups container set_container];
      rewrite ?Hc, ?Hh, ?Hv, ?Hg; repeat split; try assumption;
      discriminate. }
  destruct type; cbn [selectedJob jobChannels Db.src_id].
  - destruct (xp id) as [[categories streams]|message]; [|repeat split].
    set (loaded := loadFavorites favs
                     (loadHiddenItems hidden
                        (loadXtreamChannels id false categories streams
                           (set_container c_loading st)))).
    destruct (Hfin loaded) as (Hr & Hg & Hc & Hh & Hv & Hn).
    rewrite Hc, Hh, Hv, Hg.
    replace (groups loaded) with (map (categoryGroup id) categories)
      by (subst loaded; now destruct favs, hidden).
    subst loaded.
    split; [exact Hr|].
    assert (Hch : channels
                    (loadFavorites favs
                       (loadHiddenItems hidden
                          (loadXtreamChannels id false categories streams
                             (set_container c_loading st))))
                  = uniqueChannels id categories streams)
      by now destruct favs, hidden.
    rewrite Hch. split; [reflexivity|].
    split; [|split; [now destruct favs, hidden|
                     split; [now destruct favs, hidden|exact Hn]]].
    intros c Hc'. unfold uniqueChannels in Hc'.
    apply list_elem_of_In in Hc'.
    eapply elem_of_sublist in Hc'; [|apply dedupLoop_sublist].
    apply list_elem_of_In, in_map_iff in Hc'.
    destruct Hc' as (x & <- & _). split; reflexivity.
  - destruct (mp id) as [data|message]; [|repeat split].
    set (loaded := loadFavorites favs
                     (loadHiddenItems hidden
                        (loadM3uChannels id false data
                           (set_container c_loading st)))).
    destruct (Hfin loaded) as (Hr & Hg & Hc & Hh & Hv & Hn).
    rewrite Hc, Hh, Hv, Hg.
    replace (groups loaded) with (map (m3uGroup id) (data_groups data))
      by (subst loaded; now destruct favs, hidden).
    subst loaded.
    split; [exact Hr|].
    assert (Hch : channels
                    (loadFavorites favs
                       (loadHiddenItems hidden
                          (loadM3uChannels id false data
                             (set_container c_loading st))))
                  = map (m3uChannel id (data_groups data))
                      (data_channels data))
      by now destruct favs, hidden.
    rewrite Hch. split; [reflexivity|].
    split; [|split; [now destruct favs, hidden|
                     split; [now destruct favs, hidden|exact Hn]]].
    intros c Hc'. apply in_map_iff in Hc'.
    destruct Hc' as (x & <- & _). split; reflexivity.
Qed.

(** *** The page over time *)

Variable programTitle : Channel -> option string.

Abbreviation plainPrograms :=
  (ChannelList.plainPrograms hasEpgGuide programTitle).

(** A state whose container does not hold the list. *)
Lemma keeps_unlisted st st' :
  collapsedGroups st' = collapsedGroups st ->
  sortedGroups st' = sortedGroups st ->
  renderedGroups st' = [] ->
  keeps st st'.
Proof.
  intros Hc Hs Hr. split; [exact Hc|]. intros (_ & [Hnd _] & _).
  apply good_unlisted; [now rewrite Hs|exact Hr].
Qed.

Lemma keeps_loaded hidden favs st s :
  collapsedGroups s = collapsedGroups st ->
  sortedGroups s = sortedGroups st ->
  let loaded := loadFavorites favs (loadHiddenItems hidden s) in
  keeps st (stateOf (render loaded))
  /\ keeps st match render loaded with
              | Normal st2 => st2
              | Throw st2 => set_container (c_error notAFunction) st2
              end.
Proof.
  intros Hc Hs loaded.
  assert (Hcl : collapsedGroups loaded = collapsedGroups st
                /\ sortedGroups loaded = sortedGroups st)
    by (subst loaded; now destruct favs, hidden).
  destruct Hcl as [Hcl Hsl].
  rewrite render_completion. destruct (groupable loaded); cbn [stateOf].
  - assert (K : keeps st (rendered loaded)).
    { split; [|intros _; apply good_render].
      now rewrite render_collapsedGroups. }
    now split.
  - split; now apply keeps_unlisted.
Qed.

Lemma keeps_loadChannels selected sources xp mp hidden favs st :
  keeps st (loadChannels selected sources xp mp hidden favs st).
Proof.
  destruct selected as [|type id]; cbn [ChannelList.loadChannels].
  - destruct (loadAllChannels_outcome sources xp mp hidden favs st)
      as (grps & ->).
    destruct (forallb _ _); [|now apply keeps_unlisted].
    now apply keeps_loaded.
  - destruct type.
    + destruct (xp id) as [[categories streams]|message];
        [|now apply keeps_unlisted].
      now apply keeps_loaded.
    + destruct (mp id) as [data|message]; [|now apply keeps_unlisted].
      now apply keeps_loaded.
Qed.

(** One event keeps the invariant. *)
Lemma step_good w e :
  good (fst w)
  /\ (forall search checkbox,
        collapsedGroups (construct (snd w) search checkbox)
        = collapsedGroups (fst w)) ->
  good (fst (step w e))
  /\ (forall search checkbox,
        collapsedGroups (construct (snd (step w e)) search checkbox)
        = collapsedGroups (fst (step w e))).
Proof.
  destruct w as [st saved]. cbn [fst snd]. intros [Hg Hs].
  assert (Hk : forall st', keeps st st' ->
    good (fst (st', saved))
    /\ (forall search checkbox,
          collapsedGroups (construct (snd (st', saved)) search checkbox)
          = collapsedGroups (fst (st', saved)))).
  { intros st' [Hc Hgood]. cbn [fst snd]. split; [now apply Hgood|].
    intros search checkbox. now rewrite Hs, Hc. }
  destruct e; cbn [ChannelList.step].
  - apply Hk, keeps_loadChannels.
  - apply Hk. eapply keeps_trans; [|apply keeps_render]. now apply keeps_view.
  - destruct (showHiddenCheckbox st); [|now apply Hk, keeps_refl].
    apply Hk. eapply keeps_trans; [|apply keeps_render]. now apply keeps_view.
  - apply Hk, keeps_sentinel.
  - apply Hk, keeps_render.
  - destruct (clickHeader i st) as [w|] eqn:E; cbn [from_option id].
    + now apply (good_clickHeader i st w).
    + now apply Hk, keeps_refl.
  - now apply good_expandAll.
  - now apply good_collapseAll.
  - unfold toggleAllGroups. destruct (forallb _ _);
      [now apply good_expandAll|now apply good_collapseAll].
  - apply Hk, keeps_toggleFavorite.
  - apply Hk, keeps_syncFavorite.
  - apply Hk, keeps_selectChannel.
  - apply Hk, keeps_selectNext.
  - apply Hk, keeps_selectPrev.
  - apply Hk, keeps_contextAction.
Qed.

Lemma events_good saved search checkbox events :
  let w := fold_left step events (construct saved search checkbox, saved) in
  good (fst w)
  /\ (forall search' checkbox',
        collapsedGroups (construct (snd w) search' checkbox')
        = collapsedGroups (fst w)).
Proof.
  cbv zeta.
  assert (H : forall w,
    good (fst w)
    /\ (forall search checkbox,
          collapsedGroups (construct (snd w) search checkbox)
          = collapsedGroups (fst w)) ->
    good (fst (fold_left step events w))
    /\ (forall search checkbox,
          collapsedGroups
            (construct (snd (fold_left step events w)) search checkbox)
          = collapsedGroups (fst (fold_left step events w)))).
  { induction events as [|e events IH]; intros w Hw; [exact Hw|].
    cbn [fold_left]. apply IH. now apply step_good. }
  apply H. cbn [fst snd]. split.
  - apply good_unlisted; destruct saved; try constructor; reflexivity.
  - intros search' checkbox'. now rewrite !construct_collapsed.
Qed.

(** X20.  From the constructor on, whatever happens to the page, what the
    events bring and the program titles being plain text: every header
    in the document shows its group collapsed exactly when the group is
    in the set of collapsed groups, and the item in the local storage
    holds that set. *)
Theorem collapsed_state_stays_in_sync saved search checkbox events :
  forallb safeEvent events = true ->
  plainPrograms ->
  collapsedInSync
    (fold_left step events (construct saved search checkbox, saved)).
Proof.
  intros _ _.
  destruct (events_good saved search checkbox events) as [(Hfl & _) Hs].
  split; [exact Hfl|exact Hs].
Qed.

(** X26.  From the constructor on, whatever happens to the page, what the
    events bring and the program titles being plain text: the Favorites
    element of the document, if there is one, mirrors the Favorites array
    of the grouped view: its rows are the channels of the array, in the
    order of the array, and its header shows the length of the array.
    The incremental updates of [updateFavoritesGroup] and the full
    rebuilds of [render] keep the two in step. *)
Theorem favorites_rows_mirror_the_array saved search checkbox events :
  forallb safeEvent events = true ->
  plainPrograms ->
  let st := fst (fold_left step events
                   (construct saved search checkbox, saved)) in
  forall g, In g (renderedGroups st) -> groupOf g = "Favorites" ->
    map rowKey (items g) = map channelKey (membersOf st "Favorites")
    /\ gh_count (header g) = length (membersOf st "Favorites")
    /\ (forall g', In g' (renderedGroups st) -> groupOf g' = "Favorites" ->
          g' = g).
Proof.
  intros _ _. cbv zeta. intros g Hin Hfav.
  destruct (events_good saved search checkbox events)
    as [(_ & [Hnd Hsub] & Hmi) _].
  cbv zeta in *. unfold favoritesMirrored in Hmi.
  rewrite Forall_forall in Hmi.
  destruct (Hmi g (proj2 (list_elem_of_In _ _) Hin) Hfav) as [Hrows Hcount].
  split; [exact Hrows|]. split; [exact Hcount|].
  intros g' Hin' Hfav'.
  assert (Hndn : NoDup (map groupOf
                          (renderedGroups
                             (fst (fold_left step events
                                     (construct saved search checkbox,
                                      saved)))))).
  { eapply sublist_NoDup; [|exact Hsub].
    eapply sublist_NoDup; [exact Hnd|apply sublist_take]. }
  revert Hndn Hin Hin'. generalize (renderedGroups
    (fst (fold_left step events (construct saved search checkbox, saved)))).
  intros l. induction l as [|x l IH]; intros Hndn Hin Hin'; [destruct Hin|].
  cbn [map] in Hndn. apply NoDup_cons in Hndn. destruct Hndn as [Hx Hl].
  destruct Hin as [->|Hin], Hin' as [->|Hin'].
  - reflexivity.
  - exfalso. apply Hx. rewrite Hfav, <- Hfav'.
    now apply list_elem_of_In, in_map.
  - exfalso. apply Hx. rewrite Hfav', <- Hfav.
    now apply list_elem_of_In, in_map.
  - now apply IH.
Qed.

(** *** The source select *)

(** Decimal digits, as [parseInt] reads them. *)
Lemma digitIn_pretty_char (d : N) :
  (d < 10)%N -> Js.digitIn 10 (pretty_N_char d) = Some (Z.of_N d).
Proof.
  intros Hd.
  assert (H : (d = 0 \/ d = 1 \/ d = 2 \/ d = 3 \/ d = 4 \/ d = 5 \/ d = 6
               \/ d = 7 \/ d = 8 \/ d = 9)%N) by lia.
  repeat (destruct H as [->|H]; [reflexivity|]). now subst.
Qed.

Lemma pretty_N_char_plain (d : N) :
  Ascii.eqb (pretty_N_char d) ":" = false
  /\ Ascii.eqb (pretty_N_char d) "-" = false
  /\ Ascii.eqb (pretty_N_char d) "+" = false
  /\ Js.isSpace (pretty_N_char d) = false.
Proof. unfold pretty_N_char. repeat case_match; repeat split. Qed.

(** The digits that [pretty_N_go] puts in front of [s]. *)
Lemma pretty_N_go_digits (x : N) :
  (0 < x)%N ->
  exists k, 0 <= k /\ forall acc s,
    Js.digitsPrefix 10 acc (pretty_N_go x s)
    = Js.digitsPrefix 10
        (Some (match acc with Some a => a | None => 0 end * 10 ^ k
               + Z.of_N x)) s.
Proof.
  induction (N.lt_wf_0 x) as [x _ IH]. intros Hx.
  assert (Hd : (x `mod` 10 < 10)%N) by (apply N.mod_lt; lia).
  pose proof (digitIn_pretty_char _ Hd) as Hdig.
  pose proof (N.div_mod x 10 ltac:(lia)) as Hdm.
  destruct (N.eq_dec (x `div` 10)%N 0%N) as [E|E].
  - exists 1. split; [lia|]. intros acc s.
    rewrite pretty_N_go_step, E, pretty_N_go_0 by exact Hx.
    cbn [Js.digitsPrefix]. rewrite Hdig. do 2 f_equal.
    rewrite E in Hdm. lia.
  - destruct (IH (x `div` 10)%N) as (k & Hk & Hgo);
      [apply N.div_lt; lia|lia|].
    exists (k + 1). split; [lia|]. intros acc s.
    rewrite pretty_N_go_step, Hgo by exact Hx.
    cbn [Js.digitsPrefix]. rewrite Hdig. do 2 f_equal.
    rewrite Z.pow_add_r, Z.pow_1_r by lia.
    rewrite Hdm at 3. rewrite N2Z.inj_add, N2Z.inj_mul. simpl (Z.of_N 10).
    lia.
Qed.

(** The first character of a positive number is a digit other than 0
    (so it is no sign, no white space, and starts no hexadecimal
    prefix), and no character is a colon. *)
Lemma pretty_N_go_first (x : N) : forall s,
  (0 < x)%N ->
  exists c t, pretty_N_go x s = String c t
              /\ Ascii.eqb c "-" = false /\ Ascii.eqb c "+" = false
              /\ Ascii.eqb c "0" = false /\ Js.isSpace c = false.
Proof.
  induction (N.lt_wf_0 x) as [x _ IH]. intros s Hx.
  rewrite pretty_N_go_step by exact Hx.
  destruct (N.eq_dec (x `div` 10)%N 0%N) as [E|E].
  - rewrite E, pretty_N_go_0. eexists _, _. split; [reflexivity|].
    destruct (pretty_N_char_plain (x `mod` 10)%N) as (_ & Hm & Hp & Hs).
    repeat split; try assumption.
    assert (Hlt : (x < 10)%N) by (apply N.div_small_iff in E; lia).
    rewrite N.mod_small by exact Hlt.
    assert (H : (x = 1 \/ x = 2 \/ x = 3 \/ x = 4 \/ x = 5 \/ x = 6
                 \/ x = 7 \/ x = 8 \/ x = 9)%N) by lia.
    repeat (destruct H as [->|H]; [reflexivity|]). now subst.
  - apply IH; [apply N.div_lt; lia|]. now apply N.neq_0_lt_0.
Qed.

Lemma split_plain (c : ascii) (r : string) :
  Ascii.eqb c ":" = false ->
  Js.split ":" (String c r)
  = match Js.split ":" r with
    | w :: ws => String c w :: ws
    | [] => [String c EmptyString]
    end.
Proof. intros H. cbn [Js.split]. now rewrite H. Qed.

Lemma pretty_N_go_split (x : N) : forall s w ws,
  Js.split ":" s = w :: ws ->
  exists w', Js.split ":" (pretty_N_go x s) = w' :: ws
             /\ pretty_N_go x w = w'.
Proof.
  induction (N.lt_wf_0 x) as [x _ IH]. intros s w ws Hs.
  destruct (N.eq_dec x 0%N) as [->|Hx].
  - exists w. now rewrite !pretty_N_go_0.
  - assert (Hpos : (0 < x)%N) by now apply N.neq_0_lt_0.
    rewrite (pretty_N_go_step x s), (pretty_N_go_step x w) by exact Hpos.
    apply (IH (x `div` 10)%N); [apply N.div_lt; lia|].
    destruct (pretty_N_char_plain (x `mod` 10)%N) as (Hc & _).
    now rewrite split_plain, Hs by exact Hc.
Qed.

Lemma pretty_Z_split (z : Z) : Js.split ":" (pretty z) = [pretty z].
Proof.
  destruct z as [|p|p]; [reflexivity| |].
  - unfold pretty, pretty_Z, pretty, pretty_positive, pretty, pretty_N.
    destruct (decide (N.pos p = 0%N)); [discriminate|].
    destruct (pretty_N_go_split (N.pos p) "" "" [] eq_refl) as (w & Hw & <-).
    exact Hw.
  - unfold pretty, pretty_Z, pretty at 1, pretty_positive, pretty, pretty_N.
    destruct (decide (N.pos p = 0%N)); [discriminate|].
    destruct (pretty_N_go_split (N.pos p) "" "" [] eq_refl) as (w & Hw & <-).
    change ("-" +:+ ?x) with (String "-" x).
    rewrite split_plain by reflexivity. now rewrite Hw.
Qed.

Lemma parseInt_positive (p : positive) (sign : Z) :
  option_map (Z.mul sign)
    (Js.digitsPrefix 10 None (pretty_N_go (N.pos p) ""))
  = Some (sign * Z.pos p).
Proof.
  destruct (pretty_N_go_digits (N.pos p) ltac:(lia)) as (k & _ & Hgo).
  rewrite Hgo. cbn [Js.digitsPrefix option_map]. f_equal.
Qed.

(** [parseInt] reads back the decimal text of an integer. *)
Lemma parseInt_pretty (z : Z) : Js.parseInt (pretty z) = Some z.
Proof.
  destruct z as [|p|p]; [reflexivity| |].
  - unfold pretty, pretty_Z, pretty, pretty_positive, pretty, pretty_N.
    destruct (decide (N.pos p = 0%N)); [discriminate|].
    destruct (pretty_N_go_first (N.pos p) "" ltac:(lia))
      as (c & t & Hct & Hm & Hp & H0 & Hs).
    pose proof (parseInt_positive p 1) as Hval. rewrite Hct in Hval.
    unfold Js.parseInt. rewrite Hct. cbn [Js.trimStart].
    rewrite Hs, Hm, Hp.
    destruct t as [|x t']; cbn [andb]; rewrite ?H0; cbn [andb];
      rewrite Hval; f_equal; lia.
  - unfold pretty, pretty_Z, pretty at 1, pretty_positive, pretty, pretty_N.
    destruct (decide (N.pos p = 0%N)); [discriminate|].
    destruct (pretty_N_go_first (N.pos p) "" ltac:(lia))
      as (c & t & Hct & Hm & Hp & H0 & Hs).
    pose proof (parseInt_positive p (-1)) as Hval. rewrite Hct in Hval.
    change ("-" +:+ ?x) with (String "-" x).
    unfold Js.parseInt. cbn [Js.trimStart].
    change (Js.isSpace "-") with false. cbv iota.
    change (Ascii.eqb "-" "-") with true. cbv iota.
    rewrite Hct.
    destruct t as [|x t']; rewrite ?H0; cbn [andb];
      rewrite Hval; f_equal; lia.
Qed.

Lemma selectionOf_option (type : SourceType) (source : Db.Source) :
  selectionOf (opt_value (sourceOption (typeText type) source))
  = Some (one_source type (Db.src_id source)).
Proof.
  unfold selectionOf, sourceOption. cbn [opt_value].
  destruct type; cbn [typeText].
  - change ("xtream" ++ ":" ++ ?x)%string
      with (String "x" (String "t" (String "r" (String "e" (String "a"
              (String "m" (String ":" x))))))).
    cbn [String.eqb Ascii.eqb Bool.eqb Js.split].
    rewrite pretty_Z_split. cbn [String.eqb Ascii.eqb Bool.eqb].
    now rewrite parseInt_pretty.
  - change ("m3u" ++ ":" ++ ?x)%string
      with (String "m" (String "3" (String "u" (String ":" x)))).
    cbn [String.eqb Ascii.eqb Bool.eqb Js.split].
    rewrite pretty_Z_split. cbn [String.eqb Ascii.eqb Bool.eqb].
    now rewrite parseInt_pretty.
Qed.

Lemma optGroup_options label type sources o :
  (exists g, In g (optGroup label type sources) /\ In o (og_options g))
  <-> In o (map (sourceOption type) (enabledOf type sources)).
Proof.
  unfold optGroup.
  destruct (enabledOf type sources) as [|s r] eqn:E.
  - split; [intros (g & [] & _)|intros []].
  - split.
    + intros (g & [<-|[]] & Ho). exact Ho.
    + intros Ho. eexists. split; [left; reflexivity|exact Ho].
Qed.

(** X25.  The values that [loadSources] puts in the select are read back
    by [loadChannels]: the option at the top selects all sources; the
    options of the groups are, one for one, the enabled Xtream and M3U
    sources, and the value of each, split at the colon and passed
    through [parseInt], gives the type and the id of its source. *)
Theorem source_select_round_trip (sources : list Db.Source) old :
  let select := snd (loadSources (replied sources) old) in
  (forall o, In o (sel_options select) ->
     selectionOf (opt_value o) = Some all_sources)
  /\ (forall o,
        (exists g, In g (sel_groups select) /\ In o (og_options g))
        <-> exists type source,
              In source sources /\ Db.src_enabled source = true
              /\ Db.src_type source = typeText type
              /\ o = sourceOption (typeText type) source)
  /\ (forall type source,
        selectionOf (opt_value (sourceOption (typeText type) source))
        = Some (one_source type (Db.src_id source))).
Proof.
  cbv zeta. cbn [loadSources snd sel_options sel_groups].
  split; [intros o [<-|[]]; reflexivity|].
  split; [|apply selectionOf_option].
  intros o. split.
  - intros (g & Hg & Ho). apply in_app_iff in Hg.
    destruct Hg as [Hg|Hg].
    + assert (H : In o (map (sourceOption "xtream")
                          (enabledOf "xtream" sources)))
        by (apply (optGroup_options "Xtream"); eauto).
      apply in_map_iff in H. destruct H as (src & <- & Hs).
      apply filter_In in Hs. destruct Hs as [Hin Hb].
      apply andb_true_iff in Hb. destruct Hb as [Ht He].
      apply String.eqb_eq in Ht. exists xtream, src. now repeat split.
    + assert (H : In o (map (sourceOption "m3u") (enabledOf "m3u" sources)))
        by (apply (optGroup_options "M3U"); eauto).
      apply in_map_iff in H. destruct H as (src & <- & Hs).
      apply filter_In in Hs. destruct Hs as [Hin Hb].
      apply andb_true_iff in Hb. destruct Hb as [Ht He].
      apply String.eqb_eq in Ht. exists m3u, src. now repeat split.
  - intros (type & src & Hin & He & Ht & ->).
    assert (Hen : In src (enabledOf (typeText type) sources)).
    { apply filter_In. split; [exact Hin|].
      rewrite Ht, String.eqb_refl, He. reflexivity. }
    destruct type; cbn [typeText] in *.
    + destruct (proj2 (optGroup_options "Xtream" "xtream" sources
                         (sourceOption "xtream" src))) as (g & Hg & Ho);
        [now apply in_map|].
      exists g. split; [apply in_app_iff; now left|exact Ho].
    + destruct (proj2 (optGroup_options "M3U" "m3u" sources
                         (sourceOption "m3u" src))) as (g & Hg & Ho);
        [now apply in_map|].
      exists g. split; [apply in_app_iff; now right|exact Ho].
Qed.

(** *** Markup *)

Lemma string_app_assoc (a b c : string) :
  ((a ++ b) ++ c = a ++ (b ++ c))%string.
Proof.
  induction a as [|x a IH]; [reflexivity|].
  change (String x ((a ++ b) ++ c) = String x (a ++ (b ++ c)))%string.
  now rewrite IH.
Qed.

Lemma replaceAll_app c b (x y : string) :
  Js.replaceAll c b (x ++ y)
  = (Js.replaceAll c b x ++ Js.replaceAll c b y)%string.
Proof.
  induction x as [|a x IH]; [reflexivity|].
  change (String a x ++ y)%string with (String a (x ++ y)%string).
  cbn [Js.replaceAll].
  destruct (Ascii.eqb a c); rewrite IH; [|reflexivity].
  symmetry. apply string_app_assoc.
Qed.

Lemma escape_one (x : ascii) :
  Js.replaceAll "'" "&#039;"
    (Js.replaceAll dquote "&quot;"
       (Js.replaceAll ">" "&gt;"
          (Js.replaceAll "<" "&lt;"
             (Js.replaceAll "&" "&amp;" (String x "")))))
  = escapeChar x.
Proof. destruct x as [[] [] [] [] [] [] [] []]; reflexivity. Qed.

Lemma escapeChar_safe (x : ascii) :
  forallb (fun c => negb (isMarkup c)) (list_ascii_of_string (escapeChar x))
  = true.
Proof. destruct x as [[] [] [] [] [] [] [] []]; reflexivity. Qed.

Lemma list_ascii_app (a b : string) :
  list_ascii_of_string (a ++ b)
  = list_ascii_of_string a ++ list_ascii_of_string b.
Proof.
  induction a as [|x a IH]; [reflexivity|].
  change (String x a ++ b)%string with (String x (a ++ b)%string).
  cbn [list_ascii_of_string]. now rewrite IH.
Qed.

(** X14.  The five replacements in sequence amount to replacing every character
    of the text by its entity, in one pass: what an earlier replacement
    wrote is not touched by a later one.  The result holds no [<], [>],
    double quote or apostrophe. *)
Theorem escapeHtml_one_pass (text : string) :
  escapeHtml (Some text) = expand escapeChar text
  /\ forall c, In c (list_ascii_of_string (escapeHtml (Some text))) ->
               isMarkup c = false.
Proof.
  assert (Hone : escapeHtml (Some text) = expand escapeChar text).
  { unfold escapeHtml. destruct (String.eqb_spec text "") as [->|_];
      [reflexivity|].
    induction text as [|x r IH]; [reflexivity|].
    change (String x r) with (String x "" ++ r)%string.
    rewrite !replaceAll_app, IH, escape_one. reflexivity. }
  split; [exact Hone|]. rewrite Hone. clear Hone.
  induction text as [|x r IH]; cbn [expand]; [simpl; tauto|].
  intros c. rewrite list_ascii_app, in_app_iff. intros [Hc|Hc]; [|now apply IH].
  pose proof (escapeChar_safe x) as Hs. rewrite forallb_forall in Hs.
  apply Hs in Hc. now apply negb_true_iff in Hc.
Qed.

(** *** Closed evaluations *)


(** C3, evaluated.  CNN and BBC are favorites and rendered; the remove
    call for BBC fails.  After the rollback the cached set is what it was,
    but the Favorites member list went from [BBC; CNN] to [CNN; BBC], and
    the button of BBC in its own group, active again, still carries the
    title of an inactive button. *)
Theorem toggleFavorite_rollback_reorders_favorites :
  let before := Scenario.twoFavorites in
  let o := Scenario.toggleFavorite 1 "xtream_1_11" false before in
  let buttons st :=
    map (fun it => (btn_active (item_btn it), btn_title (item_btn it)))
      (List.filter (itemMatches "xtream_1_11" 1) (renderedItems st)) in
  effects o = [api_favorites_remove 1 "xtream_1_11";
               console_error "Error toggling favorite:"]
  /\ visibleFavorites (final o) = visibleFavorites before
  /\ map ch_name (membersOf before "Favorites") = ["BBC"; "CNN"]
  /\ map ch_name (membersOf (final o) "Favorites") = ["CNN"; "BBC"]
  /\ buttons before = [(true, "Remove from Favorites");
                       (true, "Remove from Favorites")]
  /\ buttons (final o) = [(true, "Remove from Favorites");
                          (true, "Add to Favorites")].
Proof. vm_compute. repeat split. Qed.

(** C4, evaluated.  Two sources share the group title "News"; the group
    is hidden for source 2 and show-hidden is off.  The batch renderer
    looks the flag up under the source of the first member (source 1), so
    the BBC row of source 2 is rendered; [getVisibleChannels] leaves that
    channel out. *)
Theorem renderNextBatch_group_flag_of_first_member :
  let st := Scenario.twoSources in
  showHidden st = false
  /\ isHidden st "group" 2 "News" = true
  /\ map (fun it => (data_source_id it, item_name it)) (renderedItems st)
     = [(1, "CNN"); (2, "BBC")]
  /\ map (fun ch => (ch_sourceId ch, ch_name ch))
       (getVisibleChannels st) = [(1, "CNN")].
Proof. vm_compute. repeat split. Qed.


(** C6 fails as stated: a favorite that is not hidden is rendered twice,
    under Favorites and under its own group. *)
Lemma favorite_rendered_twice :
  let st := scrollToEnd 3 Scenario.oneFavorite in
  loaderRetired st = true
  /\ map (fun g => (gh_group (header g), map item_name (items g)))
       (renderedGroups st)
     = [("Favorites", ["CNN"]); ("News", ["CNN"; "BBC"])]
  /\ length (List.filter (itemMatches "xtream_1_10" 1) (renderedItems st))
     = 2%nat.
Proof. vm_compute. repeat split. Qed.




(** C9 fails as stated: toggling an id that no channel has flips the
    cached membership and issues the remote call. *)
Lemma toggleFavorite_absent_id_not_noop :
  let st := Scenario.plain in
  let o := Scenario.toggleFavorite 1 "gone" true st in
  List.find (fun c => String.eqb (ch_id c) "gone") (channels st) = None
  /\ isFavorite st 1 "gone" = false
  /\ isFavorite (final o) 1 "gone" = true
  /\ effects o = [api_favorites_add 1 "gone";
                  epg_syncFavorite 1 "gone" true].
Proof. vm_compute. repeat split. Qed.

End ChannelListProperties.

(* ===================================================================== *)
(** * Part III: the theorems at concrete inputs                           *)
(* ===================================================================== *)

(** Distinctness of the elements of a list of literals. *)
Ltac distinct :=
  repeat (apply NoDup_cons; split;
          [rewrite list_elem_of_In; cbn; intuition discriminate|]);
  apply NoDup_nil_2.

(** The amended C9 on the rendered two-channel list and the id "gone". *)
Lemma absent_id_witness :
  (forall c, In c (ChannelList.channels Scenario.plain) ->
             ChannelList.ch_id c <> "gone")
  /\ Js.plain "gone" = true
  /\ ChannelList.selectChannel true "gone" None Scenario.plain
     = ChannelList.mkOutcome Scenario.plain [] false.
Proof.
  assert (H : forall c, In c (ChannelList.channels Scenario.plain) ->
                        ChannelList.ch_id c <> "gone").
  { vm_compute. intros c [<-|[<-|[]]]; discriminate. }
  assert (Hp : Js.plain "gone" = true) by reflexivity.
  split; [exact H|]. split; [exact Hp|].
  apply (absent_id_select_noop_toggle_unguarded
           Host.toLowerCase Host.localeCompare true true
           Scenario.plain "gone" H Hp).
Defined.




(** The amended C6 on the list with one favorite, after three callbacks. *)
Lemma scroll_witness :
  let st := Scenario.oneFavorite in
  let st1 :=
    ChannelList.stateOf
      (ChannelList.render Host.toLowerCase Host.localeCompare st) in
  let shown := ChannelList.scrollToEnd 3 st1 in
  ChannelList.groupable Host.toLowerCase st = true
  /\ forallb ChannelList.markupSafe (ChannelList.channels st) = true
  /\ NoDup (map ChannelList.channelKey (ChannelList.channels st))
  /\ (forall a b, In a (ChannelList.channels st) ->
        In b (ChannelList.channels st) ->
        ChannelList.groupKey a = ChannelList.groupKey b ->
        ChannelList.ch_sourceId a = ChannelList.ch_sourceId b)
  /\ (length (ChannelList.sortedGroups st1) <= 3)%nat
  /\ ChannelList.render Host.toLowerCase Host.localeCompare st
     = ChannelList.Normal st1
  /\ ChannelList.loaderRetired shown = true
  /\ NoDup (ChannelList.sortedGroups st1)
  /\ map ChannelList.elSummary (ChannelList.renderedGroups shown)
     = omap (ChannelList.groupSummary st1) (ChannelList.sortedGroups st1)
  /\ (forall ch, In ch (ChannelList.channels st) ->
        ChannelList.groupKey ch <> "Favorites" ->
        ChannelList.passesSearch Host.toLowerCase st ch = true ->
        ChannelList.groupHiddenIn st1 (ChannelList.groupKey ch)
        = ChannelList.isHidden st "group" (ChannelList.ch_sourceId ch)
            (ChannelList.groupKey ch))
  /\ (forall ch, In ch (ChannelList.channels st) ->
        ChannelList.groupKey ch <> "Favorites" ->
        ChannelList.occurrences ch (ChannelList.renderedItems shown)
        = ((if ChannelList.passesSearch Host.toLowerCase st ch
               && ChannelList.unsuppressed st ch
            then 1 else 0)
           + (if ChannelList.isFavorite st (ChannelList.ch_sourceId ch)
                   (ChannelList.ch_id ch)
              then 1 else 0))%nat).
Proof.
  cbv zeta.
  assert (H1 : ChannelList.groupable Host.toLowerCase Scenario.oneFavorite
               = true) by (vm_compute; reflexivity).
  assert (H2 : forallb ChannelList.markupSafe
                 (ChannelList.channels Scenario.oneFavorite) = true)
    by (vm_compute; reflexivity).
  assert (H3 : NoDup (map ChannelList.channelKey
                        (ChannelList.channels Scenario.oneFavorite)))
    by (vm_compute; distinct).
  assert (H4 : forall a b,
             In a (ChannelList.channels Scenario.oneFavorite) ->
             In b (ChannelList.channels Scenario.oneFavorite) ->
             ChannelList.groupKey a = ChannelList.groupKey b ->
             ChannelList.ch_sourceId a = ChannelList.ch_sourceId b).
  { intros a b Ha Hb _. vm_compute in Ha, Hb.
    destruct Ha as [<-|[<-|[]]], Hb as [<-|[<-|[]]]; reflexivity. }
  assert (H5 : (length (ChannelList.sortedGroups
                          (ChannelList.stateOf
                             (ChannelList.render Host.toLowerCase
                                Host.localeCompare Scenario.oneFavorite)))
                <= 3)%nat) by (vm_compute; lia).
  split; [exact H1|]. split; [exact H2|]. split; [exact H3|].
  split; [exact H4|]. split; [exact H5|].
  exact (scroll_renders_each_group_once Host.toLowerCase Host.localeCompare
           Scenario.oneFavorite 3 H1 H2 H3 H4 H5).
Defined.


(** Showing after hiding, on a store that holds another hidden item. *)
Lemma show_undoes_hide_witness :
  let f := Db.hiddenItems_hide 2 "group" "News" None in
  Db.hiddenItems_isHidden 1 "channel" "a" f = false
  /\ (let f' := Db.hiddenItems_show 1 "channel" "a"
                  (Db.hiddenItems_hide 1 "channel" "a" f) in
      Db.hiddenItems (Db.loadDb f') = Db.hiddenItems (Db.loadDb f)
      /\ Db.sources (Db.loadDb f') = Db.sources (Db.loadDb f)
      /\ Db.favorites (Db.loadDb f') = Db.favorites (Db.loadDb f)).
Proof.
  split; [reflexivity|].
  apply (show_undoes_hide 1 "channel" "a"
           (Db.hiddenItems_hide 2 "group" "News" None)).
  reflexivity.
Defined.

(** [bulkHide] of three items, one of them twice, on the empty store. *)
Lemma bulkHide_is_repeated_hide_witness :
  let items := [Db.mkBulk 1 "channel" "a"; Db.mkBulk 1 "channel" "a";
                Db.mkBulk 2 "group" "News"] in
  0 < Db.nextId (Db.loadDb None)
  /\ Db.hiddenItems_bulkHide items None
     = fold_left (fun f item =>
                    Db.hiddenItems_hide (Db.bi_sourceId item)
                      (Db.bi_itemType item) (Db.bi_itemId item) f)
         items None.
Proof.
  split; [reflexivity|].
  apply (bulkHide_is_repeated_hide
           [Db.mkBulk 1 "channel" "a"; Db.mkBulk 1 "channel" "a";
            Db.mkBulk 2 "group" "News"] None).
  reflexivity.
Defined.

(** Creating a source on the store of the scenario. *)
Lemma create_then_getById_witness :
  Db.wellNumbered (Db.loadDb Scenario.store)
  /\ (let f' := fst (Db.sources_create (Db.mkInput None "xtream" "News")
                       Scenario.store) in
      let s := snd (Db.sources_create (Db.mkInput None "xtream" "News")
                      Scenario.store) in
      s = Db.mkSource (Db.nextId (Db.loadDb Scenario.store)) "xtream" "News"
            true
      /\ Db.sources_getById (Some (Db.src_id s)) f' = Some s
      /\ (forall id, id <> Some (Db.src_id s) ->
            Db.sources_getById id f' = Db.sources_getById id Scenario.store)
      /\ Db.sources_getById (Some (Db.src_id s)) Scenario.store = None).
Proof.
  assert (H : Db.wellNumbered (Db.loadDb Scenario.store)).
  { unfold Db.wellNumbered. vm_compute.
    split; [distinct|]. split; [reflexivity|].
    repeat constructor. }
  split; [exact H|].
  exact (create_then_getById "xtream" "News" Scenario.store H).
Defined.

(** Hiding BBC from the menu of its row in the plain list. *)
Lemma context_hide_on_item_witness :
  NoDup (map ChannelList.channelKey (ChannelList.channels Scenario.plain))
  /\ In Scenario.bbc (ChannelList.channels Scenario.plain)
  /\ ChannelList.groupKey Scenario.bbc <> "Favorites"
  /\ ChannelList.rowKey Scenario.bbcRow = ChannelList.channelKey Scenario.bbc
  /\ default false (ChannelList.showHiddenCheckbox Scenario.plain) = false
  /\ ChannelList.groupable Host.toLowerCase Scenario.plain = true
  /\ forallb ChannelList.markupSafe (ChannelList.channels Scenario.plain)
     = true
  /\ (let o := ChannelList.handleContextAction Host.toLowerCase
                 Host.localeCompare true ChannelList.act_hide
                 (ChannelList.showContextMenu
                    (ChannelList.on_item Scenario.bbcRow))
                 true None Scenario.plain in
      (length (ChannelList.sortedGroups (ChannelList.m_final o)) <= 3)%nat
      /\ ChannelList.m_rejected o = false
      /\ ChannelList.m_effects o
         = [ChannelList.api_channels_hide
              (Some (ChannelList.ch_sourceId Scenario.bbc)) "channel"
              (ChannelList.ch_id Scenario.bbc)]
      /\ ChannelList.isHidden (ChannelList.m_final o) "channel"
           (ChannelList.ch_sourceId Scenario.bbc)
           (ChannelList.ch_id Scenario.bbc) = true
      /\ ChannelList.occurrences Scenario.bbc
           (ChannelList.renderedItems
              (ChannelList.scrollToEnd 3 (ChannelList.m_final o)))
         = (if ChannelList.isFavorite Scenario.plain
                 (ChannelList.ch_sourceId Scenario.bbc)
                 (ChannelList.ch_id Scenario.bbc)
            then 1 else 0)%nat).
Proof.
  assert (H1 : NoDup (map ChannelList.channelKey
                        (ChannelList.channels Scenario.plain)))
    by (vm_compute; distinct).
  assert (H2 : In Scenario.bbc (ChannelList.channels Scenario.plain))
    by (vm_compute; right; left; reflexivity).
  assert (H3 : ChannelList.groupKey Scenario.bbc <> "Favorites")
    by (vm_compute; discriminate).
  assert (H4 : ChannelList.rowKey Scenario.bbcRow
               = ChannelList.channelKey Scenario.bbc)
    by (vm_compute; reflexivity).
  assert (H5 : default false (ChannelList.showHiddenCheckbox Scenario.plain)
               = false) by (vm_compute; reflexivity).
  assert (H6 : ChannelList.groupable Host.toLowerCase Scenario.plain = true)
    by (vm_compute; reflexivity).
  assert (H7 : forallb ChannelList.markupSafe
                 (ChannelList.channels Scenario.plain) = true)
    by (vm_compute; reflexivity).
  assert (H8 : (length (ChannelList.sortedGroups
                          (ChannelList.m_final
                             (ChannelList.handleContextAction
                                Host.toLowerCase Host.localeCompare true
                                ChannelList.act_hide
                                (ChannelList.showContextMenu
                                   (ChannelList.on_item Scenario.bbcRow))
                                true None Scenario.plain))) <= 3)%nat)
    by (vm_compute; lia).
  split; [exact H1|]. split; [exact H2|]. split; [exact H3|].
  split; [exact H4|]. split; [exact H5|]. split; [exact H6|].
  split; [exact H7|]. split; [exact H8|].
  exact (context_hide_on_item_removes_row Host.toLowerCase
           Host.localeCompare true Scenario.plain Scenario.bbc
           Scenario.bbcRow None 3 H1 H2 H3 H4 H5 H6 H7 H8).
Defined.

(** Next and previous from CNN in the plain list. *)
Lemma next_and_prev_witness :
  NoDup (map ChannelList.ch_id (ChannelList.channels Scenario.watching))
  /\ sublist (ChannelList.filteredChannels Scenario.watching)
       (ChannelList.channels Scenario.watching)
  /\ ChannelList.currentChannel Scenario.watching = Some Scenario.cnn
  /\ In Scenario.cnn (ChannelList.filteredChannels Scenario.watching)
  /\ (let n := length (ChannelList.filteredChannels Scenario.watching) in
      (exists i,
          nth_error (ChannelList.filteredChannels Scenario.watching) i
          = Some Scenario.cnn
          /\ ChannelList.currentChannel
               (ChannelList.final
                  (ChannelList.selectNextChannel true None Scenario.watching))
             = nth_error (ChannelList.filteredChannels Scenario.watching)
                 ((i + 1) mod n)%nat
          /\ ChannelList.currentChannel
               (ChannelList.final
                  (ChannelList.selectPrevChannel true None Scenario.watching))
             = nth_error (ChannelList.filteredChannels Scenario.watching)
                 ((i + n - 1) mod n)%nat)
      /\ ChannelList.currentChannel
           (ChannelList.final
              (ChannelList.selectPrevChannel true None
                 (ChannelList.final
                    (ChannelList.selectNextChannel true None
                       Scenario.watching))))
         = Some Scenario.cnn
      /\ ChannelList.currentChannel
           (ChannelList.final
              (ChannelList.selectNextChannel true None
                 (ChannelList.final
                    (ChannelList.selectPrevChannel true None
                       Scenario.watching))))
         = Some Scenario.cnn).
Proof.
  assert (H1 : NoDup (map ChannelList.ch_id
                        (ChannelList.channels Scenario.watching)))
    by (vm_compute; distinct).
  assert (H2 : sublist (ChannelList.filteredChannels Scenario.watching)
                 (ChannelList.channels Scenario.watching))
    by (vm_compute; reflexivity).
  assert (H3 : ChannelList.currentChannel Scenario.watching
               = Some Scenario.cnn) by (vm_compute; reflexivity).
  assert (H4 : In Scenario.cnn (ChannelList.filteredChannels Scenario.watching))
    by (vm_compute; left; reflexivity).
  split; [exact H1|]. split; [exact H2|]. split; [exact H3|].
  split; [exact H4|].
  exact (next_and_prev_are_inverse true Scenario.watching Scenario.cnn
           None None H1 H2 H3 H4).
Defined.

(** The list and [getVisibleChannels] on the source with BBC hidden. *)
Lemma getVisibleChannels_witness :
  let st := Scenario.hiddenMemberLoaded in
  let st1 :=
    ChannelList.stateOf
      (ChannelList.render Host.toLowerCase Host.localeCompare st) in
  NoDup (map ChannelList.channelKey (ChannelList.channels st))
  /\ (forall c, In c (ChannelList.channels st) ->
        exists t, ChannelList.ch_groupTitle c = Some t
                  /\ t <> "" /\ t <> "Favorites")
  /\ (forall a b, In a (ChannelList.channels st) ->
        In b (ChannelList.channels st) ->
        ChannelList.groupKey a = ChannelList.groupKey b ->
        ChannelList.ch_sourceId a = ChannelList.ch_sourceId b)
  /\ forallb ChannelList.ownTitle (ChannelList.channels st) = true
  /\ forallb ChannelList.markupSafe (ChannelList.channels st) = true
  /\ (length (ChannelList.sortedGroups st1) <= 3)%nat
  /\ ChannelList.render Host.toLowerCase Host.localeCompare st
     = ChannelList.Normal st1
  /\ (forall ch, In ch (ChannelList.channels st) ->
        ChannelList.occurrences ch
          (ChannelList.renderedItems (ChannelList.scrollToEnd 3 st1))
        = ((if ChannelList.passesSearch Host.toLowerCase st ch
               && bool_decide (ch ∈ ChannelList.getVisibleChannels st)
            then 1 else 0)
           + (if ChannelList.isFavorite st (ChannelList.ch_sourceId ch)
                   (ChannelList.ch_id ch)
              then 1 else 0))%nat).
Proof.
  cbv zeta.
  assert (H1 : NoDup (map ChannelList.channelKey
                        (ChannelList.channels Scenario.hiddenMemberLoaded)))
    by (vm_compute; distinct).
  assert (H2 : forall c,
             In c (ChannelList.channels Scenario.hiddenMemberLoaded) ->
             exists t, ChannelList.ch_groupTitle c = Some t
                       /\ t <> "" /\ t <> "Favorites").
  { intros c Hc. vm_compute in Hc. destruct Hc as [<-|[<-|[]]];
      exists "News"; repeat split; discriminate. }
  assert (H3 : forall a b,
             In a (ChannelList.channels Scenario.hiddenMemberLoaded) ->
             In b (ChannelList.channels Scenario.hiddenMemberLoaded) ->
             ChannelList.groupKey a = ChannelList.groupKey b ->
             ChannelList.ch_sourceId a = ChannelList.ch_sourceId b).
  { intros a b Ha Hb _. vm_compute in Ha, Hb.
    destruct Ha as [<-|[<-|[]]], Hb as [<-|[<-|[]]]; reflexivity. }
  assert (H4 : forallb ChannelList.ownTitle
                 (ChannelList.channels Scenario.hiddenMemberLoaded) = true)
    by (vm_compute; reflexivity).
  assert (H5 : forallb ChannelList.markupSafe
                 (ChannelList.channels Scenario.hiddenMemberLoaded) = true)
    by (vm_compute; reflexivity).
  assert (H6 : (length (ChannelList.sortedGroups
                          (ChannelList.stateOf
                             (ChannelList.render Host.toLowerCase
                                Host.localeCompare
                                Scenario.hiddenMemberLoaded)))
                <= 3)%nat) by (vm_compute; lia).
  split; [exact H1|]. split; [exact H2|]. split; [exact H3|].
  split; [exact H4|]. split; [exact H5|]. split; [exact H6|].
  exact (getVisibleChannels_agrees_with_list Host.toLowerCase
           Host.localeCompare Scenario.hiddenMemberLoaded 3 H1 H2 H3 H4 H5
           H6).
Defined.

(** The hidden channel and the favorite of the store of the scenario, as
    the component sees them. *)
Lemma hidden_in_store_witness :
  Db.hiddenItems_isHidden 1 "channel" "xtream_1_11" Scenario.store = true
  /\ ChannelList.isHidden
       (ChannelList.loadHiddenItems
          (Some (Db.hiddenItems (Db.loadDb Scenario.store))) Scenario.fresh)
       "channel" 1 "xtream_1_11" = true.
Proof.
  assert (H : Db.hiddenItems_isHidden 1 "channel" "xtream_1_11"
                Scenario.store = true) by reflexivity.
  split; [exact H|].
  exact (hidden_in_store_is_hidden_in_cache Scenario.store Scenario.fresh
           1 "channel" "xtream_1_11" H).
Defined.

Lemma favorite_in_store_witness :
  "xtream_1_10" <> ""
  /\ Db.favorites_isFavorite 1 "xtream_1_10" "channel" Scenario.store = true
  /\ ChannelList.isFavorite
       (ChannelList.loadFavorites
          (Some (Db.favorites (Db.loadDb Scenario.store))) Scenario.fresh)
       1 "xtream_1_10" = true.
Proof.
  assert (H1 : "xtream_1_10" <> "") by discriminate.
  assert (H2 : Db.favorites_isFavorite 1 "xtream_1_10" "channel"
                 Scenario.store = true) by reflexivity.
  split; [exact H1|]. split; [exact H2|].
  exact (favorite_in_store_is_favorite_in_cache Scenario.store
           Scenario.fresh 1 "xtream_1_10" H1 H2).
Defined.

(** Loading all of the three sources of the scenario. *)
Lemma loadAllChannels_unique_witness :
  NoDup (map (fun j => Db.src_id (ChannelList.jobSource j))
           (ChannelList.jobsOf Scenario.threeSources))
  /\ Forall (ChannelList.distinctIds Scenario.xtreamProxy Scenario.m3uProxy)
       (ChannelList.jobsOf Scenario.threeSources)
  /\ NoDup (map ChannelList.channelKey
              (ChannelList.channels
                 (ChannelList.loadAllChannels Host.toLowerCase
                    Host.localeCompare Scenario.threeSources
                    Scenario.xtreamProxy Scenario.m3uProxy None None
                    Scenario.fresh))).
Proof.
  assert (H1 : NoDup (map (fun j => Db.src_id (ChannelList.jobSource j))
                        (ChannelList.jobsOf Scenario.threeSources)))
    by (vm_compute; distinct).
  assert (H2 : Forall (ChannelList.distinctIds Scenario.xtreamProxy
                         Scenario.m3uProxy)
                 (ChannelList.jobsOf Scenario.threeSources)).
  { vm_compute. constructor; [distinct|]. constructor; [distinct|].
    constructor. }
  split; [exact H1|]. split; [exact H2|].
  exact (loadAllChannels_unique_identities Host.toLowerCase
           Host.localeCompare Scenario.threeSources Scenario.xtreamProxy
           Scenario.m3uProxy None None Scenario.fresh H1 H2).
Defined.

(** The collapsed groups at the end of the session of the scenario. *)
Lemma collapsed_state_witness :
  forallb ChannelList.safeEvent Scenario.session = true
  /\ ChannelList.plainPrograms true Host.programTitle
  /\ ChannelList.collapsedInSync
       (fold_left
          (ChannelList.step Host.toLowerCase Host.localeCompare true true
             Host.notAFunction)
          Scenario.session
          (ChannelList.construct ChannelList.item_absent "" (Some false),
           ChannelList.item_absent)).
Proof.
  assert (H1 : forallb ChannelList.safeEvent Scenario.session = true)
    by (vm_compute; reflexivity).
  assert (H2 : ChannelList.plainPrograms true Host.programTitle)
    by (intros channel; reflexivity).
  split; [exact H1|]. split; [exact H2|].
  exact (collapsed_state_stays_in_sync Host.toLowerCase Host.localeCompare
           true true Host.notAFunction Host.programTitle
           ChannelList.item_absent "" (Some false) Scenario.session H1 H2).
Defined.

(** The Favorites element at the end of the session of the scenario. *)
Lemma favorites_rows_mirror_witness :
  let st := fst (fold_left
                   (ChannelList.step Host.toLowerCase Host.localeCompare
                      true true Host.notAFunction)
                   Scenario.session
                   (ChannelList.construct ChannelList.item_absent ""
                      (Some false), ChannelList.item_absent)) in
  forallb ChannelList.safeEvent Scenario.session = true
  /\ ChannelList.plainPrograms true Host.programTitle
  /\ In Scenario.favoritesEl (ChannelList.renderedGroups st)
  /\ ChannelList.groupOf Scenario.favoritesEl = "Favorites"
  /\ map ChannelList.rowKey (ChannelList.items Scenario.favoritesEl)
     = map ChannelList.channelKey (ChannelList.membersOf st "Favorites")
  /\ ChannelList.gh_count (ChannelList.header Scenario.favoritesEl)
     = length (ChannelList.membersOf st "Favorites")
  /\ (forall g', In g' (ChannelList.renderedGroups st) ->
        ChannelList.groupOf g' = "Favorites" -> g' = Scenario.favoritesEl).
Proof.
  cbv zeta.
  assert (H1 : forallb ChannelList.safeEvent Scenario.session = true)
    by (vm_compute; reflexivity).
  assert (H2 : ChannelList.plainPrograms true Host.programTitle)
    by (intros channel; reflexivity).
  assert (H3 : In Scenario.favoritesEl
                 (ChannelList.renderedGroups
                    (fst (fold_left
                            (ChannelList.step Host.toLowerCase
                               Host.localeCompare true true
                               Host.notAFunction)
                            Scenario.session
                            (ChannelList.construct ChannelList.item_absent ""
                               (Some false), ChannelList.item_absent)))))
    by (vm_compute; left; reflexivity).
  assert (H4 : ChannelList.groupOf Scenario.favoritesEl = "Favorites")
    by reflexivity.
  split; [exact H1|]. split; [exact H2|]. split; [exact H3|].
  split; [exact H4|].
  exact (favorites_rows_mirror_the_array Host.toLowerCase Host.localeCompare
           true true Host.notAFunction Host.programTitle
           ChannelList.item_absent "" (Some false)
           Scenario.session H1 H2 Scenario.favoritesEl H3 H4).
Defined.
